(** * Pixel-address maps and bit-plane schedules of the Piomatter geometry

    A shallow embedding of [src/include/piomatter/matrixmap.h], of
    [custom_orientation.h] and of the frame handling of
    [src/websocket_server.cpp] and [src/simple_websocket_server.cpp],
    followed by the properties of the orientation transforms, the
    matrix-map builder, the schedule generators, the [matrix_geometry]
    constructors and the frame servers.

    The target is the Raspberry Pi 5 (AArch64, LP64): [int] and
    [uint32_t] are 32 bits wide, [size_t] is 64 bits wide.  Every
    machine integer is a [Z] that lies in the range of its type; the
    reduction into that range is written at every operation and at
    every conversion. *)

From Stdlib Require Import ZArith List Lia String Bool.
From Stdlib Require Import Permutation.
Import ListNotations.
Local Open Scope Z_scope.
Local Open Scope bool_scope.

(** ** Machine integers *)

(** 2^30, 2^31, 2^32, 2^63 and 2^64. *)
Definition two30 : Z := 1073741824.
Definition two31 : Z := 2147483648.
Definition two32 : Z := 4294967296.
Definition two63 : Z := 9223372036854775808.
Definition two64 : Z := 18446744073709551616.

Definition INT_MAX : Z := 2147483647.

(** Conversion to [int]: reduction modulo 2^32 into [-2^31, 2^31).
    Unsigned-to-signed conversion is modular; signed overflow of
    [+ - *] is given the same two's-complement result the hardware
    produces. *)
Definition to_int (z : Z) : Z := (z + two31) mod two32 - two31.

(** Conversion to [uint32_t] and to [size_t]. *)
Definition to_uint32 (z : Z) : Z := z mod two32.
Definition to_size (z : Z) : Z := z mod two64.

Definition is_int (z : Z) : Prop := - two31 <= z < two31.
Definition is_uint32 (z : Z) : Prop := 0 <= z < two32.
Definition is_size (z : Z) : Prop := 0 <= z < two64.

(** [int] arithmetic. Division truncates towards zero. *)
Definition int_add (a b : Z) : Z := to_int (a + b).
Definition int_sub (a b : Z) : Z := to_int (a - b).
Definition int_mul (a b : Z) : Z := to_int (a * b).
Definition int_div (a b : Z) : Z := to_int (Z.quot a b).
Definition int_rem (a b : Z) : Z := Z.rem a b.

(** [size_t] arithmetic. *)
Definition size_add (a b : Z) : Z := to_size (a + b).
Definition size_sub (a b : Z) : Z := to_size (a - b).
Definition size_mul (a b : Z) : Z := to_size (a * b).

(** Left shifts keep the type of their left operand and drop the bits
    shifted out of it.  A count of at least the width of the type has
    no defined result in C++; here all bits are shifted out. *)
Definition shl_int (a n : Z) : Z := to_int (Z.shiftl a n).
Definition shl_uint32 (a n : Z) : Z := to_uint32 (Z.shiftl a n).
Definition shl_size (a n : Z) : Z := to_size (Z.shiftl a n).

(** ** Results of a call *)

(** A call returns a value, throws an exception with its message
    ([std::range_error] from the range checks, [std::length_error]
    from a vector asked to hold more than [max_size()] elements),
    never leaves one of its loops, or divides by zero.  Storage for a
    vector of at most [max_size()] elements is taken to be sufficient;
    the diagnostic [printf] of the temporal schedule is not part of
    the result. *)
Inductive outcome (A : Type) : Type :=
| Returns (a : A)
| Throws (what : string)
| Diverges
| Undefined.

Arguments Returns {A} a.
Arguments Throws {A} what.
Arguments Diverges {A}.
Arguments Undefined {A}.

Definition bind {A B : Type} (c : outcome A) (k : A -> outcome B) : outcome B :=
  match c with
  | Returns a => k a
  | Throws what => Throws what
  | Diverges => Diverges
  | Undefined => Undefined
  end.

Notation "x <- c ;; k" := (bind c (fun x => k))
  (at level 61, c at next level, right associativity).

(** ** Loops and vectors *)

(** The indices [0, 1, .., n-1] of a counting loop. *)
Definition upto (n : Z) : list Z := List.map Z.of_nat (seq 0 (Z.to_nat n)).

(** [for (i = 0; i < n; i++) s = body i s]. *)
Definition for_range {S : Type} (n : Z) (body : Z -> S -> S) (s : S) : S :=
  fold_left (fun acc i => body i acc) (upto n) s.

(** [while (cond s) s = body s], cut off after [fuel] tests of the
    condition. *)
Fixpoint while {S : Type} (fuel : nat) (cond : S -> bool) (body : S -> S)
  (s : S) : option S :=
  match fuel with
  | O => None
  | Datatypes.S fuel' =>
      if cond s then while fuel' cond body (body s) else Some s
  end.

Definition push_back {A : Type} (v : list A) (a : A) : list A := v ++ [a].

(** [std::vector<int>::max_size()] with libstdc++ on LP64:
    [PTRDIFF_MAX / sizeof(int)], that is 2^61 - 1. *)
Definition vector_max_size : Z := 2305843009213693951.

(** ** Orientation transforms *)

Definition orientation_fn : Type := Z -> Z -> Z -> Z -> Z.

Definition orientation_normal (width height x y : Z) : Z :=
  int_add x (int_mul width y).

Definition orientation_r180 (width height x y : Z) : Z :=
  let x := int_sub (int_sub width x) 1 in
  let y := int_sub (int_sub height y) 1 in
  orientation_normal width height x y.

Definition orientation_ccw (width height x y : Z) : Z :=
  orientation_normal height width y (int_sub (int_sub width x) 1).

Definition orientation_cw (width height x y : Z) : Z :=
  orientation_normal height width (int_sub (int_sub y height) 1) x.

(** [custom_orientation.h]: the fixed 3x2 layout of 64x32 panels whose
    top row is wired right to left. *)
Definition custom_panel_orientation (width height x y : Z) : Z :=
  let panel_x := int_div x 64 in
  let panel_y := int_div y 32 in
  let local_x := int_rem x 64 in
  let local_y := int_rem y 32 in
  let panel_x := if panel_y =? 0 then int_sub 2 panel_x else panel_x in
  let new_x := int_add (int_mul panel_x 64) local_x in
  let new_y := int_add (int_mul panel_y 32) local_y in
  int_add new_x (int_mul width new_y).

(** ** The matrix map *)

Definition matrix_map : Type := list Z.

(** [size_t panel_height = 2 << n_addr_lines]: the shift is an [int]
    shift (its left operand is the [int] literal 2) and the [int]
    result is then converted to [size_t]. *)
Definition panel_height (n_addr_lines : Z) : Z :=
  to_size (shl_int 2 n_addr_lines).

(** [size_t half_panel_height = 1u << n_addr_lines]. *)
Definition half_panel_height (n_addr_lines : Z) : Z :=
  to_size (shl_uint32 1 n_addr_lines).

Definition v_panels (height n_addr_lines : Z) : Z :=
  height / panel_height n_addr_lines.

Definition pixels_across_of (width height n_addr_lines : Z) : Z :=
  size_mul width (v_panels height n_addr_lines).

(** The body of the inner loop up to the two [push_back]s: the [int]
    variables [x], [y0] and [y1] for row-select state [i] and column
    position [j].  [width], [panel_height], [half_panel_height] and
    [i] are [size_t], so the right-hand sides are computed in [size_t]
    and converted on assignment. *)
Definition pixel_coords (serpentine : bool) (width n_addr_lines i j : Z)
  : Z * Z * Z :=
  let panel_height := panel_height n_addr_lines in
  let half_panel_height := half_panel_height n_addr_lines in
  let panel_no := to_int (j / width) in
  let panel_idx := to_int (j mod width) in
  if serpentine && negb (int_rem panel_no 2 =? 0) then
    let top := size_mul (to_size (int_add panel_no 1)) panel_height in
    (to_int (size_sub (size_sub width (to_size panel_idx)) 1),
     to_int (size_sub (size_sub top i) 1),
     to_int (size_sub (size_sub (size_sub top i) half_panel_height) 1))
  else
    let top := size_mul (to_size panel_no) panel_height in
    (panel_idx,
     to_int (size_add top i),
     to_int (size_add (size_add top i) half_panel_height)).

(** One pass of the inner loop body on the vector under construction.
    The transform takes [int] parameters, so [width] and [height] are
    converted at the call. *)
Definition map_step (serpentine : bool) (cb : orientation_fn)
  (width height n_addr_lines i j : Z) (result : matrix_map) : matrix_map :=
  let '(x, y0, y1) := pixel_coords serpentine width n_addr_lines i j in
  let result := push_back result (cb (to_int width) (to_int height) x y0) in
  push_back result (cb (to_int width) (to_int height) x y1).

(** [make_matrixmap].  [result.reserve(width * height)] throws
    [std::length_error] when the [size_t] product exceeds
    [max_size()]; so does the [push_back] that finds [max_size()]
    entries in the vector, which one of the
    [2 * half_panel_height * pixels_across] calls of the loops does
    exactly when that count exceeds [max_size()]. *)
Definition make_matrixmap (width height n_addr_lines : Z) (serpentine : bool)
  (cb : orientation_fn) : outcome matrix_map :=
  let panel_height := panel_height n_addr_lines in
  if panel_height =? 0 then Undefined
  else if negb (height mod panel_height =? 0) then
    Throws "Overall height does not evenly divide calculated panel height"
  else
    let half_panel_height := half_panel_height n_addr_lines in
    let pixels_across := pixels_across_of width height n_addr_lines in
    if vector_max_size <? size_mul width height then Throws "vector::reserve"
    else if vector_max_size <? 2 * (half_panel_height * pixels_across) then
      Throws "vector::_M_realloc_insert"
    else
      Returns
        (for_range half_panel_height (fun i result =>
           for_range pixels_across (fun j result =>
             map_step serpentine cb width height n_addr_lines i j result)
             result)
           []).

(** ** [submap] *)

(** [while] for a body that runs a loop of its own and may run out of
    fuel there. *)
Fixpoint while_opt {S : Type} (fuel : nat) (cond : S -> bool)
  (body : S -> option S) (s : S) : option S :=
  match fuel with
  | O => None
  | Datatypes.S fuel' =>
      if cond s then
        match body s with
        | Some s' => while_opt fuel' cond body s'
        | None => None
        end
      else Some s
  end.

(** The inner loop of [submap],
    [for (int x = start_x, count_x = count_x_in; count_x--; x += dx)],
    on the state [(x, count_x, result)]: the condition tests the
    counter before decrementing it. *)
Definition submap_row (fuel : nat) (cb : orientation_fn)
  (width height start_x dx count_x_in y dy half_panel_height : Z)
  (result : matrix_map) : option matrix_map :=
  option_map (fun st : Z * Z * matrix_map => snd st)
    (while fuel
       (fun st : Z * Z * matrix_map => negb (snd (fst st) =? 0))
       (fun st : Z * Z * matrix_map =>
          let x := fst (fst st) in
          let count_x := int_sub (snd (fst st)) 1 in
          let result := push_back (snd st) (cb width height x y) in
          let result :=
            push_back result
              (cb width height x (int_add y (int_mul dy half_panel_height))) in
          (int_add x dx, count_x, result))
       (start_x, count_x_in, result)).

(** [submap]: the outer loop
    [for (int y = start_y; count_y; count_y -= 2, y += dy)] on the
    state [(y, count_y, result)].  [fuel] bounds the number of tests
    of each loop condition. *)
Definition submap (fuel : nat) (result : matrix_map)
  (width height start_x dx count_x_in start_y dy count_y half_panel_height : Z)
  (cb : orientation_fn) : option matrix_map :=
  option_map (fun st : Z * Z * matrix_map => snd st)
    (while_opt fuel
       (fun st : Z * Z * matrix_map => negb (snd (fst st) =? 0))
       (fun st : Z * Z * matrix_map =>
          let y := fst (fst st) in
          let count_y := snd (fst st) in
          match submap_row fuel cb width height start_x dx count_x_in y dy
                  half_panel_height (snd st) with
          | Some result => Some (int_add y dy, int_sub count_y 2, result)
          | None => None
          end)
       (start_y, count_y, result)).

(** ** Schedules *)

Record schedule_entry : Type := { shift : Z; active_time : Z }.

Definition schedule : Type := list schedule_entry.
Definition schedule_sequence : Type := list schedule.

(** [emplace_back(a, b)]: both fields are [uint32_t], the arguments
    are converted on initialisation. *)
Definition emplace_back (v : schedule) (a b : Z) : schedule :=
  push_back v {| shift := to_uint32 a; active_time := to_uint32 b |}.

(** A [size_t] counter doubled 64 times is zero, so 65 tests decide
    the first loop; the [uint32_t] counter of the second is zero after
    32 doublings. *)
Definition size_fuel : nat := 65.
Definition uint32_fuel : nat := 33.

Definition make_simple_schedule (n_planes pixels_across : Z)
  : outcome schedule_sequence :=
  if (n_planes <? 1) || (10 <? n_planes) then Throws "n_planes out of range"
  else
    match while size_fuel (fun max_count => max_count <? pixels_across)
                (fun max_count => shl_size max_count 1)
                (to_size (shl_int 1 n_planes)) with
    | None => Diverges
    | Some max_count =>
        Returns
          [for_range n_planes (fun i result =>
             emplace_back result (int_sub 10 i) (Z.shiftr max_count i)) []]
    end.

Definition make_temporal_dither_schedule
  (n_planes pixels_across n_temporal_planes : Z) : outcome schedule_sequence :=
  if (n_planes <? 1) || (10 <? n_planes) then Throws "n_planes out of range"
  else if n_temporal_planes =? 0 then
    make_simple_schedule n_planes pixels_across
  else if n_planes <=? n_temporal_planes then
    Throws "n_temporal_planes out of range"
  else if negb (n_temporal_planes =? 2) && negb (n_temporal_planes =? 4) then
    Throws "n_temporal_planes out of range"
  else
    let n_real_planes := int_sub n_planes n_temporal_planes in
    match while uint32_fuel
                (fun st : Z * Z => fst st <? pixels_across)
                (fun st : Z * Z => (shl_uint32 (fst st) 1, shl_uint32 (snd st) 1))
                (to_uint32 (shl_int 2 n_real_planes), 1) with
    | None => Diverges
    | Some (max_count, temporal_count) =>
        let base_sched :=
          for_range n_real_planes (fun j result =>
            emplace_back result (int_sub 10 j) (Z.shiftr max_count j)) [] in
        let add_sched (plane count : Z) (result : schedule_sequence) :=
          push_back result (emplace_back base_sched (int_sub 10 plane) count) in
        Returns
          (for_range n_temporal_planes (fun i result =>
             add_sched (int_add n_real_planes i)
                       (to_int (shl_uint32 temporal_count i)) result) [])
    end.

(** ** The geometry *)

Module matrix_geometry.
Record t : Type := {
  pixels_across : Z;
  n_addr_lines : Z;
  n_lanes : Z;
  width : Z;
  height : Z;
  map : matrix_map;
  schedules : schedule_sequence
}.
End matrix_geometry.

(** The constructor from an explicit map and schedule sequence. *)
Definition matrix_geometry_of_schedules
  (pixels_across n_addr_lines width height : Z) (map : matrix_map)
  (n_lanes : Z) (schedules : schedule_sequence) : outcome matrix_geometry.t :=
  let pixels_down := shl_size n_lanes n_addr_lines in
  if negb (Z.of_nat (List.length map) =? size_mul pixels_down pixels_across) then
    Throws "map size does not match calculated pixel count"
  else
    Returns {| matrix_geometry.pixels_across := pixels_across;
               matrix_geometry.n_addr_lines := n_addr_lines;
               matrix_geometry.n_lanes := n_lanes;
               matrix_geometry.width := width;
               matrix_geometry.height := height;
               matrix_geometry.map := map;
               matrix_geometry.schedules := schedules |}.

(** The constructor from an explicit map and a temporal-dither count.
    It calls [make_temporal_dither_schedule(n_planes, n_temporal_dither,
    pixels_across)]: the [size_t] dither count lands in the [size_t]
    parameter [pixels_across], the [size_t] pixel count is converted to
    the [int] parameter [n_temporal_planes]. *)
Definition matrix_geometry_of_map
  (pixels_across n_addr_lines n_planes width height : Z) (map : matrix_map)
  (n_lanes n_temporal_dither : Z) : outcome matrix_geometry.t :=
  schedules <- make_temporal_dither_schedule
                 n_planes n_temporal_dither (to_int pixels_across) ;;
  matrix_geometry_of_schedules pixels_across n_addr_lines width height map
    n_lanes schedules.

(** The constructor from an orientation transform: two lanes, default
    dither count 0. *)
Definition matrix_geometry_of_transform
  (pixels_across n_addr_lines n_planes width height : Z) (serpentine : bool)
  (cb : orientation_fn) : outcome matrix_geometry.t :=
  map <- make_matrixmap width height n_addr_lines serpentine cb ;;
  matrix_geometry_of_map pixels_across n_addr_lines n_planes width height map
    2 0.

(** ** The frame servers *)

(** [websocket_server.cpp] and [simple_websocket_server.cpp] receive
    RGB888 frames, queue them and convert the oldest queued frame into
    the [uint32_t] framebuffer the display reads.  A byte is a [Z] in
    [0, 256).  Diagnostic output on [std::cout] and [std::cerr], the
    set of connections and the notification of the condition variable
    are not part of the state. *)

Definition is_byte (b : Z) : Prop := 0 <= b < 256.

(** [v[i]] with an [int] index, which is converted to [size_t]:
    outside the vector the access has no defined behaviour. *)
Definition vector_at {A : Type} (v : list A) (i : Z) : outcome A :=
  if to_size i <? Z.of_nat (List.length v) then
    match nth_error v (Z.to_nat (to_size i)) with
    | Some a => Returns a
    | None => Undefined
    end
  else Undefined.

Fixpoint replace_nth {A : Type} (n : nat) (v : list A) (a : A) : list A :=
  match v, n with
  | [], _ => []
  | _ :: v', O => a :: v'
  | b :: v', Datatypes.S n' => b :: replace_nth n' v' a
  end.

(** [v[i] = a]. *)
Definition vector_assign {A : Type} (v : list A) (i : Z) (a : A)
  : outcome (list A) :=
  if to_size i <? Z.of_nat (List.length v) then
    Returns (replace_nth (Z.to_nat (to_size i)) v a)
  else Undefined.

(** [for (i = 0; i < n; i++)] with a body that may fail. *)
Definition for_range_outcome {S : Type} (n : Z) (body : Z -> S -> outcome S)
  (s : S) : outcome S :=
  fold_left (fun acc i => s <- acc ;; body i s) (upto n) (Returns s).

Module server.

Definition width : Z := 192.
Definition height : Z := 64.

(** [std::vector<uint8_t>] and [std::vector<uint32_t>]. *)
Definition frame : Type := list Z.
Definition framebuffer : Type := list Z.

(** [(r << 16) | (g << 8) | b] on [uint32_t] operands. *)
Definition packed (r g b : Z) : Z :=
  Z.lor (Z.lor (shl_uint32 r 16) (shl_uint32 g 8)) b.

(** The body of the conversion loops of [render_frames]; the three
    bytes are widened to [uint32_t]. *)
Definition convert_pixel (frame_data : frame) (x y : Z) (fb : framebuffer)
  : outcome framebuffer :=
  let idx := int_mul (int_add (int_mul y width) x) 3 in
  r <- vector_at frame_data idx ;;
  g <- vector_at frame_data (int_add idx 1) ;;
  b <- vector_at frame_data (int_add idx 2) ;;
  vector_assign fb (int_add (int_mul y width) x)
    (packed (to_uint32 r) (to_uint32 g) (to_uint32 b)).

Definition convert_frame (frame_data : frame) (fb : framebuffer)
  : outcome framebuffer :=
  for_range_outcome height (fun y fb =>
    for_range_outcome width (fun x fb => convert_pixel frame_data x y fb) fb)
    fb.

(** The word the loops store for pixel number [k], read from a frame
    that holds its three bytes. *)
Definition converted_word (frame_data : frame) (k : Z) : Z :=
  packed
    (to_uint32 (nth (Z.to_nat (3 * k)) frame_data 0))
    (to_uint32 (nth (Z.to_nat (3 * k + 1)) frame_data 0))
    (to_uint32 (nth (Z.to_nat (3 * k + 2)) frame_data 0)).

(** [while (frame_queue_.size() > 2) frame_queue_.pop();] on a queue
    whose front is the head of the list. *)
Fixpoint drop_stale (frame_queue : list frame) : list frame :=
  match frame_queue with
  | [] => []
  | _ :: rest =>
      if 2 <? Z.of_nat (List.length frame_queue) then drop_stale rest
      else frame_queue
  end.

(** The locked block of [on_message] and of [handle_client]. *)
Definition enqueue_frame (frame_queue : list frame) (frame_data : frame)
  : list frame :=
  push_back (drop_stale frame_queue) frame_data.

Record state : Type := {
  frame_queue_ : list frame;
  framebuffer_ : framebuffer
}.

(** What a handler does besides changing the state: [matrix_->show()]
    and [ws_server_.send(hdl, text, opcode::text)]. *)
Inductive event : Type :=
| show
| send (text : string).

(** The state the constructor leaves: its initialiser list gives
    [framebuffer_(width * height, 0)] and an empty queue; its body
    sets up the geometry, the display and the handlers and writes to
    neither. *)
Definition initial : state :=
  {| frame_queue_ := [];
     framebuffer_ :=
       repeat 0 (Z.to_nat (to_size (int_mul width height))) |}.

(** [std::fill(framebuffer_.begin(), framebuffer_.end(), 0)]. *)
Definition clear (fb : framebuffer) : framebuffer := List.map (fun _ => 0) fb.

(** [handle_command] of [websocket_server.cpp].  [fps] is the text
    [std::to_string(matrix_->fps)] yields; the display driver is not
    part of these sources. *)
Definition handle_command (fps : string) (cmd : string) (st : state)
  : state * list event :=
  if String.eqb cmd "CLEAR" then
    ({| frame_queue_ := frame_queue_ st;
        framebuffer_ := clear (framebuffer_ st) |}, [show])
  else if String.eqb (substring 0 10 cmd) "BRIGHTNESS" then (st, [])
  else if String.eqb cmd "INFO" then (st, [send (String.append "FPS:" fps)])
  else (st, []).

(** The bytes of a payload, [char] by [char]. *)
Definition bytes_of (payload : string) : frame :=
  List.map (fun c => Z.of_nat (Ascii.nat_of_ascii c))
    (list_ascii_of_string payload).

(** [on_message] of [websocket_server.cpp]. *)
Definition on_message (fps : string) (payload : string) (st : state)
  : state * list event :=
  if String.eqb (substring 0 4 payload) "CMD:" then
    handle_command fps
      (substring 4 (String.length payload - 4) payload) st
  else if Z.of_nat (String.length payload)
          =? to_size (int_mul (int_mul width height) 3) then
    ({| frame_queue_ := enqueue_frame (frame_queue_ st) (bytes_of payload);
        framebuffer_ := framebuffer_ st |}, [])
  else (st, []).

(** One turn of the loop of [render_frames] once the wait is over:
    with an empty queue the thread keeps waiting ([None]). *)
Definition render_frame (st : state) : option (outcome (state * list event)) :=
  match frame_queue_ st with
  | [] => None
  | frame_data :: rest =>
      Some (fb <- convert_frame frame_data (framebuffer_ st) ;;
            Returns ({| frame_queue_ := rest; framebuffer_ := fb |}, [show]))
  end.

(** The body of the receive loop of [handle_client] in
    [simple_websocket_server.cpp], applied to the bytes one call of
    [recv] delivered: fewer than a frame are searched for the text
    [CMD:CLEAR], exactly a frame is queued, more are ignored. *)
Definition handle_packet (received : string) (st : state)
  : state * list event :=
  let frame_size := int_mul (int_mul width height) 3 in
  if Z.of_nat (String.length received) <? frame_size then
    match index 0 "CMD:CLEAR" received with
    | Some _ =>
        ({| frame_queue_ := frame_queue_ st;
            framebuffer_ := clear (framebuffer_ st) |}, [show])
    | None => (st, [])
    end
  else if Z.of_nat (String.length received) =? frame_size then
    ({| frame_queue_ := enqueue_frame (frame_queue_ st) (bytes_of received);
        framebuffer_ := framebuffer_ st |}, [])
  else (st, []).

(** The states the server passes through, a call of [on_message] and
    a turn of [render_frames] each taken as one step. *)
Inductive reachable (fps : string) : state -> Prop :=
| reachable_initial : reachable fps initial
| reachable_message (payload : string) (st : state) :
    reachable fps st -> reachable fps (fst (on_message fps payload st))
| reachable_render (st st' : state) (events : list event) :
    reachable fps st ->
    render_frame st = Some (Returns (st', events)) ->
    reachable fps st'.

End server.

(** * The specification's reading *)

(** Definitions of this part follow the words of the specification;
    they are what the code above is compared with. *)

(** [start] doubled [k] times is the first value of the doubling
    sequence that reaches [pixels_across]. *)
Definition least_doubling (start pixels_across k : Z) : Prop :=
  0 <= k
  /\ pixels_across <= start * 2 ^ k
  /\ (k = 0 \/ start * 2 ^ (k - 1) < pixels_across).

(** The simple schedule: one schedule of [n_planes] entries, entry [i]
    with shift [10 - i] and dwell [maxCount >> i], each dwell half of
    the one before it. *)
Definition simple_schedule_spec (n_planes pixels_across : Z) : Prop :=
  exists (k : Z) (sched : schedule),
    let maxCount := 2 ^ n_planes * 2 ^ k in
    least_doubling (2 ^ n_planes) pixels_across k
    /\ make_simple_schedule n_planes pixels_across = Returns [sched]
    /\ Z.of_nat (List.length sched) = n_planes
    /\ (forall i, 0 <= i < n_planes ->
          nth_error sched (Z.to_nat i)
          = Some {| shift := 10 - i; active_time := Z.shiftr maxCount i |})
    /\ (forall (i : nat) (e e' : schedule_entry),
          nth_error sched i = Some e -> nth_error sched (S i) = Some e' ->
          active_time e = 2 * active_time e').

(** The temporal-dither schedules: [n_temporal_planes] schedules, each
    the shared base entries followed by one entry of its own. *)
Definition temporal_schedule_spec
  (n_planes pixels_across n_temporal_planes : Z) : Prop :=
  exists (k : Z) (seqs : schedule_sequence),
    let realPlaneCount := n_planes - n_temporal_planes in
    let maxCount := 2 * 2 ^ realPlaneCount * 2 ^ k in
    let temporalCount := 2 ^ k in
    let base :=
      List.map (fun j => {| shift := 10 - j;
                            active_time := Z.shiftr maxCount j |})
               (upto realPlaneCount) in
    least_doubling (2 * 2 ^ realPlaneCount) pixels_across k
    /\ make_temporal_dither_schedule n_planes pixels_across n_temporal_planes
       = Returns seqs
    /\ Z.of_nat (List.length seqs) = n_temporal_planes
    /\ (forall i, 0 <= i < n_temporal_planes ->
          nth_error seqs (Z.to_nat i)
          = Some (base ++ [ {| shift := 10 - (realPlaneCount + i);
                               active_time := Z.shiftl temporalCount i |} ])).

(** The coordinates of section 4.2 for row-select state [i] and column
    position [j], without and with serpentine wiring. *)
Definition spec_plain_coords (width n_addr_lines i j : Z) : Z * Z * Z :=
  let halfPanelHeight := 2 ^ n_addr_lines in
  let panelHeight := 2 * halfPanelHeight in
  let panelIndex := j / width in
  let y0 := panelIndex * panelHeight + i in
  (j mod width, y0, y0 + halfPanelHeight).

Definition spec_serpentine_coords (width n_addr_lines i j : Z) : Z * Z * Z :=
  let halfPanelHeight := 2 ^ n_addr_lines in
  let panelHeight := 2 * halfPanelHeight in
  let panelIndex := j / width in
  if Z.odd panelIndex then
    let y0 := (panelIndex + 1) * panelHeight - i - 1 in
    (width - j mod width - 1, y0, y0 - halfPanelHeight)
  else
    spec_plain_coords width n_addr_lines i j.

(** Coordinates as the [int] variables hold them. *)
Definition as_int_coords (c : Z * Z * Z) : Z * Z * Z :=
  let '(x, y0, y1) := c in (to_int x, to_int y0, to_int y1).

(** The builder's outcome as section 7 and section 8 put it: an error
    exactly for a height that the panel height [2 * 2^n_addr_lines]
    does not divide, and otherwise a map of
    [pixelsAcross * 2 * 2^n_addr_lines] entries, [pixelsAcross] being
    the [size_t] product of the width and the number of stacks. *)
Definition matrixmap_outcome_spec (width height n_addr_lines : Z)
  (serpentine : bool) (cb : orientation_fn) : Prop :=
  let panelHeight := 2 * 2 ^ n_addr_lines in
  let pixelsAcross := size_mul width (height / panelHeight) in
  ((exists what,
      make_matrixmap width height n_addr_lines serpentine cb = Throws what)
   <-> height mod panelHeight <> 0)
  /\ (height mod panelHeight = 0 ->
      exists m,
        make_matrixmap width height n_addr_lines serpentine cb = Returns m
        /\ Z.of_nat (List.length m) = pixelsAcross * 2 * 2 ^ n_addr_lines).

(** The row-major identity sequence of a single stack: entry [k] is
    [k], for [k] from 0 to [width * height - 1]. *)
Definition row_major_identity_spec (width n_addr_lines : Z) : Prop :=
  let height := 2 * 2 ^ n_addr_lines in
  make_matrixmap width height n_addr_lines false orientation_normal
  = Returns (upto (width * height)).

(** * Properties *)

(** ** Machine integers *)

Section MachineIntegers.

Lemma to_int_range (z : Z) : is_int (to_int z).
Proof.
  unfold is_int, to_int.
  pose proof (Z.mod_pos_bound (z + two31) two32 eq_refl) as B.
  unfold two31, two32 in *. lia.
Qed.

Lemma to_int_small (z : Z) : is_int z -> to_int z = z.
Proof.
  unfold is_int, to_int. intros B.
  rewrite Z.mod_small; unfold two31, two32 in *; lia.
Qed.

(** Two integers that differ by a multiple of 2^32 convert to the
    same [int]. *)
Lemma to_int_congr (a b : Z) : (two32 | a - b) -> to_int a = to_int b.
Proof.
  intros [q Hq]. unfold to_int.
  replace (a + two31) with (b + two31 + q * two32) by lia.
  now rewrite Z.mod_add by discriminate.
Qed.

Lemma to_int_divide (a : Z) : (two32 | to_int a - a).
Proof.
  unfold to_int. exists (- ((a + two31) / two32)).
  pose proof (Z.div_mod (a + two31) two32 ltac:(discriminate)). lia.
Qed.

Lemma to_size_divide (a : Z) : (two32 | to_size a - a).
Proof.
  unfold to_size. exists (- (a / two64) * two32).
  pose proof (Z.div_mod a two64 ltac:(discriminate)).
  unfold two64, two32 in *. lia.
Qed.

Lemma to_uint32_divide (a : Z) : (two32 | to_uint32 a - a).
Proof.
  unfold to_uint32. exists (- (a / two32)).
  pose proof (Z.div_mod a two32 ltac:(discriminate)). lia.
Qed.

Lemma to_size_small (z : Z) : is_size z -> to_size z = z.
Proof. unfold is_size, to_size. intros B. now apply Z.mod_small. Qed.

Lemma to_size_range (z : Z) : is_size (to_size z).
Proof. unfold is_size, to_size. now apply Z.mod_pos_bound. Qed.

Lemma to_uint32_small (z : Z) : is_uint32 z -> to_uint32 z = z.
Proof. unfold is_uint32, to_uint32. intros B. now apply Z.mod_small. Qed.

Lemma to_uint32_range (z : Z) : is_uint32 (to_uint32 z).
Proof. unfold is_uint32, to_uint32. now apply Z.mod_pos_bound. Qed.

(** An [int] survives the round trip through [uint32_t]. *)
Lemma to_uint32_to_int (z : Z) : is_uint32 z -> to_uint32 (to_int z) = z.
Proof.
  intros B. unfold is_uint32, to_uint32, to_int in *.
  unfold two31, two32 in *. Z.div_mod_to_equations. lia.
Qed.

End MachineIntegers.

(** Sums, differences and products of congruent integers are
    congruent. *)
Lemma divide_add_congr (m a a' b b' : Z) :
  (m | a - a') -> (m | b - b') -> (m | (a + b) - (a' + b')).
Proof.
  intros Ha Hb. replace (a + b - (a' + b')) with ((a - a') + (b - b')) by ring.
  now apply Z.divide_add_r.
Qed.

Lemma divide_sub_congr (m a a' b b' : Z) :
  (m | a - a') -> (m | b - b') -> (m | (a - b) - (a' - b')).
Proof.
  intros Ha Hb. replace (a - b - (a' - b')) with ((a - a') - (b - b')) by ring.
  now apply Z.divide_sub_r.
Qed.

Lemma divide_mul_congr (m a a' b b' : Z) :
  (m | a - a') -> (m | b - b') -> (m | a * b - a' * b').
Proof.
  intros Ha Hb.
  replace (a * b - a' * b') with ((a - a') * b + a' * (b - b')) by ring.
  apply Z.divide_add_r.
  - now apply Z.divide_mul_l.
  - now apply Z.divide_mul_r.
Qed.

Lemma divide_refl_congr (m a : Z) : (m | a - a).
Proof. rewrite Z.sub_diag. apply Z.divide_0_r. Qed.

Lemma divide_trans_congr (m a b c : Z) :
  (m | a - b) -> (m | b - c) -> (m | a - c).
Proof.
  intros Hab Hbc. replace (a - c) with ((a - b) + (b - c)) by ring.
  now apply Z.divide_add_r.
Qed.

(** Two expressions that differ only in conversions and in congruent
    operands are congruent modulo 2^32. *)
Ltac congr32 :=
  lazymatch goal with
  | |- (two32 | ?a - ?a) => apply divide_refl_congr
  | H : (two32 | ?a - ?b) |- (two32 | ?a - ?b) => exact H
  | |- (two32 | to_size _ - _) =>
      eapply divide_trans_congr; [apply to_size_divide | congr32]
  | |- (two32 | to_int _ - _) =>
      eapply divide_trans_congr; [apply to_int_divide | congr32]
  | |- (two32 | to_uint32 _ - _) =>
      eapply divide_trans_congr; [apply to_uint32_divide | congr32]
  | |- (two32 | (_ + _) - (_ + _)) => apply divide_add_congr; congr32
  | |- (two32 | (_ - _) - (_ - _)) => apply divide_sub_congr; congr32
  | |- (two32 | (_ * _) - (_ * _)) => apply divide_mul_congr; congr32
  end.

(** ** Orientation transforms *)

(** The transforms compute their offset in [int]; the result is the
    [int] that is congruent to the exact offset. *)
Lemma orientation_normal_wrap (width height x y : Z) :
  orientation_normal width height x y = to_int (x + width * y).
Proof.
  unfold orientation_normal, int_add, int_mul. apply to_int_congr. congr32.
Qed.

Lemma orientation_cw_wrap (width height x y : Z) :
  orientation_cw width height x y = to_int ((y - height - 1) + height * x).
Proof.
  unfold orientation_cw. rewrite orientation_normal_wrap.
  unfold int_sub. apply to_int_congr. congr32.
Qed.

(** C10: for every in-bounds input the rotate-CW transform returns
    [(y - height - 1) + height * x], as the [int] it is computed in and
    exactly whenever the offsets of the canvas are representable; for
    [x = 0] the result is [y - height - 1], which is negative and so
    lies outside the offset range [0, width * height). *)
Theorem orientation_cw_offset (width height x y : Z) :
  is_int width -> is_int height ->
  0 <= x < width -> 0 <= y < height ->
  orientation_cw width height x y = to_int ((y - height - 1) + height * x)
  /\ (width * height <= INT_MAX ->
      orientation_cw width height x y = (y - height - 1) + height * x)
  /\ (x = 0 ->
      orientation_cw width height x y = y - height - 1
      /\ orientation_cw width height x y < 0
      /\ ~ (0 <= orientation_cw width height x y < width * height)).
Proof.
  intros Hw Hh Hx Hy. rewrite orientation_cw_wrap.
  split; [reflexivity | split].
  - intros Hfit. apply to_int_small.
    unfold is_int, INT_MAX, two31 in *. nia.
  - intros ->. rewrite Z.mul_0_r, Z.add_0_r.
    rewrite to_int_small by (unfold is_int, two31 in *; lia).
    repeat split; lia.
Qed.

Lemma orientation_cw_offset_witness :
  is_int 4 /\ is_int 3 /\ 0 <= 0 < 4 /\ 0 <= 2 < 3
  /\ orientation_cw 4 3 0 2 = -2.
Proof.
  assert (Hw : is_int 4) by (unfold is_int, two31; lia).
  assert (Hh : is_int 3) by (unfold is_int, two31; lia).
  assert (Hx : 0 <= 0 < 4) by lia.
  assert (Hy : 0 <= 2 < 3) by lia.
  split; [exact Hw | split; [exact Hh | split; [exact Hx | split; [exact Hy |]]]].
  destruct (orientation_cw_offset 4 3 0 2 Hw Hh Hx Hy) as (_ & _ & H0).
  destruct (H0 eq_refl) as (E & _). exact E.
Defined.

(** C2 (as stated): the top-row point (10,10) would map to 2090. The
    code maps it to 2058, so the pair of equations does not hold. *)
Lemma custom_orientation_claimed_offsets_fail :
  ~ (custom_panel_orientation 192 64 10 10 = 2090
     /\ custom_panel_orientation 192 64 10 40 = 7690).
Proof.
  intros [Htop _]. vm_compute in Htop. discriminate Htop.
Qed.

(** C2 (amended): on the 192x64 canvas the top-row point (10,10) lies
    in panel column 0, is moved to panel column 2, that is to
    (138,10), and maps to 138 + 192*10 = 2058; the bottom-row point
    (10,40) stays in place and maps to 10 + 192*40 = 7690. *)
Theorem custom_orientation_offsets :
  custom_panel_orientation 192 64 10 10 = 138 + 192 * 10
  /\ custom_panel_orientation 192 64 10 10 = 2058
  /\ custom_panel_orientation 192 64 10 40 = 10 + 192 * 40
  /\ custom_panel_orientation 192 64 10 40 = 7690.
Proof.
  unfold custom_panel_orientation.
  repeat split; vm_compute; reflexivity.
Qed.

(** ** Range errors of the schedule generators *)

Lemma make_simple_schedule_throws (n_planes pixels_across : Z) :
  (exists what, make_simple_schedule n_planes pixels_across = Throws what)
  <-> n_planes < 1 \/ 10 < n_planes.
Proof.
  unfold make_simple_schedule.
  destruct ((n_planes <? 1) || (10 <? n_planes)) eqn:Hrange.
  - apply orb_true_iff in Hrange. rewrite !Z.ltb_lt in Hrange.
    split; [intros _; exact Hrange | intros _; eexists; reflexivity].
  - apply orb_false_iff in Hrange. rewrite !Z.ltb_ge in Hrange.
    split; [| lia].
    intros [what Hthrow]. exfalso.
    destruct (while size_fuel _ _ _); discriminate Hthrow.
Qed.

Lemma make_temporal_dither_schedule_throws
  (n_planes pixels_across n_temporal_planes : Z) :
  (exists what,
     make_temporal_dither_schedule n_planes pixels_across n_temporal_planes
     = Throws what)
  <-> (n_planes < 1 \/ 10 < n_planes)
      \/ (n_temporal_planes <> 0 /\ n_temporal_planes <> 2
          /\ n_temporal_planes <> 4)
      \/ (n_temporal_planes <> 0 /\ n_planes <= n_temporal_planes).
Proof.
  pose proof (make_simple_schedule_throws n_planes pixels_across) as Hsimple.
  unfold make_temporal_dither_schedule.
  destruct ((n_planes <? 1) || (10 <? n_planes)) eqn:Hrange.
  { apply orb_true_iff in Hrange. rewrite !Z.ltb_lt in Hrange.
    split; [intros _; now left | intros _; eexists; reflexivity]. }
  apply orb_false_iff in Hrange. rewrite !Z.ltb_ge in Hrange.
  destruct (Z.eqb_spec n_temporal_planes 0) as [Hzero | Hzero].
  { rewrite Hsimple. split; [tauto | intros [? | [? | ?]]; lia]. }
  destruct (Z.leb_spec n_planes n_temporal_planes) as [Hge | Hlt].
  { split; [intros _; right; right; now split | intros _; eexists; reflexivity]. }
  destruct (Z.eqb_spec n_temporal_planes 2) as [Htwo | Htwo];
    destruct (Z.eqb_spec n_temporal_planes 4) as [Hfour | Hfour]; cbn [negb andb].
  4: { split; [intros _; right; left; repeat split; assumption
              | intros _; eexists; reflexivity]. }
  all: split; [| intros [? | [? | ?]]; lia].
  all: intros [what Hthrow]; exfalso.
  all: destruct (while uint32_fuel _ _ _) as [[? ?] |]; discriminate Hthrow.
Qed.

(** C8: [make_simple_schedule] throws its range error exactly when the
    plane count is outside [1,10]; [make_temporal_dither_schedule]
    throws exactly when the plane count is outside [1,10], or the
    temporal count is none of 0, 2, 4, or it is non-zero and at least
    the plane count.  Plane counts 0 and 11 and temporal count 3 are
    rejected. *)
Theorem schedule_range_errors
  (n_planes pixels_across n_temporal_planes : Z) :
  ((exists what, make_simple_schedule n_planes pixels_across = Throws what)
   <-> n_planes < 1 \/ 10 < n_planes)
  /\ ((exists what,
         make_temporal_dither_schedule n_planes pixels_across n_temporal_planes
         = Throws what)
      <-> (n_planes < 1 \/ 10 < n_planes)
          \/ (n_temporal_planes <> 0 /\ n_temporal_planes <> 2
              /\ n_temporal_planes <> 4)
          \/ (n_temporal_planes <> 0 /\ n_planes <= n_temporal_planes))
  /\ make_simple_schedule 0 pixels_across = Throws "n_planes out of range"
  /\ make_simple_schedule 11 pixels_across = Throws "n_planes out of range"
  /\ (exists what,
        make_temporal_dither_schedule n_planes pixels_across 3 = Throws what).
Proof.
  split; [apply make_simple_schedule_throws |].
  split; [apply make_temporal_dither_schedule_throws |].
  split; [reflexivity | split; [reflexivity |]].
  apply make_temporal_dither_schedule_throws. right; left. lia.
Qed.

(** ** The geometry constructors *)

Lemma shl_size_exact (a n : Z) :
  0 <= n -> is_size (a * 2 ^ n) -> shl_size a n = a * 2 ^ n.
Proof.
  intros Hn Hfit. unfold shl_size.
  rewrite Z.shiftl_mul_pow2 by assumption. now apply to_size_small.
Qed.

(** C9: the constructor from an explicit map and schedule sequence
    throws exactly when the length of the map differs from
    [(n_lanes << n_addr_lines) * pixels_across] (computed in [size_t]);
    a constructed geometry therefore satisfies the length invariant,
    and when the lengths agree the geometry is built from the
    arguments as they are, whatever their values.  While the product
    stays below 2^64 it is [n_lanes * 2^n_addr_lines * pixels_across]. *)
Theorem geometry_map_length_check
  (pixels_across n_addr_lines width height : Z) (map : matrix_map)
  (n_lanes : Z) (schedules : schedule_sequence) :
  let expected := size_mul (shl_size n_lanes n_addr_lines) pixels_across in
  let built :=
    matrix_geometry_of_schedules pixels_across n_addr_lines width height map
      n_lanes schedules in
  ((exists what, built = Throws what)
   <-> Z.of_nat (List.length map) <> expected)
  /\ (forall g, built = Returns g ->
        Z.of_nat (List.length (matrix_geometry.map g))
        = size_mul (shl_size (matrix_geometry.n_lanes g)
                             (matrix_geometry.n_addr_lines g))
                   (matrix_geometry.pixels_across g))
  /\ (Z.of_nat (List.length map) = expected ->
        built = Returns
          {| matrix_geometry.pixels_across := pixels_across;
             matrix_geometry.n_addr_lines := n_addr_lines;
             matrix_geometry.n_lanes := n_lanes;
             matrix_geometry.width := width;
             matrix_geometry.height := height;
             matrix_geometry.map := map;
             matrix_geometry.schedules := schedules |})
  /\ (0 <= n_addr_lines -> 0 <= n_lanes -> 0 <= pixels_across ->
      n_lanes * 2 ^ n_addr_lines * pixels_across < two64 ->
      expected = n_lanes * 2 ^ n_addr_lines * pixels_across).
Proof.
  cbv zeta. unfold matrix_geometry_of_schedules.
  destruct (Z.eqb_spec (Z.of_nat (List.length map))
              (size_mul (shl_size n_lanes n_addr_lines) pixels_across))
    as [Hlen | Hlen]; cbn [negb].
  - split; [split; [intros [what H]; discriminate H | intros H; now elim H] |].
    split; [intros g Hg; injection Hg as <-; exact Hlen |].
    split; [reflexivity |].
    intros Ha Hl Hp Hfit.
    assert (Hpow : 0 < 2 ^ n_addr_lines) by (apply Z.pow_pos_nonneg; lia).
    destruct (Z.eq_dec pixels_across 0) as [-> | Hnz].
    + unfold size_mul. now rewrite !Z.mul_0_r.
    + rewrite shl_size_exact; [| assumption | unfold is_size; nia].
      unfold size_mul. apply to_size_small. unfold is_size. nia.
  - split; [split; [intros _; exact Hlen | intros _; eexists; reflexivity] |].
    split; [intros g Hg; discriminate Hg |].
    split; [intros H; now elim Hlen |].
    intros Ha Hl Hp Hfit.
    assert (Hpow : 0 < 2 ^ n_addr_lines) by (apply Z.pow_pos_nonneg; lia).
    destruct (Z.eq_dec pixels_across 0) as [-> | Hnz].
    + unfold size_mul. now rewrite !Z.mul_0_r.
    + rewrite shl_size_exact; [| assumption | unfold is_size; nia].
      unfold size_mul. apply to_size_small. unfold is_size. nia.
Qed.

(** C1: the constructor from a map and a temporal-dither count hands
    the dither count to [make_temporal_dither_schedule] as the pixel
    count and the pixel count as the number of temporal planes.  With
    a valid plane count and at least as many pixels across as planes
    the construction ends in the range error of the temporal plane
    count, whatever the map and the dither count are. *)
Theorem geometry_of_map_schedule_arguments
  (pixels_across n_addr_lines n_planes width height : Z) (map : matrix_map)
  (n_lanes n_temporal_dither : Z) :
  1 <= n_planes <= 10 -> n_planes <= pixels_across < two31 ->
  matrix_geometry_of_map pixels_across n_addr_lines n_planes width height map
    n_lanes n_temporal_dither
  = Throws "n_temporal_planes out of range".
Proof.
  intros Hplanes Hacross.
  unfold matrix_geometry_of_map, make_temporal_dither_schedule.
  rewrite to_int_small by (unfold is_int, two31 in *; lia).
  replace ((n_planes <? 1) || (10 <? n_planes)) with false
    by (symmetry; apply orb_false_iff; rewrite !Z.ltb_ge; lia).
  destruct (Z.eqb_spec pixels_across 0) as [Hzero | _]; [lia |].
  destruct (Z.leb_spec n_planes pixels_across) as [_ | Hlt]; [| lia].
  reflexivity.
Qed.

(** At 64 pixels across, 10 planes and no temporal dithering the
    schedule asked for is the simple ten-entry schedule; the
    constructor throws instead. *)
Lemma geometry_of_map_schedule_arguments_witness :
  1 <= 10 <= 10 /\ 10 <= 64 < two31
  /\ matrix_geometry_of_map 64 4 10 64 32 (repeat 0 2048) 2 0
     = Throws "n_temporal_planes out of range"
  /\ make_temporal_dither_schedule 10 64 0
     = Returns [[ {| shift := 10; active_time := 1024 |};
                  {| shift := 9; active_time := 512 |};
                  {| shift := 8; active_time := 256 |};
                  {| shift := 7; active_time := 128 |};
                  {| shift := 6; active_time := 64 |};
                  {| shift := 5; active_time := 32 |};
                  {| shift := 4; active_time := 16 |};
                  {| shift := 3; active_time := 8 |};
                  {| shift := 2; active_time := 4 |};
                  {| shift := 1; active_time := 2 |} ]].
Proof.
  assert (Hplanes : 1 <= 10 <= 10) by lia.
  assert (Hacross : 10 <= 64 < two31) by (unfold two31; lia).
  split; [exact Hplanes | split; [exact Hacross | split]].
  - exact (geometry_of_map_schedule_arguments 64 4 10 64 32 (repeat 0 2048) 2 0
             Hplanes Hacross).
  - vm_compute. reflexivity.
Defined.

(** ** Counting loops *)

Lemma in_upto (n i : Z) : In i (upto n) <-> 0 <= i < n.
Proof.
  unfold upto. rewrite in_map_iff. split.
  - intros [k [<- Hk]]. apply in_seq in Hk. lia.
  - intros Hi. exists (Z.to_nat i). split; [lia | apply in_seq; lia].
Qed.

Lemma length_upto (n : Z) : List.length (upto n) = Z.to_nat n.
Proof. unfold upto. now rewrite length_map, length_seq. Qed.

Lemma nth_error_upto (n i : Z) :
  0 <= i < n -> nth_error (upto n) (Z.to_nat i) = Some i.
Proof.
  intros Hi. unfold upto. rewrite nth_error_map, nth_error_seq.
  destruct (Nat.ltb_spec (Z.to_nat i) (Z.to_nat n)) as [_ | Hge]; [| lia].
  cbn. f_equal. lia.
Qed.

Lemma nth_error_map_upto {A : Type} (f : Z -> A) (n i : Z) :
  0 <= i < n -> nth_error (List.map f (upto n)) (Z.to_nat i) = Some (f i).
Proof.
  intros Hi. now rewrite nth_error_map, nth_error_upto.
Qed.

(** A loop whose body appends to the vector appends the concatenation
    of what each pass appends. *)
Lemma fold_left_append {A B : Type} (body : B -> list A -> list A)
  (f : B -> list A) (l : list B) :
  (forall i acc, body i acc = acc ++ f i) ->
  forall init, fold_left (fun acc i => body i acc) l init = init ++ flat_map f l.
Proof.
  intros Hbody. induction l as [| b l IH]; intros init; cbn.
  - now rewrite app_nil_r.
  - rewrite IH, Hbody. now rewrite app_assoc.
Qed.

Lemma for_range_append {A : Type} (n : Z) (body : Z -> list A -> list A)
  (f : Z -> list A) (init : list A) :
  (forall i acc, body i acc = acc ++ f i) ->
  for_range n body init = init ++ flat_map f (upto n).
Proof. intros Hbody. unfold for_range. now apply fold_left_append. Qed.

Lemma flat_map_singleton {A B : Type} (f : B -> A) (l : list B) :
  flat_map (fun i => [f i]) l = List.map f l.
Proof. induction l as [| b l IH]; cbn; [reflexivity | now rewrite IH]. Qed.

Lemma for_range_push_back {A : Type} (n : Z) (f : Z -> A) :
  for_range n (fun i result => push_back result (f i)) [] = List.map f (upto n).
Proof.
  rewrite (for_range_append n _ (fun i => [f i])) by reflexivity.
  cbn. apply flat_map_singleton.
Qed.

(** ** Doubling loops *)

Lemma pow2_pos (e : Z) : 0 <= e -> 0 < 2 ^ e.
Proof. intros He. apply Z.pow_pos_nonneg; lia. Qed.

Lemma pow2_succ (e : Z) : 0 <= e -> 2 ^ (e + 1) = 2 * 2 ^ e.
Proof. intros He. rewrite Z.pow_add_r by lia. lia. Qed.

Lemma shiftr_pow2 (e i : Z) : 0 <= i <= e -> Z.shiftr (2 ^ e) i = 2 ^ (e - i).
Proof.
  intros Hi. rewrite Z.shiftr_div_pow2 by lia.
  symmetry. apply Z.pow_sub_r; lia.
Qed.

Lemma least_doubling_step (start p k : Z) :
  0 < start -> 0 <= k -> least_doubling start p (k + 1) ->
  start < p /\ least_doubling (2 * start) p k.
Proof.
  intros Hstart Hk (_ & Hreach & [Hzero | Hbelow]); [lia |].
  replace (k + 1 - 1) with k in Hbelow by lia.
  rewrite pow2_succ in Hreach by assumption.
  pose proof (pow2_pos k Hk) as Hpow.
  split; [nia |]. split; [assumption |]. split; [lia |].
  destruct (Z.eq_dec k 0) as [-> | Hnz]; [now left | right].
  replace k with (k - 1 + 1) in Hbelow by lia.
  rewrite pow2_succ in Hbelow by lia. lia.
Qed.

(** The doubling loop of [make_simple_schedule] stops at the first
    value that reaches [pixels_across], provided that value fits in
    [size_t]. *)
Lemma while_doubling_size (p : Z) (k : nat) :
  forall (fuel : nat) (start : Z),
    0 < start -> start * 2 ^ Z.of_nat k < two64 ->
    least_doubling start p (Z.of_nat k) -> (k < fuel)%nat ->
    while fuel (fun max_count => max_count <? p)
               (fun max_count => shl_size max_count 1) start
    = Some (start * 2 ^ Z.of_nat k).
Proof.
  induction k as [| k IH]; intros fuel start Hstart Hfit Hleast Hfuel;
    (destruct fuel as [| fuel]; [lia |]); cbn [while].
  - destruct Hleast as (_ & Hreach & _). cbn in Hreach.
    destruct (Z.ltb_spec start p) as [Hlt | _]; [lia |].
    f_equal. cbn. lia.
  - replace (Z.of_nat (S k)) with (Z.of_nat k + 1) in * by lia.
    apply least_doubling_step in Hleast as [Hlt Hleast]; [| lia | lia].
    rewrite pow2_succ in Hfit by lia.
    pose proof (pow2_pos (Z.of_nat k) ltac:(lia)) as Hpow.
    destruct (Z.ltb_spec start p) as [_ | Hge]; [| lia].
    assert (Hshl : shl_size start 1 = 2 * start).
    { unfold shl_size. rewrite Z.shiftl_mul_pow2 by lia.
      rewrite to_size_small; [lia | unfold is_size; nia]. }
    rewrite Hshl, IH; [| lia | nia | assumption | lia].
    f_equal. rewrite pow2_succ by lia. ring.
Qed.

(** The loop of [make_temporal_dither_schedule] doubles the two
    [uint32_t] counters together. *)
Lemma while_doubling_uint32 (p : Z) (k : nat) :
  forall (fuel : nat) (start count : Z),
    0 < count <= start -> start * 2 ^ Z.of_nat k < two32 ->
    least_doubling start p (Z.of_nat k) -> (k < fuel)%nat ->
    while fuel (fun st : Z * Z => fst st <? p)
               (fun st : Z * Z => (shl_uint32 (fst st) 1, shl_uint32 (snd st) 1))
               (start, count)
    = Some (start * 2 ^ Z.of_nat k, count * 2 ^ Z.of_nat k).
Proof.
  induction k as [| k IH]; intros fuel start count Hstart Hfit Hleast Hfuel;
    (destruct fuel as [| fuel]; [lia |]); cbn [while fst snd].
  - destruct Hleast as (_ & Hreach & _). cbn in Hreach.
    destruct (Z.ltb_spec start p) as [Hlt | _]; [lia |].
    f_equal. cbn. f_equal; lia.
  - replace (Z.of_nat (S k)) with (Z.of_nat k + 1) in * by lia.
    apply least_doubling_step in Hleast as [Hlt Hleast]; [| lia | lia].
    rewrite pow2_succ in Hfit by lia.
    pose proof (pow2_pos (Z.of_nat k) ltac:(lia)) as Hpow.
    destruct (Z.ltb_spec start p) as [_ | Hge]; [| lia].
    assert (Hshl : forall c, 0 < c <= start -> shl_uint32 c 1 = 2 * c).
    { intros c Hc. unfold shl_uint32. rewrite Z.shiftl_mul_pow2 by lia.
      rewrite to_uint32_small; [lia | unfold is_uint32; nia]. }
    rewrite (Hshl start), (Hshl count), IH by lia || nia || assumption.
    rewrite pow2_succ by lia. f_equal. f_equal; ring.
Qed.

(** A power of two is doubled up to a bound that is itself a power of
    two without passing it. *)
Lemma least_doubling_exists (e bound p : Z) :
  0 <= e <= bound -> p <= 2 ^ bound ->
  exists k, least_doubling (2 ^ e) p k /\ 0 <= k <= bound - e.
Proof.
  intros He Hp. pose proof (pow2_pos e ltac:(lia)) as Hpow.
  destruct (Z.le_gt_cases p (2 ^ e)) as [Hle | Hgt].
  - exists 0. split; [| lia]. split; [lia |]. split; [cbn; lia | now left].
  - assert (Hone : 1 < p) by lia.
    pose proof (Z.log2_up_spec p Hone) as [Hlow Hhigh].
    set (L := Z.log2_up p) in *.
    assert (HeL : e < L).
    { apply (Z.pow_lt_mono_r_iff 2); [lia | | lia].
      pose proof (Z.log2_up_nonneg p). lia. }
    assert (HLb : L <= bound).
    { apply Z.log2_up_le_pow2; lia. }
    exists (L - e). split; [| lia].
    replace (Z.pred L) with (L - 1) in Hlow by lia.
    split; [lia |]. split.
    + rewrite <- Z.pow_add_r by lia. now replace (e + (L - e)) with L by lia.
    + right. rewrite <- Z.pow_add_r by lia.
      now replace (e + (L - e - 1)) with (L - 1) by lia.
Qed.

(** ** Loops that never exit *)

(** [while] runs out of fuel exactly when the condition holds of the
    first [fuel] states. *)
Lemma while_none_iff {S : Type} (cond : S -> bool) (body : S -> S) :
  forall (fuel : nat) (s : S),
    while fuel cond body s = None
    <-> forall j, (j < fuel)%nat -> cond (Nat.iter j body s) = true.
Proof.
  induction fuel as [| fuel IH]; intros s; cbn [while].
  - split; [intros _ j Hj; lia | reflexivity].
  - destruct (cond s) eqn:Hs.
    + rewrite IH. split.
      * intros Hall [| j] Hj; [exact Hs |].
        rewrite Nat.iter_succ_r. apply Hall. lia.
      * intros Hall j Hj. rewrite <- Nat.iter_succ_r. apply Hall. lia.
    + split; [discriminate |].
      intros Hall. specialize (Hall 0%nat ltac:(lia)). cbn in Hall. congruence.
Qed.

(** Doubling modulo 2^w gives zero from the w-th doubling on. *)
Lemma iter_double_mod (w : nat) (s : Z) :
  forall j : nat,
    Nat.iter j (fun m => Z.shiftl m 1 mod 2 ^ Z.of_nat w) s mod 2 ^ Z.of_nat w
    = (s * 2 ^ Z.of_nat j) mod 2 ^ Z.of_nat w.
Proof.
  assert (Hnz : 2 ^ Z.of_nat w <> 0) by (apply Z.pow_nonzero; lia).
  induction j as [| j IH].
  - cbn [Nat.iter]. f_equal. cbn. lia.
  - rewrite Nat.iter_succ, Z.mod_mod by assumption.
    rewrite Z.shiftl_mul_pow2 by lia.
    rewrite <- Z.mul_mod_idemp_l, IH, Z.mul_mod_idemp_l by assumption.
    f_equal. replace (Z.of_nat (S j)) with (Z.of_nat j + 1) by lia.
    rewrite pow2_succ, Z.pow_1_r by lia. ring.
Qed.

Lemma iter_double_mod_zero (w : nat) (s : Z) (j : nat) :
  (0 < j)%nat -> (w <= j)%nat ->
  Nat.iter j (fun m => Z.shiftl m 1 mod 2 ^ Z.of_nat w) s = 0.
Proof.
  intros Hpos Hj.
  assert (Hnz : 2 ^ Z.of_nat w <> 0) by (apply Z.pow_nonzero; lia).
  assert (Hred : Nat.iter j (fun m => Z.shiftl m 1 mod 2 ^ Z.of_nat w) s
                 = Nat.iter j (fun m => Z.shiftl m 1 mod 2 ^ Z.of_nat w) s
                   mod 2 ^ Z.of_nat w).
  { destruct j as [| j]; [lia |].
    rewrite Nat.iter_succ. now rewrite Z.mod_mod. }
  rewrite Hred, iter_double_mod.
  replace (Z.of_nat j) with (Z.of_nat w + (Z.of_nat j - Z.of_nat w)) by lia.
  rewrite Z.pow_add_r by lia.
  replace (s * (2 ^ Z.of_nat w * 2 ^ (Z.of_nat j - Z.of_nat w)))
    with (s * 2 ^ (Z.of_nat j - Z.of_nat w) * 2 ^ Z.of_nat w) by ring.
  now apply Z.mod_mul.
Qed.

(** When the [size_t] loop has not stopped within its 65 tests it
    never stops: the counter has reached zero and stays there. *)
Lemma size_loop_never_exits (p start : Z) :
  while size_fuel (fun max_count => max_count <? p)
                  (fun max_count => shl_size max_count 1) start = None ->
  forall fuel,
    while fuel (fun max_count => max_count <? p)
               (fun max_count => shl_size max_count 1) start = None.
Proof.
  intros Hnone fuel. rewrite while_none_iff in *. intros j _.
  destruct (Nat.lt_ge_cases j size_fuel) as [Hlt | Hge]; [now apply Hnone |].
  specialize (Hnone 64%nat ltac:(unfold size_fuel; lia)).
  change (fun max_count => shl_size max_count 1)
    with (fun m => Z.shiftl m 1 mod 2 ^ Z.of_nat 64) in *.
  rewrite iter_double_mod_zero in Hnone by lia.
  rewrite iter_double_mod_zero by (unfold size_fuel in Hge; lia).
  exact Hnone.
Qed.

Lemma iter_pair_fst (f g : Z -> Z) (st : Z * Z) (j : nat) :
  fst (Nat.iter j (fun st : Z * Z => (f (fst st), g (snd st))) st)
  = Nat.iter j f (fst st).
Proof.
  induction j as [| j IH]; [reflexivity |].
  rewrite !Nat.iter_succ. cbn [fst]. now rewrite IH.
Qed.

(** The same for the [uint32_t] loop and its 33 tests. *)
Lemma uint32_loop_never_exits (p : Z) (st : Z * Z) :
  while uint32_fuel (fun st : Z * Z => fst st <? p)
        (fun st : Z * Z => (shl_uint32 (fst st) 1, shl_uint32 (snd st) 1)) st
  = None ->
  forall fuel,
    while fuel (fun st : Z * Z => fst st <? p)
          (fun st : Z * Z => (shl_uint32 (fst st) 1, shl_uint32 (snd st) 1)) st
    = None.
Proof.
  intros Hnone fuel. rewrite while_none_iff in *. intros j _.
  destruct (Nat.lt_ge_cases j uint32_fuel) as [Hlt | Hge]; [now apply Hnone |].
  specialize (Hnone 32%nat ltac:(unfold uint32_fuel; lia)).
  pose proof (iter_pair_fst (fun a => shl_uint32 a 1)
                (fun a => shl_uint32 a 1) st) as Hfst.
  cbv beta in Hfst. rewrite Hfst in Hnone. rewrite Hfst. clear Hfst.
  change (fun a => shl_uint32 a 1)
    with (fun m => Z.shiftl m 1 mod 2 ^ Z.of_nat 32) in *.
  rewrite iter_double_mod_zero in Hnone by lia.
  rewrite iter_double_mod_zero by (unfold uint32_fuel in Hge; lia).
  exact Hnone.
Qed.

(** ** The simple schedule *)

Lemma shl_int_exact (a n : Z) :
  0 <= n -> is_int (a * 2 ^ n) -> shl_int a n = a * 2 ^ n.
Proof.
  intros Hn Hfit. unfold shl_int.
  rewrite Z.shiftl_mul_pow2 by assumption. now apply to_int_small.
Qed.

Lemma pow2_le_mono (a b : Z) : 0 <= a <= b -> 2 ^ a <= 2 ^ b.
Proof. intros Hab. apply Z.pow_le_mono_r; lia. Qed.

(** The entries [(10 - i, M >> i)] of a schedule are stored without
    loss while [M] is a power of two below 2^32 and there are at most
    ten of them. *)
Lemma schedule_entries_exact (n e : Z) :
  0 <= n <= 10 -> n <= e <= 31 ->
  for_range n (fun i result =>
      emplace_back result (int_sub 10 i) (Z.shiftr (2 ^ e) i)) []
  = List.map (fun i => {| shift := 10 - i;
                          active_time := Z.shiftr (2 ^ e) i |}) (upto n).
Proof.
  intros Hn He.
  transitivity
    (List.map (fun i => {| shift := to_uint32 (int_sub 10 i);
                           active_time := to_uint32 (Z.shiftr (2 ^ e) i) |})
              (upto n));
    [exact (for_range_push_back n _) |].
  apply map_ext_in. intros i Hi. apply in_upto in Hi.
  unfold int_sub.
  rewrite (to_int_small (10 - i)) by (unfold is_int, two31; lia).
  rewrite (to_uint32_small (10 - i)) by (unfold is_uint32, two32; lia).
  rewrite shiftr_pow2 by lia.
  rewrite to_uint32_small; [reflexivity |].
  pose proof (pow2_pos (e - i) ltac:(lia)).
  pose proof (pow2_le_mono (e - i) 31 ltac:(lia)).
  unfold is_uint32, two32. change (2 ^ 31) with 2147483648 in *. lia.
Qed.

(** C4 (as stated, for every pixel count): at 2^31 + 1 pixels across
    the doubled counter is 2^32, whose low 32 bits are stored as the
    first dwell, 0; the second dwell is 2^31, not half of it. *)
Lemma simple_schedule_fails_beyond_uint32 :
  ~ simple_schedule_spec 5 (two31 + 1).
Proof.
  intros (k & sched & _ & Hret & _ & _ & Hhalf).
  assert (Hrun : make_simple_schedule 5 (two31 + 1)
                 = Returns [[ {| shift := 10; active_time := 0 |};
                              {| shift := 9; active_time := 2147483648 |};
                              {| shift := 8; active_time := 1073741824 |};
                              {| shift := 7; active_time := 536870912 |};
                              {| shift := 6; active_time := 268435456 |} ]])
    by (vm_compute; reflexivity).
  rewrite Hrun in Hret. injection Hret as <-.
  specialize (Hhalf 0%nat _ _ eq_refl eq_refl). cbn in Hhalf. discriminate Hhalf.
Qed.

(** C4 (amended): for every plane count in [1,10] and every pixel
    count up to 2^31, [make_simple_schedule] returns exactly one
    schedule of [n_planes] entries, entry [i] with shift [10 - i] and
    dwell [maxCount >> i], where [maxCount] is the first value of the
    doubling sequence from [2^n_planes] that reaches [pixels_across];
    each dwell is twice the next. *)
Theorem make_simple_schedule_correct (n_planes pixels_across : Z) :
  1 <= n_planes <= 10 -> pixels_across <= two31 ->
  simple_schedule_spec n_planes pixels_across.
Proof.
  intros Hn Hp.
  destruct (least_doubling_exists n_planes 31 pixels_across ltac:(lia) Hp)
    as (k & Hleast & Hk).
  set (e := n_planes + k).
  assert (Hmax : 2 ^ n_planes * 2 ^ k = 2 ^ e)
    by (unfold e; now rewrite Z.pow_add_r by lia).
  pose proof (pow2_pos n_planes ltac:(lia)) as Hstart.
  pose proof (pow2_le_mono n_planes 10 ltac:(lia)) as Hstart10.
  pose proof (pow2_le_mono e 31 ltac:(lia)) as Hmax31.
  change (2 ^ 10) with 1024 in Hstart10.
  change (2 ^ 31) with 2147483648 in Hmax31.
  exists k, (List.map (fun i => {| shift := 10 - i;
                                   active_time := Z.shiftr (2 ^ e) i |})
                      (upto n_planes)).
  cbv zeta. rewrite Hmax.
  split; [exact Hleast | split; [| split; [| split]]].
  - unfold make_simple_schedule.
    replace ((n_planes <? 1) || (10 <? n_planes)) with false
      by (symmetry; apply orb_false_iff; rewrite !Z.ltb_ge; lia).
    rewrite shl_int_exact by (unfold is_int, two31; lia).
    rewrite Z.mul_1_l, to_size_small by (unfold is_size, two64; lia).
    rewrite <- (Z2Nat.id k) in Hmax, Hleast by lia.
    rewrite (while_doubling_size pixels_across (Z.to_nat k))
      by (unfold size_fuel, two64; lia || assumption).
    rewrite Hmax.
    now rewrite schedule_entries_exact by lia.
  - rewrite length_map, length_upto. lia.
  - intros i Hi. now rewrite nth_error_map_upto.
  - intros i entry entry' Hentry Hentry'.
    assert (Hi : (S i < Z.to_nat n_planes)%nat).
    { rewrite <- (length_upto n_planes).
      erewrite <- length_map. apply nth_error_Some. rewrite Hentry'.
      discriminate. }
    rewrite <- (Nat2Z.id i), nth_error_map_upto in Hentry by lia.
    rewrite <- (Nat2Z.id (S i)), nth_error_map_upto in Hentry' by lia.
    injection Hentry as <-. injection Hentry' as <-. cbn [active_time].
    rewrite !shiftr_pow2 by lia.
    replace (e - Z.of_nat i) with (e - Z.of_nat (S i) + 1) by lia.
    apply pow2_succ. lia.
Qed.

Lemma make_simple_schedule_correct_witness :
  1 <= 5 <= 10 /\ 192 <= two31
  /\ simple_schedule_spec 5 192
  /\ make_simple_schedule 5 192
     = Returns [[ {| shift := 10; active_time := 256 |};
                  {| shift := 9; active_time := 128 |};
                  {| shift := 8; active_time := 64 |};
                  {| shift := 7; active_time := 32 |};
                  {| shift := 6; active_time := 16 |} ]].
Proof.
  assert (Hn : 1 <= 5 <= 10) by lia.
  assert (Hp : 192 <= two31) by (unfold two31; lia).
  split; [exact Hn | split; [exact Hp | split]].
  - exact (make_simple_schedule_correct 5 192 Hn Hp).
  - vm_compute. reflexivity.
Defined.

(** ** The temporal-dither schedules *)

(** C5 (as stated, for every pixel count): at 2^31 + 1 pixels across
    the [uint32_t] counter is doubled from 4 up to 2^31, which is
    still too small, and then to 0, where it stays: the loop has no
    exit and no schedule is returned. *)
Lemma temporal_schedule_fails_beyond_uint32 :
  ~ temporal_schedule_spec 5 (two31 + 1) 4.
Proof.
  intros (k & seqs & _ & Hret & _).
  assert (Hrun : make_temporal_dither_schedule 5 (two31 + 1) 4 = Diverges)
    by (vm_compute; reflexivity).
  rewrite Hrun in Hret. discriminate Hret.
Qed.

(** With five planes, four of them temporal, and more than 2^30
    pixels across, the dwell of the last schedule, [2^29 << 3], does
    not fit in 32 bits and is stored as 0. *)
Lemma temporal_schedule_last_dwell_wraps :
  make_temporal_dither_schedule 5 two31 4
  = Returns
      [ [ {| shift := 10; active_time := 2147483648 |};
          {| shift := 9; active_time := 536870912 |} ];
        [ {| shift := 10; active_time := 2147483648 |};
          {| shift := 8; active_time := 1073741824 |} ];
        [ {| shift := 10; active_time := 2147483648 |};
          {| shift := 7; active_time := 2147483648 |} ];
        [ {| shift := 10; active_time := 2147483648 |};
          {| shift := 6; active_time := 0 |} ] ].
Proof. vm_compute. reflexivity. Qed.

(** C5 (amended): for every plane count in [1,10], every temporal
    count in {2,4} below it and every pixel count up to 2^31 (up to
    2^30 for five planes of which four are temporal),
    [make_temporal_dither_schedule] returns exactly
    [n_temporal_planes] schedules; schedule [i] consists of the
    [n_planes - n_temporal_planes] base entries [(10 - j, maxCount >> j)]
    followed by the entry [(10 - (realPlaneCount + i), temporalCount << i)],
    where [maxCount] starts at [2 * 2^realPlaneCount], [temporalCount]
    at 1, and both are doubled until [maxCount] reaches
    [pixels_across]. *)
Theorem make_temporal_dither_schedule_correct
  (n_planes pixels_across n_temporal_planes : Z) :
  1 <= n_planes <= 10 ->
  n_temporal_planes = 2 \/ n_temporal_planes = 4 ->
  n_temporal_planes < n_planes ->
  pixels_across <= two31 ->
  (n_planes = 5 -> n_temporal_planes = 4 -> pixels_across <= two30) ->
  temporal_schedule_spec n_planes pixels_across n_temporal_planes.
Proof.
  intros Hn Ht Hlt Hp Hp5.
  set (real := n_planes - n_temporal_planes).
  assert (Hbound : exists bound,
             pixels_across <= 2 ^ bound /\ real + 1 <= bound <= 31
             /\ bound - real + n_temporal_planes - 2 <= 31).
  { destruct (Z.eq_dec n_planes 5) as [H5 | H5];
      destruct (Z.eq_dec n_temporal_planes 4) as [H4 | H4].
    - exists 30. split; [exact (Hp5 H5 H4) | unfold real; lia].
    - exists 31. split; [exact Hp | unfold real; lia].
    - exists 31. split; [exact Hp | unfold real; lia].
    - exists 31. split; [exact Hp | unfold real; lia]. }
  destruct Hbound as (bound & Hpb & Hb & Hlast).
  destruct (least_doubling_exists (real + 1) bound pixels_across
              ltac:(unfold real; lia) Hpb) as (k & Hleast & Hk).
  rewrite pow2_succ in Hleast by (unfold real; lia).
  set (e := real + 1 + k).
  assert (Hmax : 2 * 2 ^ real * 2 ^ k = 2 ^ e).
  { unfold e. rewrite !Z.pow_add_r, Z.pow_1_r by (unfold real; lia). ring. }
  pose proof (pow2_pos real ltac:(unfold real; lia)) as Hstart.
  pose proof (pow2_le_mono real 8 ltac:(unfold real; lia)) as Hstart8.
  assert (Hreal : 1 <= real <= 8) by (unfold real; lia).
  assert (He : real + 1 <= e <= 31) by (unfold e; lia).
  pose proof (pow2_le_mono e 31 ltac:(lia)) as Hmax31.
  pose proof (pow2_pos k ltac:(lia)) as Hcount.
  change (2 ^ 8) with 256 in Hstart8.
  change (2 ^ 31) with 2147483648 in Hmax31.
  set (base := List.map (fun j => {| shift := 10 - j;
                                     active_time := Z.shiftr (2 ^ e) j |})
                        (upto real)).
  set (extra := fun i => {| shift := 10 - (real + i);
                            active_time := Z.shiftl (2 ^ k) i |}).
  exists k, (List.map (fun i => base ++ [extra i]) (upto n_temporal_planes)).
  cbv zeta. fold real. rewrite Hmax. fold base.
  split; [exact Hleast | split; [| split]].
  - unfold make_temporal_dither_schedule.
    replace ((n_planes <? 1) || (10 <? n_planes)) with false
      by (symmetry; apply orb_false_iff; rewrite !Z.ltb_ge; lia).
    destruct (Z.eqb_spec n_temporal_planes 0) as [H0 | _]; [lia |].
    destruct (Z.leb_spec n_planes n_temporal_planes) as [Hge | _]; [lia |].
    replace (negb (n_temporal_planes =? 2) && negb (n_temporal_planes =? 4))
      with false by (destruct Ht as [-> | ->]; reflexivity).
    assert (Hreal_int : int_sub n_planes n_temporal_planes = real)
      by (apply to_int_small; unfold is_int, two31; lia).
    cbv zeta. rewrite !Hreal_int.
    rewrite shl_int_exact by (unfold is_int, two31; lia).
    rewrite to_uint32_small by (unfold is_uint32, two32; lia).
    rewrite <- (Z2Nat.id k) in Hmax, Hleast by lia.
    rewrite (while_doubling_uint32 pixels_across (Z.to_nat k))
      by (unfold uint32_fuel, two32; lia || assumption).
    rewrite Hmax, Z.mul_1_l, Z2Nat.id by lia.
    rewrite schedule_entries_exact by lia.
    fold base. f_equal.
    transitivity
      (List.map (fun i =>
           emplace_back base (int_sub 10 (int_add real i))
                        (to_int (shl_uint32 (2 ^ k) i)))
         (upto n_temporal_planes));
      [exact (for_range_push_back n_temporal_planes _) |].
    apply map_ext_in. intros i Hi. apply in_upto in Hi.
    unfold emplace_back, push_back, extra. do 3 f_equal.
    + unfold int_sub, int_add.
      rewrite (to_int_small (real + i)) by (unfold is_int, two31; lia).
      rewrite to_int_small by (unfold is_int, two31; lia).
      apply to_uint32_small. unfold is_uint32, two32. lia.
    + rewrite to_uint32_to_int by apply to_uint32_range.
      unfold shl_uint32. apply to_uint32_small.
      rewrite Z.shiftl_mul_pow2, <- Z.pow_add_r by lia.
      pose proof (pow2_pos (k + i) ltac:(lia)).
      pose proof (pow2_le_mono (k + i) 31 ltac:(lia)).
      unfold is_uint32, two32. change (2 ^ 31) with 2147483648 in *. lia.
  - rewrite length_map, length_upto. lia.
  - intros i Hi. now rewrite nth_error_map_upto.
Qed.

Lemma make_temporal_dither_schedule_correct_witness :
  1 <= 5 <= 10 /\ (2 = 2 \/ 2 = 4) /\ 2 < 5 /\ 192 <= two31
  /\ (5 = 5 -> 2 = 4 -> 192 <= two30)
  /\ temporal_schedule_spec 5 192 2
  /\ make_temporal_dither_schedule 5 192 2
     = Returns
         [ [ {| shift := 10; active_time := 256 |};
             {| shift := 9; active_time := 128 |};
             {| shift := 8; active_time := 64 |};
             {| shift := 7; active_time := 16 |} ];
           [ {| shift := 10; active_time := 256 |};
             {| shift := 9; active_time := 128 |};
             {| shift := 8; active_time := 64 |};
             {| shift := 6; active_time := 32 |} ] ].
Proof.
  assert (Hn : 1 <= 5 <= 10) by lia.
  assert (Ht : 2 = 2 \/ 2 = 4) by (left; reflexivity).
  assert (Hlt : 2 < 5) by lia.
  assert (Hp : 192 <= two31) by (unfold two31; lia).
  assert (Hp5 : 5 = 5 -> 2 = 4 -> 192 <= two30) by (unfold two30; lia).
  split; [exact Hn | split; [exact Ht | split; [exact Hlt | split; [exact Hp |]]]].
  split; [exact Hp5 | split].
  - exact (make_temporal_dither_schedule_correct 5 192 2 Hn Ht Hlt Hp Hp5).
  - vm_compute. reflexivity.
Defined.

(** ** Vectors filled block by block *)

Lemma flat_map_map_compose {A B C : Type} (h : A -> B) (f : B -> list C)
  (l : list A) :
  flat_map f (List.map h l) = flat_map (fun a => f (h a)) l.
Proof. induction l as [| a l IH]; cbn; [reflexivity | now rewrite IH]. Qed.

Lemma nth_error_flat_map_seq {A : Type} (g : nat -> list A) (len r : nat) :
  (r < len)%nat ->
  forall (count start i : nat),
    (i < count)%nat ->
    (forall q, (start <= q < start + count)%nat -> List.length (g q) = len) ->
    nth_error (flat_map g (seq start count)) (i * len + r)
    = nth_error (g (start + i)%nat) r.
Proof.
  intros Hr. induction count as [| count IH]; intros start i Hi Hlen; [lia |].
  cbn [seq flat_map].
  destruct i as [| i].
  - rewrite nth_error_app1 by (rewrite Hlen; lia).
    now rewrite Nat.add_0_r.
  - rewrite nth_error_app2 by (rewrite Hlen; lia).
    rewrite Hlen by lia.
    replace (S i * len + r - len)%nat with (i * len + r)%nat by lia.
    rewrite IH by (try lia; intros q Hq; apply Hlen; lia).
    f_equal. f_equal. lia.
Qed.

Lemma length_flat_map_seq {A : Type} (g : nat -> list A) (len : nat) :
  forall (count start : nat),
    (forall q, (start <= q < start + count)%nat -> List.length (g q) = len) ->
    List.length (flat_map g (seq start count)) = (count * len)%nat.
Proof.
  induction count as [| count IH]; intros start Hlen; [reflexivity |].
  cbn [seq flat_map]. rewrite length_app, Hlen by lia.
  rewrite IH by (intros q Hq; apply Hlen; lia). lia.
Qed.

(** In a vector made of [n] blocks of [len] entries, entry [r] of
    block [i] stands at index [i * len + r]. *)
Lemma nth_error_flat_map_upto {A : Type} (f : Z -> list A) (len : nat)
  (n i : Z) (r : nat) :
  (forall q, 0 <= q < n -> List.length (f q) = len) ->
  0 <= i < n -> (r < len)%nat ->
  nth_error (flat_map f (upto n)) (Z.to_nat i * len + r) = nth_error (f i) r.
Proof.
  intros Hlen Hi Hr. unfold upto. rewrite flat_map_map_compose.
  rewrite (nth_error_flat_map_seq _ len r Hr) by
    (try lia; intros q Hq; apply Hlen; lia).
  cbn. now rewrite Z2Nat.id by lia.
Qed.

Lemma length_flat_map_upto {A : Type} (f : Z -> list A) (len : nat) (n : Z) :
  (forall q, 0 <= q < n -> List.length (f q) = len) ->
  List.length (flat_map f (upto n)) = (Z.to_nat n * len)%nat.
Proof.
  intros Hlen. unfold upto. rewrite flat_map_map_compose.
  apply length_flat_map_seq. intros q Hq. apply Hlen. lia.
Qed.

(** ** The matrix map, entry by entry *)

(** The two entries one pass of the inner loop appends. *)
Lemma map_step_appends (serpentine : bool) (cb : orientation_fn)
  (width height n_addr_lines i j : Z) (result : matrix_map) :
  map_step serpentine cb width height n_addr_lines i j result
  = result
    ++ [ cb (to_int width) (to_int height)
            (fst (fst (pixel_coords serpentine width n_addr_lines i j)))
            (snd (fst (pixel_coords serpentine width n_addr_lines i j)));
         cb (to_int width) (to_int height)
            (fst (fst (pixel_coords serpentine width n_addr_lines i j)))
            (snd (pixel_coords serpentine width n_addr_lines i j)) ].
Proof.
  unfold map_step, push_back.
  destruct (pixel_coords serpentine width n_addr_lines i j) as [[x y0] y1].
  cbn [fst snd]. now rewrite <- app_assoc.
Qed.

(** A returned map has two entries per row-select state and column
    position, in the order of the loops. *)
Lemma make_matrixmap_entries (width height n_addr_lines : Z)
  (serpentine : bool) (cb : orientation_fn) (m : matrix_map) :
  make_matrixmap width height n_addr_lines serpentine cb = Returns m ->
  let across := pixels_across_of width height n_addr_lines in
  let half := half_panel_height n_addr_lines in
  Z.of_nat (List.length m) = half * (across * 2)
  /\ forall i j x y0 y1,
       0 <= i < half -> 0 <= j < across ->
       pixel_coords serpentine width n_addr_lines i j = (x, y0, y1) ->
       nth_error m (Z.to_nat (2 * (i * across + j)))
       = Some (cb (to_int width) (to_int height) x y0)
       /\ nth_error m (Z.to_nat (2 * (i * across + j) + 1))
          = Some (cb (to_int width) (to_int height) x y1).
Proof.
  unfold make_matrixmap.
  destruct (panel_height n_addr_lines =? 0); [discriminate |].
  destruct (negb (height mod panel_height n_addr_lines =? 0)); [discriminate |].
  cbv zeta.
  destruct (vector_max_size <? size_mul width height); [discriminate |].
  destruct (vector_max_size <? _); [discriminate |].
  intros Hret. injection Hret as <-. cbv zeta.
  set (across := pixels_across_of width height n_addr_lines).
  set (half := half_panel_height n_addr_lines).
  set (pair := fun i j =>
         [ cb (to_int width) (to_int height)
              (fst (fst (pixel_coords serpentine width n_addr_lines i j)))
              (snd (fst (pixel_coords serpentine width n_addr_lines i j)));
           cb (to_int width) (to_int height)
              (fst (fst (pixel_coords serpentine width n_addr_lines i j)))
              (snd (pixel_coords serpentine width n_addr_lines i j)) ]).
  set (row := fun i => flat_map (pair i) (upto across)).
  assert (Hrow : forall i, List.length (row i) = (Z.to_nat across * 2)%nat).
  { intros i. unfold row. now apply length_flat_map_upto. }
  rewrite (for_range_append half _ row).
  2: { intros i acc. unfold row.
       apply for_range_append. intros j acc'. apply map_step_appends. }
  cbn [app]. split.
  - rewrite (length_flat_map_upto row (Z.to_nat across * 2)) by (intros; apply Hrow).
    unfold across, pixels_across_of, size_mul, half, half_panel_height.
    pose proof (to_size_range (width * v_panels height n_addr_lines)) as Ha.
    pose proof (to_size_range (shl_uint32 1 n_addr_lines)) as Hh.
    unfold is_size in *. nia.
  - intros i j x y0 y1 Hi Hj Hxy.
    assert (Hidx0 : Z.to_nat (2 * (i * across + j))
                    = (Z.to_nat i * (Z.to_nat across * 2)
                       + (Z.to_nat j * 2 + 0))%nat) by nia.
    assert (Hidx1 : Z.to_nat (2 * (i * across + j) + 1)
                    = (Z.to_nat i * (Z.to_nat across * 2)
                       + (Z.to_nat j * 2 + 1))%nat) by nia.
    rewrite Hidx0, Hidx1.
    rewrite !(nth_error_flat_map_upto row (Z.to_nat across * 2) half i)
      by (try lia; intros; apply Hrow).
    unfold row.
    rewrite !(nth_error_flat_map_upto (pair i) 2 across j) by (try lia; reflexivity).
    unfold pair. rewrite Hxy. cbn. split; reflexivity.
Qed.

(** ** Panel heights *)

Lemma panel_height_congr (n_addr_lines : Z) :
  0 <= n_addr_lines ->
  (two32 | panel_height n_addr_lines - 2 * 2 ^ n_addr_lines).
Proof.
  intros Ha. unfold panel_height, shl_int.
  rewrite Z.shiftl_mul_pow2 by assumption. congr32.
Qed.

Lemma half_panel_height_congr (n_addr_lines : Z) :
  0 <= n_addr_lines ->
  (two32 | half_panel_height n_addr_lines - 2 ^ n_addr_lines).
Proof.
  intros Ha. unfold half_panel_height, shl_uint32.
  rewrite Z.shiftl_mul_pow2, Z.mul_1_l by assumption. congr32.
Qed.

(** Up to 29 address lines the panel heights are the powers of two
    the specification names. *)
Lemma panel_height_exact (n_addr_lines : Z) :
  0 <= n_addr_lines <= 29 -> panel_height n_addr_lines = 2 * 2 ^ n_addr_lines.
Proof.
  intros Ha. pose proof (pow2_pos n_addr_lines ltac:(lia)) as Hpos.
  pose proof (pow2_le_mono n_addr_lines 29 ltac:(lia)) as Hle.
  change (2 ^ 29) with 536870912 in Hle.
  unfold panel_height.
  rewrite shl_int_exact by (unfold is_int, two31; lia).
  apply to_size_small. unfold is_size, two64. lia.
Qed.

Lemma half_panel_height_exact (n_addr_lines : Z) :
  0 <= n_addr_lines <= 29 -> half_panel_height n_addr_lines = 2 ^ n_addr_lines.
Proof.
  intros Ha. pose proof (pow2_pos n_addr_lines ltac:(lia)) as Hpos.
  pose proof (pow2_le_mono n_addr_lines 29 ltac:(lia)) as Hle.
  change (2 ^ 29) with 536870912 in Hle.
  unfold half_panel_height, shl_uint32.
  rewrite Z.shiftl_mul_pow2, Z.mul_1_l by lia.
  rewrite to_uint32_small by (unfold is_uint32, two32; lia).
  apply to_size_small. unfold is_size, two64. lia.
Qed.

(** With 30 address lines the [int] shift gives -2^31, which becomes
    2^64 - 2^31 as a [size_t]; from 31 address lines on it gives 0. *)
Lemma panel_height_large (n_addr_lines : Z) :
  30 <= n_addr_lines ->
  panel_height n_addr_lines = two64 - two31 \/ panel_height n_addr_lines = 0.
Proof.
  intros Ha. destruct (Z.eq_dec n_addr_lines 30) as [-> | Hne].
  - left. vm_compute. reflexivity.
  - right. unfold panel_height, shl_int.
    rewrite Z.shiftl_mul_pow2 by lia.
    rewrite (to_int_congr _ 0); [reflexivity |].
    exists (2 ^ (n_addr_lines - 31)). rewrite Z.sub_0_r.
    change two32 with (2 ^ 32). rewrite <- Z.pow_add_r by lia.
    replace (n_addr_lines - 31 + 32) with (n_addr_lines + 1) by lia.
    rewrite pow2_succ by lia. reflexivity.
Qed.

(** ** Coordinates *)

(** The parity test on the [int] panel number is the parity of the
    quotient [j / width]. *)
Lemma panel_parity (q : Z) : (int_rem (to_int q) 2 =? 0) = Z.even q.
Proof.
  unfold int_rem.
  destruct (to_int_divide q) as [c Hc].
  assert (Hparity : Z.even (to_int q) = Z.even q).
  { replace (to_int q) with (q + 2 * (c * 2147483648))
      by (unfold two32 in Hc; lia).
    now rewrite Z.even_add_mul_2. }
  rewrite <- Hparity.
  destruct (Z.eqb_spec (Z.rem (to_int q) 2) 0) as [Hrem | Hrem].
  - symmetry. apply Z.even_spec. apply Z.rem_divide in Hrem; [| lia].
    destruct Hrem as [d ->]. exists d. ring.
  - symmetry. apply not_true_is_false. intros Heven. apply Hrem.
    apply Z.rem_divide; [lia |]. apply Z.even_spec in Heven.
    destruct Heven as [d ->]. exists d. ring.
Qed.

(** The [int] variables [x], [y0], [y1] of the loop body hold the
    coordinates of section 4.2, reduced to [int]. *)
Lemma pixel_coords_wrap (serpentine : bool) (width n_addr_lines i j : Z) :
  0 <= n_addr_lines ->
  pixel_coords serpentine width n_addr_lines i j
  = as_int_coords
      (if serpentine then spec_serpentine_coords width n_addr_lines i j
       else spec_plain_coords width n_addr_lines i j).
Proof.
  intros Ha.
  pose proof (panel_height_congr n_addr_lines Ha) as Hph.
  pose proof (half_panel_height_congr n_addr_lines Ha) as Hhalf.
  assert (Hplain :
    (to_int (j mod width),
     to_int (size_add (size_mul (to_size (to_int (j / width)))
                                (panel_height n_addr_lines)) i),
     to_int (size_add (size_add (size_mul (to_size (to_int (j / width)))
                                          (panel_height n_addr_lines)) i)
                      (half_panel_height n_addr_lines)))
    = as_int_coords (spec_plain_coords width n_addr_lines i j)).
  { unfold as_int_coords, spec_plain_coords, size_add, size_mul.
    f_equal; [f_equal |]; apply to_int_congr; congr32. }
  unfold pixel_coords. rewrite panel_parity.
  destruct serpentine; cbn [andb]; [| exact Hplain].
  unfold spec_serpentine_coords. rewrite <- Z.negb_even.
  destruct (Z.even (j / width)); cbn [negb]; [exact Hplain |].
  unfold as_int_coords, size_sub, size_mul, int_add.
  f_equal; [f_equal |]; apply to_int_congr; [congr32 | congr32 |].
  replace ((j / width + 1) * (2 * 2 ^ n_addr_lines) - i - 1 - 2 ^ n_addr_lines)
    with ((j / width + 1) * (2 * 2 ^ n_addr_lines) - i - 2 ^ n_addr_lines - 1)
    by ring.
  congr32.
Qed.

(** ** Outcome of the builder *)

(** C7 (as stated, for every number of address lines): with 30 address
    lines the computed panel height is 2^64 - 2^31 instead of 2^31, so
    a canvas of height 2^31 is rejected although 2^31 divides it. *)
Lemma matrixmap_outcome_fails_at_30_address_lines :
  ~ matrixmap_outcome_spec 1 two31 30 false orientation_normal.
Proof.
  unfold matrixmap_outcome_spec. cbv zeta. intros [[Hthrows _] _].
  assert (Hrun : make_matrixmap 1 two31 30 false orientation_normal
                 = Throws "Overall height does not evenly divide calculated panel height")
    by (vm_compute; reflexivity).
  apply Hthrows; [eexists; exact Hrun |].
  vm_compute. reflexivity.
Qed.

(** A canvas of at most [max_size()] pixels whose height the panel
    height divides passes [reserve] and every [push_back]. *)
Lemma make_matrixmap_fits (width height n_addr_lines : Z) :
  0 <= n_addr_lines <= 29 -> 0 <= width -> 0 <= height ->
  width * height <= vector_max_size ->
  height mod (2 * 2 ^ n_addr_lines) = 0 ->
  (vector_max_size <? size_mul width height) = false
  /\ (vector_max_size
      <? 2 * (half_panel_height n_addr_lines
              * pixels_across_of width height n_addr_lines)) = false.
Proof.
  intros Ha Hw Hh Hfit Hdiv.
  pose proof (pow2_pos n_addr_lines ltac:(lia)) as Hpos.
  assert (Hmax : vector_max_size < two64) by reflexivity.
  apply Z.mod_divide in Hdiv; [| lia]. destruct Hdiv as [stacks Hstacks].
  assert (Hquot : height / (2 * 2 ^ n_addr_lines) = stacks)
    by (rewrite Hstacks; apply Z.div_mul; lia).
  assert (Hs : 0 <= stacks) by nia.
  unfold pixels_across_of, v_panels, size_mul.
  rewrite panel_height_exact, half_panel_height_exact, Hquot by assumption.
  rewrite (to_size_small (width * height)) by (unfold is_size; nia).
  rewrite (to_size_small (width * stacks)) by (unfold is_size; nia).
  split; apply Z.ltb_ge; [exact Hfit | nia].
Qed.

(** Up to 29 address lines and [max_size()] pixels the builder tests
    divisibility by the panel height of the specification and, when
    it holds, fills [2^n_addr_lines] rows of [pixelsAcross] pairs. *)
Lemma make_matrixmap_throws_iff (width height n_addr_lines : Z)
  (serpentine : bool) (cb : orientation_fn) :
  0 <= n_addr_lines <= 29 -> 0 <= width -> 0 <= height ->
  width * height <= vector_max_size ->
  (exists what,
     make_matrixmap width height n_addr_lines serpentine cb = Throws what)
  <-> height mod (2 * 2 ^ n_addr_lines) <> 0.
Proof.
  intros Ha Hw Hh Hfit. pose proof (pow2_pos n_addr_lines ltac:(lia)) as Hpos.
  pose proof (make_matrixmap_fits width height n_addr_lines Ha Hw Hh Hfit)
    as Hguards.
  unfold make_matrixmap. cbv zeta. rewrite panel_height_exact by assumption.
  destruct (Z.eqb_spec (2 * 2 ^ n_addr_lines) 0) as [Hzero | _]; [lia |].
  destruct (Z.eqb_spec (height mod (2 * 2 ^ n_addr_lines)) 0) as [Hdiv | Hdiv];
    cbn [negb].
  - destruct (Hguards Hdiv) as [-> ->].
    split; [intros [what H]; discriminate H | intros H; now elim H].
  - split; [intros _; exact Hdiv | intros _; eexists; reflexivity].
Qed.

Lemma make_matrixmap_returns (width height n_addr_lines : Z)
  (serpentine : bool) (cb : orientation_fn) :
  0 <= n_addr_lines <= 29 -> 0 <= width -> 0 <= height ->
  width * height <= vector_max_size ->
  height mod (2 * 2 ^ n_addr_lines) = 0 ->
  exists m,
    make_matrixmap width height n_addr_lines serpentine cb = Returns m
    /\ Z.of_nat (List.length m)
       = size_mul width (height / (2 * 2 ^ n_addr_lines))
         * 2 * 2 ^ n_addr_lines.
Proof.
  intros Ha Hw Hh Hfit Hdiv.
  pose proof (pow2_pos n_addr_lines ltac:(lia)) as Hpos.
  destruct (make_matrixmap_fits width height n_addr_lines Ha Hw Hh Hfit Hdiv)
    as [Hreserve Hpush].
  pose proof (make_matrixmap_entries width height n_addr_lines serpentine cb)
    as Hentries.
  assert (Hrun : exists m,
            make_matrixmap width height n_addr_lines serpentine cb
            = Returns m).
  { unfold make_matrixmap. cbv zeta.
    rewrite Hreserve, Hpush, panel_height_exact by assumption.
    destruct (Z.eqb_spec (2 * 2 ^ n_addr_lines) 0) as [Hzero | _]; [lia |].
    rewrite Hdiv. cbn [Z.eqb negb]. eexists. reflexivity. }
  destruct Hrun as [m Hm]. exists m. split; [exact Hm |].
  destruct (Hentries m Hm) as [Hlen _]. cbv zeta in Hlen.
  rewrite Hlen. unfold pixels_across_of, v_panels.
  rewrite half_panel_height_exact, panel_height_exact by assumption. ring.
Qed.

(** C7 (as stated, for every width): a canvas of 2^61 by 2 pixels has
    a height that the panel height 2 divides, but [reserve] is asked
    for 2^62 entries and throws [std::length_error]. *)
Lemma matrixmap_outcome_fails_beyond_max_size :
  ~ matrixmap_outcome_spec 2305843009213693952 2 0 false orientation_normal.
Proof.
  unfold matrixmap_outcome_spec. cbv zeta. intros [[Hthrows _] _].
  assert (Hrun : make_matrixmap 2305843009213693952 2 0 false
                   orientation_normal
                 = Throws "vector::reserve")
    by (vm_compute; reflexivity).
  apply Hthrows; [eexists; exact Hrun |].
  vm_compute. reflexivity.
Qed.

(** C7 (amended): for at most 29 address lines and a canvas of at most
    [max_size()] pixels, [make_matrixmap] throws exactly when
    [height mod (2 * 2^n_addr_lines)] is not zero; for every such
    width and height that the panel height divides it returns a map of
    [pixelsAcross * 2 * 2^n_addr_lines] entries, where [pixelsAcross]
    is the [size_t] product [width * (height / (2 * 2^n_addr_lines))]. *)
Theorem make_matrixmap_outcome (width height n_addr_lines : Z)
  (serpentine : bool) (cb : orientation_fn) :
  0 <= n_addr_lines <= 29 -> 0 <= width -> 0 <= height ->
  width * height <= vector_max_size ->
  matrixmap_outcome_spec width height n_addr_lines serpentine cb.
Proof.
  intros Ha Hw Hh Hfit. unfold matrixmap_outcome_spec. cbv zeta. split.
  - now apply make_matrixmap_throws_iff.
  - now apply make_matrixmap_returns.
Qed.

Lemma make_matrixmap_outcome_witness :
  0 <= 5 <= 29 /\ 0 <= 192 /\ 0 <= 64 /\ 192 * 64 <= vector_max_size
  /\ matrixmap_outcome_spec 192 64 5 false orientation_normal.
Proof.
  assert (Ha : 0 <= 5 <= 29) by lia.
  assert (Hw : 0 <= 192) by lia.
  assert (Hh : 0 <= 64) by lia.
  assert (Hfit : 192 * 64 <= vector_max_size) by (unfold vector_max_size; lia).
  split; [exact Ha | split; [exact Hw | split; [exact Hh | split;
    [exact Hfit |]]]].
  exact (make_matrixmap_outcome 192 64 5 false orientation_normal
           Ha Hw Hh Hfit).
Defined.

(** ** The single stack without serpentine wiring *)

(** C3 (as stated): for width 2 and no address line the map is
    [0; 2; 1; 3], not the identity sequence [0; 1; 2; 3]. *)
Lemma single_stack_map_is_not_identity : ~ row_major_identity_spec 2 0.
Proof.
  unfold row_major_identity_spec. cbv zeta. intros Hid.
  assert (Hrun : make_matrixmap 2 (2 * 2 ^ 0) 0 false orientation_normal
                 = Returns [0; 2; 1; 3]) by (vm_compute; reflexivity).
  rewrite Hrun in Hid. vm_compute in Hid. discriminate Hid.
Qed.

(** C3 (amended): for at most 29 address lines, a single stack of
    height [2 * 2^n_addr_lines] whose offsets fit in [int], no
    serpentine wiring and the normal orientation, [make_matrixmap]
    returns the [width * height] row-major offsets in row pairs:
    for row-select state [i] and column [j] the entries at positions
    [2 (i width + j)] and [2 (i width + j) + 1] are the row-major
    offsets of the pixels [(j, i)] and [(j, i + 2^n_addr_lines)], and
    every offset below [width * height] occurs in the map. *)
Theorem make_matrixmap_single_stack (width n_addr_lines : Z) :
  0 <= n_addr_lines <= 29 -> 0 <= width ->
  width * (2 * 2 ^ n_addr_lines) <= two31 ->
  exists m,
    make_matrixmap width (2 * 2 ^ n_addr_lines) n_addr_lines false
      orientation_normal = Returns m
    /\ Z.of_nat (List.length m) = width * (2 * 2 ^ n_addr_lines)
    /\ (forall i j,
          0 <= i < 2 ^ n_addr_lines -> 0 <= j < width ->
          nth_error m (Z.to_nat (2 * (i * width + j))) = Some (j + width * i)
          /\ nth_error m (Z.to_nat (2 * (i * width + j) + 1))
             = Some (j + width * (i + 2 ^ n_addr_lines)))
    /\ (forall k, 0 <= k < width * (2 * 2 ^ n_addr_lines) -> In k m).
Proof.
  intros Ha Hw Hfit.
  pose proof (pow2_pos n_addr_lines ltac:(lia)) as Hpos.
  set (height := 2 * 2 ^ n_addr_lines) in *.
  destruct (make_matrixmap_returns width height n_addr_lines false
              orientation_normal Ha Hw ltac:(unfold height; lia)
              ltac:(unfold vector_max_size, two31 in *; lia)
              (Z_mod_same_full height))
    as (m & Hm & Hlen).
  fold height in Hlen.
  assert (Hacross : pixels_across_of width height n_addr_lines = width).
  { unfold pixels_across_of, v_panels, size_mul.
    rewrite panel_height_exact by assumption. fold height.
    rewrite Z.div_same, Z.mul_1_r by (unfold height; lia).
    apply to_size_small. unfold is_size, two64, two31, height in *. nia. }
  assert (Hpairs : forall i j,
             0 <= i < 2 ^ n_addr_lines -> 0 <= j < width ->
             nth_error m (Z.to_nat (2 * (i * width + j))) = Some (j + width * i)
             /\ nth_error m (Z.to_nat (2 * (i * width + j) + 1))
                = Some (j + width * (i + 2 ^ n_addr_lines))).
  2: { exists m. split; [exact Hm | split; [| split; [exact Hpairs |]]].
       - rewrite Hlen. unfold size_mul.
         rewrite Z.div_same, Z.mul_1_r by (unfold height; lia).
         rewrite to_size_small
           by (unfold is_size, two64, two31, height in *; nia).
         unfold height. ring.
       - intros k Hk.
         assert (Hwpos : 0 < width) by nia.
         pose proof (Z.div_mod k width ltac:(lia)) as Hsplit.
         pose proof (Z.mod_pos_bound k width Hwpos) as Hcol.
         assert (Hrow : 0 <= k / width < height).
         { split; [apply Z.div_pos; lia |].
           apply Z.div_lt_upper_bound; lia. }
         destruct (Z.lt_ge_cases (k / width) (2 ^ n_addr_lines)) as [Hup | Hlow].
         + destruct (Hpairs (k / width) (k mod width) ltac:(lia) Hcol)
             as [Hfound _].
           apply nth_error_In in Hfound.
           now replace (k mod width + width * (k / width)) with k in Hfound by lia.
         + destruct (Hpairs (k / width - 2 ^ n_addr_lines) (k mod width)
                       ltac:(unfold height in *; lia) Hcol) as [_ Hfound].
           apply nth_error_In in Hfound.
           now replace (k mod width
                        + width * (k / width - 2 ^ n_addr_lines
                                   + 2 ^ n_addr_lines))
             with k in Hfound by nia. }
  { intros i j Hi Hj.
    destruct (make_matrixmap_entries _ _ _ _ _ _ Hm) as [_ Hentries].
    cbv zeta in Hentries. rewrite Hacross in Hentries.
    rewrite half_panel_height_exact in Hentries by assumption.
    assert (Hcoords : pixel_coords false width n_addr_lines i j
                      = (j, i, i + 2 ^ n_addr_lines)).
    { rewrite pixel_coords_wrap by lia.
      unfold as_int_coords, spec_plain_coords.
      rewrite Z.div_small, Z.mod_small by lia. rewrite Z.mul_0_l, Z.add_0_l.
      rewrite !to_int_small
        by (unfold is_int, two31, height in *; nia).
      reflexivity. }
    destruct (Hentries i j _ _ _ Hi Hj Hcoords) as [Htop Hbottom].
    rewrite Htop, Hbottom, !orientation_normal_wrap.
    rewrite (to_int_small width) by (unfold is_int, two31, height in *; nia).
    rewrite !to_int_small by (unfold is_int, two31, height in *; nia).
    split; reflexivity. }
Qed.

Lemma make_matrixmap_single_stack_witness :
  0 <= 1 <= 29 /\ 0 <= 3 /\ 3 * (2 * 2 ^ 1) <= two31
  /\ (exists m,
        make_matrixmap 3 (2 * 2 ^ 1) 1 false orientation_normal = Returns m
        /\ Z.of_nat (List.length m) = 3 * (2 * 2 ^ 1)
        /\ (forall i j,
             0 <= i < 2 ^ 1 -> 0 <= j < 3 ->
             nth_error m (Z.to_nat (2 * (i * 3 + j))) = Some (j + 3 * i)
             /\ nth_error m (Z.to_nat (2 * (i * 3 + j) + 1))
                = Some (j + 3 * (i + 2 ^ 1)))
        /\ (forall k, 0 <= k < 3 * (2 * 2 ^ 1) -> In k m))
  /\ make_matrixmap 3 (2 * 2 ^ 1) 1 false orientation_normal
     = Returns [0; 6; 1; 7; 2; 8; 3; 9; 4; 10; 5; 11].
Proof.
  assert (Ha : 0 <= 1 <= 29) by lia.
  assert (Hw : 0 <= 3) by lia.
  assert (Hfit : 3 * (2 * 2 ^ 1) <= two31) by (unfold two31; cbn; lia).
  split; [exact Ha | split; [exact Hw | split; [exact Hfit | split]]].
  - exact (make_matrixmap_single_stack 3 1 Ha Hw Hfit).
  - vm_compute. reflexivity.
Defined.

(** ** Serpentine wiring *)

(** A map with at least one column position over a canvas whose height
    is an [int] was built for at most 29 address lines. *)
Lemma returned_map_address_lines (width height n_addr_lines : Z)
  (serpentine : bool) (cb : orientation_fn) (m : matrix_map) :
  0 <= n_addr_lines -> 0 <= height <= INT_MAX ->
  make_matrixmap width height n_addr_lines serpentine cb = Returns m ->
  0 < pixels_across_of width height n_addr_lines ->
  n_addr_lines <= 29 /\ height mod (2 * 2 ^ n_addr_lines) = 0.
Proof.
  intros Ha Hh Hm Hacross. unfold make_matrixmap in Hm.
  destruct (Z.eqb_spec (panel_height n_addr_lines) 0) as [| Hnz];
    [discriminate Hm |].
  destruct (Z.eqb_spec (height mod panel_height n_addr_lines) 0) as [Hdiv |];
    [| discriminate Hm].
  destruct (Z.le_gt_cases n_addr_lines 29) as [Hle | Hgt].
  - split; [exact Hle |]. now rewrite <- panel_height_exact by lia.
  - exfalso. destruct (panel_height_large n_addr_lines ltac:(lia)) as [Hbig | Hzero];
      [| contradiction].
    unfold pixels_across_of, v_panels, size_mul in Hacross.
    rewrite Hbig, Z.div_small, Z.mul_0_r in Hacross
      by (unfold INT_MAX, two64, two31 in *; lia).
    vm_compute in Hacross. discriminate Hacross.
Qed.

(** C6: in a map built with serpentine wiring, for row-select state
    [i] and column position [j] with [panelIndex = j / width]: the
    [int] variables [x], [y0], [y1] hold, for an even panel index, the
    non-serpentine values [j mod width], [panelIndex * panelHeight + i]
    and [y0 + halfPanelHeight], and for an odd one
    [width - j mod width - 1], [(panelIndex + 1) * panelHeight - i - 1]
    and [y0 - halfPanelHeight]; the two map entries of [(i, j)] are
    the transform at [(x, y0)] and at [(x, y1)], and for an even
    panel index the map built without serpentine wiring has the same
    two entries.  The values are reduced to [int]; for a canvas whose
    width and height are [int]s the reduction changes nothing, the
    loop bounds are [2^n_addr_lines] and
    [width * (height / panelHeight)], and the coordinates lie on the
    canvas. *)
Theorem serpentine_coordinates (width height n_addr_lines : Z)
  (cb : orientation_fn) (m : matrix_map) (i j : Z) :
  0 <= n_addr_lines ->
  make_matrixmap width height n_addr_lines true cb = Returns m ->
  0 <= i < half_panel_height n_addr_lines ->
  0 <= j < pixels_across_of width height n_addr_lines ->
  let panelIndex := j / width in
  let halfPanelHeight := 2 ^ n_addr_lines in
  let panelHeight := 2 * halfPanelHeight in
  let x := if Z.even panelIndex then j mod width
           else width - j mod width - 1 in
  let y0 := if Z.even panelIndex then panelIndex * panelHeight + i
            else (panelIndex + 1) * panelHeight - i - 1 in
  let y1 := if Z.even panelIndex then y0 + halfPanelHeight
            else y0 - halfPanelHeight in
  pixel_coords true width n_addr_lines i j = (to_int x, to_int y0, to_int y1)
  /\ (Z.even panelIndex = true ->
      pixel_coords true width n_addr_lines i j
      = pixel_coords false width n_addr_lines i j)
  /\ nth_error m
       (Z.to_nat (2 * (i * pixels_across_of width height n_addr_lines + j)))
     = Some (cb (to_int width) (to_int height) (to_int x) (to_int y0))
  /\ nth_error m
       (Z.to_nat (2 * (i * pixels_across_of width height n_addr_lines + j) + 1))
     = Some (cb (to_int width) (to_int height) (to_int x) (to_int y1))
  /\ (Z.even panelIndex = true ->
      forall m',
        make_matrixmap width height n_addr_lines false cb = Returns m' ->
        nth_error m'
          (Z.to_nat (2 * (i * pixels_across_of width height n_addr_lines + j)))
        = Some (cb (to_int width) (to_int height) (to_int x) (to_int y0))
        /\ nth_error m'
             (Z.to_nat
                (2 * (i * pixels_across_of width height n_addr_lines + j) + 1))
           = Some (cb (to_int width) (to_int height) (to_int x) (to_int y1)))
  /\ (0 <= width <= INT_MAX -> 0 <= height <= INT_MAX ->
      half_panel_height n_addr_lines = halfPanelHeight
      /\ pixels_across_of width height n_addr_lines
         = width * (height / panelHeight)
      /\ pixel_coords true width n_addr_lines i j = (x, y0, y1)
      /\ 0 <= x < width /\ 0 <= y0 < height /\ 0 <= y1 < height).
Proof.
  intros Ha Hm Hi Hj. cbv zeta.
  assert (Hcoords :
    pixel_coords true width n_addr_lines i j
    = (to_int (if Z.even (j / width) then j mod width
               else width - j mod width - 1),
       to_int (if Z.even (j / width)
               then j / width * (2 * 2 ^ n_addr_lines) + i
               else (j / width + 1) * (2 * 2 ^ n_addr_lines) - i - 1),
       to_int (if Z.even (j / width)
               then (if Z.even (j / width)
                     then j / width * (2 * 2 ^ n_addr_lines) + i
                     else (j / width + 1) * (2 * 2 ^ n_addr_lines) - i - 1)
                    + 2 ^ n_addr_lines
               else (if Z.even (j / width)
                     then j / width * (2 * 2 ^ n_addr_lines) + i
                     else (j / width + 1) * (2 * 2 ^ n_addr_lines) - i - 1)
                    - 2 ^ n_addr_lines))).
  { rewrite pixel_coords_wrap by assumption.
    unfold as_int_coords, spec_serpentine_coords, spec_plain_coords.
    rewrite <- Z.negb_even.
    destruct (Z.even (j / width)); reflexivity. }
  destruct (make_matrixmap_entries _ _ _ _ _ _ Hm) as [_ Hentries].
  cbv zeta in Hentries.
  destruct (Hentries i j _ _ _ Hi Hj Hcoords) as [Hfirst Hsecond].
  assert (Hsame : Z.even (j / width) = true ->
                  pixel_coords true width n_addr_lines i j
                  = pixel_coords false width n_addr_lines i j).
  { intros Heven. unfold pixel_coords. rewrite panel_parity, Heven.
    reflexivity. }
  split; [exact Hcoords | split; [exact Hsame | split; [exact Hfirst | split;
    [exact Hsecond | split]]]].
  - intros Heven m' Hm'.
    destruct (make_matrixmap_entries _ _ _ _ _ _ Hm') as [_ Hentries'].
    cbv zeta in Hentries'. rewrite (Hsame Heven) in Hcoords.
    exact (Hentries' i j _ _ _ Hi Hj Hcoords).
  - intros Hw Hh.
    destruct (returned_map_address_lines _ _ _ _ _ _ Ha Hh Hm ltac:(lia))
      as [Ha29 Hdiv].
    assert (Hhalf : half_panel_height n_addr_lines = 2 ^ n_addr_lines)
      by (apply half_panel_height_exact; lia).
    rewrite Hhalf in Hi.
    unfold pixels_across_of, v_panels, size_mul, to_size in *.
    rewrite panel_height_exact in * by lia.
    pose proof (pow2_pos n_addr_lines Ha) as Hpos.
    set (half := 2 ^ n_addr_lines) in *.
    set (stacks := height / (2 * half)) in *.
    assert (Hheight : height = 2 * half * stacks).
    { unfold stacks. apply Z.div_exact; [lia | exact Hdiv]. }
    assert (Hstacks : 0 <= stacks) by (unfold stacks; apply Z.div_pos; lia).
    assert (Hmod : (width * stacks) mod two64 <= width * stacks)
      by (apply Z.mod_le; [nia | reflexivity]).
    assert (Hwpos : 0 < width) by nia.
    pose proof (Z.mod_pos_bound j width Hwpos) as Hcol.
    assert (Hpanel : 0 <= j / width < stacks).
    { split; [apply Z.div_pos; lia |].
      apply Z.div_lt_upper_bound; lia. }
    set (panel := j / width) in *. set (col := j mod width) in *.
    assert (Hx : 0 <= (if Z.even panel then col else width - col - 1) < width)
      by (destruct (Z.even panel); lia).
    assert (Hy0 : 0 <= (if Z.even panel then panel * (2 * half) + i
                        else (panel + 1) * (2 * half) - i - 1) < height)
      by (destruct (Z.even panel); nia).
    assert (Hy1 : 0 <= (if Z.even panel
                        then (if Z.even panel then panel * (2 * half) + i
                              else (panel + 1) * (2 * half) - i - 1) + half
                        else (if Z.even panel then panel * (2 * half) + i
                              else (panel + 1) * (2 * half) - i - 1) - half)
                       < height)
      by (destruct (Z.even panel); nia).
    assert (Hfit : (width * stacks) mod two64 = width * stacks).
    { apply Z.mod_small. unfold INT_MAX, two64 in *. nia. }
    rewrite Hcoords.
    rewrite !to_int_small by (unfold is_int, INT_MAX, two31 in *; lia).
    repeat split; lia.
Qed.

Lemma serpentine_coordinates_witness :
  0 <= 1
  /\ make_matrixmap 3 8 1 true orientation_normal
     = Returns [0; 6; 1; 7; 2; 8; 23; 17; 22; 16; 21; 15;
                3; 9; 4; 10; 5; 11; 20; 14; 19; 13; 18; 12]
  /\ 0 <= 1 < half_panel_height 1
  /\ 0 <= 4 < pixels_across_of 3 8 1
  /\ pixel_coords true 3 1 1 4 = (1, 6, 4)
  /\ nth_error [0; 6; 1; 7; 2; 8; 23; 17; 22; 16; 21; 15;
                3; 9; 4; 10; 5; 11; 20; 14; 19; 13; 18; 12] 20
     = Some (orientation_normal 3 8 1 6).
Proof.
  assert (Ha : 0 <= 1) by lia.
  assert (Hm : make_matrixmap 3 8 1 true orientation_normal
               = Returns [0; 6; 1; 7; 2; 8; 23; 17; 22; 16; 21; 15;
                          3; 9; 4; 10; 5; 11; 20; 14; 19; 13; 18; 12])
    by (vm_compute; reflexivity).
  assert (Hi : 0 <= 1 < half_panel_height 1) by (vm_compute; split; congruence).
  assert (Hj : 0 <= 4 < pixels_across_of 3 8 1) by (vm_compute; split; congruence).
  split; [exact Ha | split; [exact Hm | split; [exact Hi | split; [exact Hj |]]]].
  destruct (serpentine_coordinates 3 8 1 orientation_normal _ 1 4 Ha Hm Hi Hj)
    as (Hcoords & _ & Hfirst & _ & _ & _).
  split; [exact Hcoords | exact Hfirst].
Defined.

(** * Further properties *)

(** ** Orientation transforms on a canvas whose offsets are [int]s *)

Lemma orientation_normal_exact (width height x y : Z) :
  0 <= x < width -> 0 <= y < height -> width * height <= INT_MAX ->
  orientation_normal width height x y = x + width * y.
Proof.
  intros Hx Hy Hfit. rewrite orientation_normal_wrap.
  apply to_int_small. unfold is_int, INT_MAX, two31 in *. nia.
Qed.

Lemma orientation_r180_wrap (width height x y : Z) :
  orientation_r180 width height x y
  = to_int ((width - x - 1) + width * (height - y - 1)).
Proof.
  unfold orientation_r180. cbv zeta. rewrite orientation_normal_wrap.
  unfold int_sub. apply to_int_congr. congr32.
Qed.

Lemma orientation_ccw_wrap (width height x y : Z) :
  orientation_ccw width height x y = to_int (y + height * (width - x - 1)).
Proof.
  unfold orientation_ccw. rewrite orientation_normal_wrap.
  unfold int_sub. apply to_int_congr. congr32.
Qed.

Lemma orientation_r180_exact (width height x y : Z) :
  0 <= x < width -> 0 <= y < height -> width * height <= INT_MAX ->
  orientation_r180 width height x y = width * height - 1 - (x + width * y).
Proof.
  intros Hx Hy Hfit. rewrite orientation_r180_wrap.
  rewrite to_int_small; [ring |].
  unfold is_int, INT_MAX, two31 in *. nia.
Qed.

Lemma orientation_ccw_exact (width height x y : Z) :
  0 <= x < width -> 0 <= y < height -> width * height <= INT_MAX ->
  orientation_ccw width height x y = y + height * (width - 1 - x).
Proof.
  intros Hx Hy Hfit. rewrite orientation_ccw_wrap.
  rewrite to_int_small; [f_equal; ring |].
  unfold is_int, INT_MAX, two31 in *. nia.
Qed.

Lemma orientation_cw_exact (width height x y : Z) :
  0 <= x < width -> 0 <= y < height -> width * height <= INT_MAX ->
  orientation_cw width height x y = y + height * x - (height + 1).
Proof.
  intros Hx Hy Hfit. rewrite orientation_cw_wrap.
  rewrite to_int_small; [ring |].
  unfold is_int, INT_MAX, two31 in *. nia.
Qed.

(** A row-major offset [c + n * r] with [0 <= c < n] splits back into
    its column and its row. *)
Lemma offset_split (n c r : Z) :
  0 <= c < n -> (c + n * r) mod n = c /\ (c + n * r) / n = r.
Proof.
  intros Hc. rewrite (Z.mul_comm n r).
  rewrite Z.mod_add, Z.div_add by lia.
  rewrite Z.mod_small, Z.div_small by lia. lia.
Qed.

(** X1: on a canvas whose offsets fit in [int] the normal orientation
    sends an in-bounds pixel to an offset inside [0, width * height)
    from which the pixel is recovered as (offset mod width,
    offset / width); distinct pixels get distinct offsets. *)
Theorem orientation_normal_round_trip (width height x y : Z) :
  0 <= x < width -> 0 <= y < height -> width * height <= INT_MAX ->
  let offset := orientation_normal width height x y in
  0 <= offset < width * height
  /\ offset mod width = x /\ offset / width = y
  /\ forall x' y',
       0 <= x' < width -> 0 <= y' < height ->
       orientation_normal width height x' y' = offset -> x' = x /\ y' = y.
Proof.
  intros Hx Hy Hfit. cbv zeta.
  rewrite orientation_normal_exact by assumption.
  destruct (offset_split width x y Hx) as [Hmod Hdiv].
  split; [nia | split; [exact Hmod | split; [exact Hdiv |]]].
  intros x' y' Hx' Hy' Heq.
  rewrite orientation_normal_exact in Heq by assumption.
  destruct (offset_split width x' y' Hx') as [Hmod' Hdiv'].
  rewrite Heq in Hmod', Hdiv'. lia.
Qed.

Lemma orientation_normal_round_trip_witness :
  0 <= 5 < 192 /\ 0 <= 3 < 64 /\ 192 * 64 <= INT_MAX
  /\ orientation_normal 192 64 5 3 = 581
  /\ 581 mod 192 = 5 /\ 581 / 192 = 3.
Proof.
  assert (Hx : 0 <= 5 < 192) by lia.
  assert (Hy : 0 <= 3 < 64) by lia.
  assert (Hfit : 192 * 64 <= INT_MAX) by (unfold INT_MAX; lia).
  split; [exact Hx | split; [exact Hy | split; [exact Hfit |]]].
  destruct (orientation_normal_round_trip 192 64 5 3 Hx Hy Hfit)
    as (_ & Hmod & Hdiv & _).
  split; [reflexivity | split; [exact Hmod | exact Hdiv]].
Defined.

(** X2: the rotate-180 orientation reverses the row-major order: an
    in-bounds pixel gets the offset [width * height - 1] minus its
    normal offset, which lies inside [0, width * height), and
    mirroring the pixel once more gives its normal offset back. *)
Theorem orientation_r180_reverses (width height x y : Z) :
  0 <= x < width -> 0 <= y < height -> width * height <= INT_MAX ->
  orientation_r180 width height x y
  = width * height - 1 - orientation_normal width height x y
  /\ 0 <= orientation_r180 width height x y < width * height
  /\ orientation_r180 width height (width - 1 - x) (height - 1 - y)
     = orientation_normal width height x y.
Proof.
  intros Hx Hy Hfit.
  rewrite !orientation_r180_exact, orientation_normal_exact by lia.
  split; [reflexivity | split; [nia | ring]].
Qed.

Lemma orientation_r180_reverses_witness :
  0 <= 0 < 192 /\ 0 <= 0 < 64 /\ 192 * 64 <= INT_MAX
  /\ orientation_r180 192 64 0 0 = 192 * 64 - 1 - orientation_normal 192 64 0 0.
Proof.
  assert (Hx : 0 <= 0 < 192) by lia.
  assert (Hy : 0 <= 0 < 64) by lia.
  assert (Hfit : 192 * 64 <= INT_MAX) by (unfold INT_MAX; lia).
  split; [exact Hx | split; [exact Hy | split; [exact Hfit |]]].
  exact (proj1 (orientation_r180_reverses 192 64 0 0 Hx Hy Hfit)).
Defined.

(** X3: the rotate-CCW orientation addresses the canvas as one of
    width [height]: an in-bounds pixel [(x, y)] gets the offset
    [y + height * (width - 1 - x)], inside [0, width * height), and is
    recovered from it as (width - 1 - offset / height,
    offset mod height). *)
Theorem orientation_ccw_round_trip (width height x y : Z) :
  0 <= x < width -> 0 <= y < height -> width * height <= INT_MAX ->
  let offset := orientation_ccw width height x y in
  offset = orientation_normal height width y (width - 1 - x)
  /\ 0 <= offset < width * height
  /\ offset mod height = y /\ width - 1 - offset / height = x.
Proof.
  intros Hx Hy Hfit. cbv zeta.
  rewrite orientation_ccw_exact by assumption.
  rewrite orientation_normal_exact by lia.
  destruct (offset_split height y (width - 1 - x) Hy) as [Hmod Hdiv].
  split; [reflexivity | split; [nia | split; [exact Hmod | lia]]].
Qed.

Lemma orientation_ccw_round_trip_witness :
  0 <= 5 < 192 /\ 0 <= 3 < 64 /\ 192 * 64 <= INT_MAX
  /\ orientation_ccw 192 64 5 3 = 3 + 64 * 186.
Proof.
  assert (Hx : 0 <= 5 < 192) by lia.
  assert (Hy : 0 <= 3 < 64) by lia.
  assert (Hfit : 192 * 64 <= INT_MAX) by (unfold INT_MAX; lia).
  split; [exact Hx | split; [exact Hy | split; [exact Hfit |]]].
  destruct (orientation_ccw_round_trip 192 64 5 3 Hx Hy Hfit) as (Hoff & _).
  rewrite Hoff. reflexivity.
Defined.

(** X4: the rotate-CW orientation is the transposed offset
    [y + height * x] moved down by [height + 1].  An in-bounds pixel
    gets a valid offset exactly when [x >= 2], or [x = 1] and
    [y >= 1]; no pixel gets one of the last [height + 1] offsets. *)
Theorem orientation_cw_valid_iff (width height x y : Z) :
  0 <= x < width -> 0 <= y < height -> width * height <= INT_MAX ->
  orientation_cw width height x y
  = orientation_normal height width y x - (height + 1)
  /\ (0 <= orientation_cw width height x y < width * height
      <-> 2 <= x \/ (x = 1 /\ 1 <= y))
  /\ orientation_cw width height x y < width * height - (height + 1).
Proof.
  intros Hx Hy Hfit.
  rewrite orientation_cw_exact by assumption.
  rewrite orientation_normal_exact by lia.
  split; [reflexivity | split; [| nia]].
  split; [intros Hvalid; nia | intros [Htwo | [-> Hone]]; nia].
Qed.

Lemma orientation_cw_valid_iff_witness :
  0 <= 1 < 192 /\ 0 <= 0 < 64 /\ 192 * 64 <= INT_MAX
  /\ orientation_cw 192 64 1 0 = -1.
Proof.
  assert (Hx : 0 <= 1 < 192) by lia.
  assert (Hy : 0 <= 0 < 64) by lia.
  assert (Hfit : 192 * 64 <= INT_MAX) by (unfold INT_MAX; lia).
  split; [exact Hx | split; [exact Hy | split; [exact Hfit |]]].
  destruct (orientation_cw_valid_iff 192 64 1 0 Hx Hy Hfit) as (Hoff & _).
  rewrite Hoff. reflexivity.
Defined.

(** ** The custom panel orientation *)

(** The offset computed by [custom_panel_orientation] for a pixel with
    non-negative coordinates: rows 0 to 31 have their 64-pixel blocks
    taken from block [2 - x / 64], all other rows keep their column. *)
Lemma custom_panel_orientation_wrap (width height x y : Z) :
  0 <= x -> 0 <= y -> is_int x -> is_int y ->
  custom_panel_orientation width height x y
  = to_int ((if y <? 32 then 64 * (2 - x / 64) + x mod 64 else x)
            + width * y).
Proof.
  intros Hx Hy Hxi Hyi. unfold custom_panel_orientation, int_div, int_rem.
  rewrite !Z.quot_div_nonneg, !Z.rem_mod_nonneg by lia.
  pose proof (Z.div_mod x 64 ltac:(lia)) as Hxsplit.
  pose proof (Z.div_mod y 32 ltac:(lia)) as Hysplit.
  pose proof (Z.mod_pos_bound x 64 ltac:(lia)) as Hxmod.
  pose proof (Z.mod_pos_bound y 32 ltac:(lia)) as Hymod.
  rewrite (to_int_small (x / 64)), (to_int_small (y / 32))
    by (unfold is_int, two31 in *; lia).
  assert (Hrow : (y / 32 =? 0) = (y <? 32)).
  { destruct (Z.eqb_spec (y / 32) 0), (Z.ltb_spec y 32); try reflexivity; lia. }
  rewrite Hrow. unfold int_add, int_mul, int_sub.
  replace (width * y) with (width * (y / 32 * 32 + y mod 32)) by (f_equal; lia).
  destruct (y <? 32); apply to_int_congr.
  - replace (64 * (2 - x / 64)) with ((2 - x / 64) * 64) by ring. congr32.
  - replace x with (x / 64 * 64 + x mod 64) at 3 by lia. congr32.
Qed.

(** X5: on a canvas at least 192 pixels wide whose offsets fit in
    [int], [custom_panel_orientation] keeps every pixel of the first
    three panel columns on the canvas and in its row: rows 0 to 31
    have the three 64-pixel blocks exchanged left to right, rows from
    32 on are left in place; applying the exchange twice gives the
    pixel back. *)
Theorem custom_panel_orientation_mirrors_top_row (width height x y : Z) :
  0 <= x < 192 -> 0 <= y < height -> 192 <= width ->
  width * height <= INT_MAX ->
  let new_x := if y <? 32 then 64 * (2 - x / 64) + x mod 64 else x in
  custom_panel_orientation width height x y = new_x + width * y
  /\ 0 <= new_x < 192
  /\ 0 <= custom_panel_orientation width height x y < width * height
  /\ (32 <= y ->
      custom_panel_orientation width height x y
      = orientation_normal width height x y)
  /\ custom_panel_orientation width height new_x y = x + width * y.
Proof.
  intros Hx Hy Hw Hfit. cbv zeta.
  pose proof (Z.div_mod x 64 ltac:(lia)) as Hxsplit.
  pose proof (Z.mod_pos_bound x 64 ltac:(lia)) as Hxmod.
  set (new_x := if y <? 32 then 64 * (2 - x / 64) + x mod 64 else x).
  assert (Hnew : 0 <= new_x < 192) by (unfold new_x; destruct (y <? 32); lia).
  assert (Hback : (if y <? 32 then 64 * (2 - new_x / 64) + new_x mod 64
                   else new_x) = x).
  { unfold new_x. destruct (y <? 32); [| reflexivity].
    replace (64 * (2 - x / 64) + x mod 64)
      with (x mod 64 + (2 - x / 64) * 64) by ring.
    rewrite Z.div_add, Z.mod_add by lia.
    rewrite Z.div_small, Z.mod_mod by lia. lia. }
  rewrite !custom_panel_orientation_wrap
    by (unfold is_int, INT_MAX, two31 in *; nia).
  fold new_x. rewrite Hback.
  rewrite !to_int_small by (unfold is_int, INT_MAX, two31 in *; nia).
  split; [reflexivity | split; [exact Hnew | split; [nia | split]]];
    [| reflexivity].
  intros Hlow. rewrite orientation_normal_exact by lia.
  unfold new_x. destruct (Z.ltb_spec y 32); [lia | reflexivity].
Qed.

Lemma custom_panel_orientation_mirrors_top_row_witness :
  0 <= 70 < 192 /\ 0 <= 5 < 64 /\ 192 <= 192 /\ 192 * 64 <= INT_MAX
  /\ custom_panel_orientation 192 64 70 5 = 70 + 192 * 5.
Proof.
  assert (Hx : 0 <= 70 < 192) by lia.
  assert (Hy : 0 <= 5 < 64) by lia.
  assert (Hw : 192 <= 192) by lia.
  assert (Hfit : 192 * 64 <= INT_MAX) by (unfold INT_MAX; lia).
  split; [exact Hx | split; [exact Hy | split; [exact Hw | split;
    [exact Hfit |]]]].
  destruct (custom_panel_orientation_mirrors_top_row 192 64 70 5 Hx Hy Hw Hfit)
    as (_ & _ & _ & _ & Hback).
  exact Hback.
Defined.

(** X6: the exchange is fixed to three panel columns: in rows 0 to 31
    a pixel of a fourth or later column ([x >= 192]) is moved left of
    the canvas, so its offset lies before the start of its own row and
    is negative in row 0. *)
Theorem custom_panel_orientation_fourth_column (width height x y : Z) :
  192 <= x < width -> 0 <= y < 32 -> y < height ->
  width * height <= INT_MAX ->
  custom_panel_orientation width height x y
  = (128 + 2 * (x mod 64) - x) + width * y
  /\ - width < 128 + 2 * (x mod 64) - x < 0
  /\ custom_panel_orientation width height x y < width * y
  /\ (y = 0 -> custom_panel_orientation width height x y < 0).
Proof.
  intros Hx Hy Hyh Hfit.
  pose proof (Z.div_mod x 64 ltac:(lia)) as Hxsplit.
  pose proof (Z.mod_pos_bound x 64 ltac:(lia)) as Hxmod.
  rewrite custom_panel_orientation_wrap
    by (unfold is_int, INT_MAX, two31 in *; nia).
  destruct (Z.ltb_spec y 32) as [_ | Hge]; [| lia].
  replace (64 * (2 - x / 64) + x mod 64) with (128 + 2 * (x mod 64) - x) by lia.
  rewrite to_int_small by (unfold is_int, INT_MAX, two31 in *; nia).
  repeat split; lia.
Qed.

Lemma custom_panel_orientation_fourth_column_witness :
  192 <= 200 < 256 /\ 0 <= 0 < 32 /\ 0 < 64 /\ 256 * 64 <= INT_MAX
  /\ custom_panel_orientation 256 64 200 0 = -56.
Proof.
  assert (Hx : 192 <= 200 < 256) by lia.
  assert (Hy : 0 <= 0 < 32) by lia.
  assert (Hyh : 0 < 64) by lia.
  assert (Hfit : 256 * 64 <= INT_MAX) by (unfold INT_MAX; lia).
  split; [exact Hx | split; [exact Hy | split; [exact Hyh | split;
    [exact Hfit |]]]].
  destruct (custom_panel_orientation_fourth_column 256 64 200 0 Hx Hy Hyh Hfit)
    as (Hoff & _).
  rewrite Hoff. reflexivity.
Defined.

(** ** The pixels a map visits *)

(** Column position [j] splits into the stack [j / width] and the
    column [j mod width] inside it. *)
Lemma column_position_split (width stacks j : Z) :
  0 <= width -> 0 <= j < width * stacks ->
  0 <= j mod width < width /\ 0 <= j / width < stacks.
Proof.
  intros Hwidth Hj.
  assert (Hw : 0 < width).
  { destruct (Z.eq_dec width 0) as [Hzero | Hnz]; [| lia].
    rewrite Hzero, Z.mul_0_l in Hj. lia. }
  split; [now apply Z.mod_pos_bound |].
  split; [apply Z.div_pos; lia | apply Z.div_lt_upper_bound; lia].
Qed.

(** The coordinates of section 4.2 lie on the canvas of [stacks]
    panels, with or without serpentine wiring. *)
Lemma spec_coords_on_canvas (serpentine : bool)
  (width n_addr_lines stacks i j : Z) :
  0 <= n_addr_lines -> 0 <= width ->
  0 <= i < 2 ^ n_addr_lines -> 0 <= j < width * stacks ->
  let c := if serpentine then spec_serpentine_coords width n_addr_lines i j
           else spec_plain_coords width n_addr_lines i j in
  0 <= fst (fst c) < width
  /\ 0 <= snd (fst c) < 2 * 2 ^ n_addr_lines * stacks
  /\ 0 <= snd c < 2 * 2 ^ n_addr_lines * stacks.
Proof.
  intros Ha Hw Hi Hj. cbv zeta.
  destruct (column_position_split width stacks j Hw Hj) as [Hcol Hpanel].
  set (half := 2 ^ n_addr_lines) in *.
  assert (Hplain : let c := spec_plain_coords width n_addr_lines i j in
                   0 <= fst (fst c) < width
                   /\ 0 <= snd (fst c) < 2 * half * stacks
                   /\ 0 <= snd c < 2 * half * stacks).
  { unfold spec_plain_coords. cbv zeta. fold half. cbn [fst snd].
    set (panel := j / width) in *. repeat split; nia. }
  destruct serpentine; [| exact Hplain].
  unfold spec_serpentine_coords. cbv zeta. fold half.
  destruct (Z.odd (j / width)); [| exact Hplain].
  cbn [fst snd]. set (panel := j / width) in *. repeat split; nia.
Qed.

(** Every pixel of the canvas is the upper or the lower pixel of some
    row-select state and column position. *)
Lemma spec_coords_cover (serpentine : bool)
  (width n_addr_lines stacks x y : Z) :
  0 <= n_addr_lines ->
  0 <= x < width -> 0 <= y < 2 * 2 ^ n_addr_lines * stacks ->
  exists i j y',
    0 <= i < 2 ^ n_addr_lines /\ 0 <= j < width * stacks
    /\ let c := if serpentine
                then spec_serpentine_coords width n_addr_lines i j
                else spec_plain_coords width n_addr_lines i j in
       c = (x, y, y') \/ c = (x, y', y).
Proof.
  intros Ha Hx Hy.
  pose proof (pow2_pos n_addr_lines Ha) as Hhalf.
  set (half := 2 ^ n_addr_lines) in *.
  pose proof (Z.div_mod y (2 * half) ltac:(lia)) as Hsplit.
  pose proof (Z.mod_pos_bound y (2 * half) ltac:(lia)) as Hrow.
  assert (Hpanel : 0 <= y / (2 * half) < stacks).
  { split; [apply Z.div_pos; lia | apply Z.div_lt_upper_bound; lia]. }
  set (panel := y / (2 * half)) in *. set (row := y mod (2 * half)) in *.
  assert (Hflip : serpentine && Z.odd panel = true
                  \/ serpentine && Z.odd panel = false)
    by (destruct (serpentine && Z.odd panel); auto).
  destruct Hflip as [Hflip | Hflip].
  - (* a mirrored panel *)
    apply andb_true_iff in Hflip as [-> Hodd].
    destruct (offset_split width (width - 1 - x) panel ltac:(lia))
      as [Hmod Hdiv].
    destruct (Z.lt_ge_cases row half) as [Hlow | Hhigh].
    + exists (half - 1 - row), (width - 1 - x + width * panel), (y + half).
      split; [lia | split; [nia |]].
      cbv zeta. unfold spec_serpentine_coords. cbv zeta. fold half.
      rewrite Hmod, Hdiv, Hodd. right. f_equal; [f_equal |]; lia.
    + exists (2 * half - 1 - row), (width - 1 - x + width * panel), (y - half).
      split; [lia | split; [nia |]].
      cbv zeta. unfold spec_serpentine_coords. cbv zeta. fold half.
      rewrite Hmod, Hdiv, Hodd. left. f_equal; [f_equal |]; lia.
  - (* a panel scanned in place *)
    destruct (offset_split width x panel Hx) as [Hmod Hdiv].
    assert (Hcoords : forall i,
              (if serpentine
               then spec_serpentine_coords width n_addr_lines i
                      (x + width * panel)
               else spec_plain_coords width n_addr_lines i (x + width * panel))
              = (x, panel * (2 * half) + i, panel * (2 * half) + i + half)).
    { intros i. unfold spec_serpentine_coords, spec_plain_coords. cbv zeta.
      fold half. rewrite Hmod, Hdiv.
      destruct serpentine; [| reflexivity].
      cbn [andb] in Hflip. now rewrite Hflip. }
    destruct (Z.lt_ge_cases row half) as [Hlow | Hhigh].
    + exists row, (x + width * panel), (y + half).
      split; [lia | split; [nia |]].
      cbv zeta. rewrite Hcoords. left. f_equal; [f_equal |]; lia.
    + exists (row - half), (x + width * panel), (y - half).
      split; [lia | split; [nia |]].
      cbv zeta. rewrite Hcoords. right. f_equal; [f_equal |]; lia.
Qed.

(** A map returned for a canvas of positive [int] height was built for
    at most 29 address lines, and the loops run over [2^n_addr_lines]
    row-select states and [width * stacks] column positions. *)
Lemma returned_map_panels (width height n_addr_lines : Z)
  (serpentine : bool) (cb : orientation_fn) (m : matrix_map) :
  0 <= n_addr_lines -> 0 <= width <= INT_MAX -> 0 < height <= INT_MAX ->
  make_matrixmap width height n_addr_lines serpentine cb = Returns m ->
  let stacks := height / (2 * 2 ^ n_addr_lines) in
  n_addr_lines <= 29
  /\ height = 2 * 2 ^ n_addr_lines * stacks /\ 0 < stacks
  /\ half_panel_height n_addr_lines = 2 ^ n_addr_lines
  /\ pixels_across_of width height n_addr_lines = width * stacks.
Proof.
  intros Ha Hw Hh Hm. cbv zeta. unfold make_matrixmap in Hm.
  destruct (Z.eqb_spec (panel_height n_addr_lines) 0) as [| Hnz];
    [discriminate Hm |].
  destruct (Z.eqb_spec (height mod panel_height n_addr_lines) 0) as [Hdiv |];
    [| discriminate Hm].
  assert (Ha29 : n_addr_lines <= 29).
  { destruct (Z.le_gt_cases n_addr_lines 29) as [Hle | Hgt]; [exact Hle |].
    exfalso.
    destruct (panel_height_large n_addr_lines ltac:(lia)) as [Hbig | Hzero];
      [| contradiction].
    rewrite Hbig, Z.mod_small in Hdiv
      by (unfold INT_MAX, two64, two31 in *; lia).
    lia. }
  pose proof (pow2_pos n_addr_lines Ha) as Hpos.
  rewrite panel_height_exact in Hdiv by lia.
  assert (Hsplit : height
                   = 2 * 2 ^ n_addr_lines * (height / (2 * 2 ^ n_addr_lines)))
    by (apply Z.div_exact; [lia | exact Hdiv]).
  assert (Hstacks : 0 < height / (2 * 2 ^ n_addr_lines)) by nia.
  split; [exact Ha29 | split; [exact Hsplit | split; [exact Hstacks | split]]].
  - apply half_panel_height_exact. lia.
  - unfold pixels_across_of, v_panels, size_mul.
    rewrite panel_height_exact by lia.
    apply to_size_small. unfold is_size, INT_MAX, two64 in *. nia.
Qed.

(** On such a canvas the [int] variables of the loop body hold the
    coordinates of section 4.2 themselves. *)
Lemma pixel_coords_exact (serpentine : bool)
  (width n_addr_lines stacks i j : Z) :
  0 <= n_addr_lines -> 0 <= width <= INT_MAX ->
  2 * 2 ^ n_addr_lines * stacks <= INT_MAX ->
  0 <= i < 2 ^ n_addr_lines -> 0 <= j < width * stacks ->
  pixel_coords serpentine width n_addr_lines i j
  = (if serpentine then spec_serpentine_coords width n_addr_lines i j
     else spec_plain_coords width n_addr_lines i j).
Proof.
  intros Ha Hw Hh Hi Hj. rewrite pixel_coords_wrap by assumption.
  pose proof (spec_coords_on_canvas serpentine width n_addr_lines stacks i j
                Ha ltac:(lia) Hi Hj) as Hcanvas.
  cbv zeta in Hcanvas.
  destruct (if serpentine then spec_serpentine_coords width n_addr_lines i j
            else spec_plain_coords width n_addr_lines i j) as [[x y0] y1].
  cbn [fst snd] in Hcanvas. unfold as_int_coords.
  rewrite !to_int_small by (unfold is_int, INT_MAX, two31 in *; lia).
  reflexivity.
Qed.

(** Every pixel of the canvas is visited. *)
Lemma make_matrixmap_covers (width height n_addr_lines : Z)
  (serpentine : bool) (cb : orientation_fn) (m : matrix_map) :
  0 <= n_addr_lines -> 0 <= width <= INT_MAX -> 0 <= height <= INT_MAX ->
  make_matrixmap width height n_addr_lines serpentine cb = Returns m ->
  forall x y, 0 <= x < width -> 0 <= y < height -> In (cb width height x y) m.
Proof.
  intros Ha Hw Hh Hm x y Hx Hy.
  destruct (returned_map_panels width height n_addr_lines serpentine cb m
              Ha Hw ltac:(lia) Hm)
    as (Ha29 & Hheight & Hstacks & Hhalf & Hacross).
  destruct (make_matrixmap_entries _ _ _ _ _ _ Hm) as [_ Hentries].
  cbv zeta in Hentries. rewrite Hhalf, Hacross in Hentries.
  rewrite !to_int_small in Hentries
    by (unfold is_int, INT_MAX, two31 in *; lia).
  set (stacks := height / (2 * 2 ^ n_addr_lines)) in *.
  destruct (spec_coords_cover serpentine width n_addr_lines stacks x y Ha Hx
              ltac:(lia)) as (i & j & y' & Hi & Hj & Hcoords).
  cbv zeta in Hcoords.
  rewrite <- (pixel_coords_exact serpentine width n_addr_lines stacks i j)
    in Hcoords by lia.
  destruct Hcoords as [Hupper | Hlower].
  - destruct (Hentries i j _ _ _ Hi Hj Hupper) as [Hfound _].
    exact (nth_error_In _ _ Hfound).
  - destruct (Hentries i j _ _ _ Hi Hj Hlower) as [_ Hfound].
    exact (nth_error_In _ _ Hfound).
Qed.

(** A map over an [int] canvas has one entry per pixel. *)
Lemma make_matrixmap_length (width height n_addr_lines : Z)
  (serpentine : bool) (cb : orientation_fn) (m : matrix_map) :
  0 <= n_addr_lines -> 0 <= width <= INT_MAX -> 0 <= height <= INT_MAX ->
  make_matrixmap width height n_addr_lines serpentine cb = Returns m ->
  Z.of_nat (List.length m) = width * height.
Proof.
  intros Ha Hw Hh Hm.
  destruct (make_matrixmap_entries _ _ _ _ _ _ Hm) as [Hlen _].
  cbv zeta in Hlen. rewrite Hlen.
  destruct (Z.eq_dec height 0) as [-> | Hpos].
  - unfold pixels_across_of, v_panels, size_mul.
    rewrite Z.div_0_l.
    + rewrite Z.mul_0_r. unfold to_size. rewrite Z.mod_0_l by discriminate.
      ring.
    + unfold make_matrixmap in Hm.
      destruct (Z.eqb_spec (panel_height n_addr_lines) 0); [discriminate Hm |].
      assumption.
  - destruct (returned_map_panels width height n_addr_lines serpentine cb m
              Ha Hw ltac:(lia) Hm)
      as (_ & Hheight & _ & Hhalf & Hacross).
    rewrite Hhalf, Hacross. rewrite Hheight at 2. ring.
Qed.

(** Every entry is the transform of a pixel of the canvas. *)
Lemma make_matrixmap_entries_on_canvas (width height n_addr_lines : Z)
  (serpentine : bool) (cb : orientation_fn) (m : matrix_map) :
  0 <= n_addr_lines -> 0 <= width <= INT_MAX -> 0 <= height <= INT_MAX ->
  make_matrixmap width height n_addr_lines serpentine cb = Returns m ->
  forall e, In e m ->
    exists x y, 0 <= x < width /\ 0 <= y < height /\ e = cb width height x y.
Proof.
  intros Ha Hw Hh Hm e He.
  pose proof (make_matrixmap_length _ _ _ _ _ _ Ha Hw Hh Hm) as Hlen.
  destruct (In_nth_error _ _ He) as [n Hn].
  assert (Hbound : (n < List.length m)%nat)
    by (apply nth_error_Some; congruence).
  assert (Hheight : 0 < height) by nia.
  destruct (returned_map_panels width height n_addr_lines serpentine cb m
              Ha Hw ltac:(lia) Hm)
    as (Ha29 & Hsplit & Hstacks & Hhalf & Hacross).
  destruct (make_matrixmap_entries _ _ _ _ _ _ Hm) as [_ Hentries].
  cbv zeta in Hentries. rewrite Hhalf, Hacross in Hentries.
  rewrite !to_int_small in Hentries
    by (unfold is_int, INT_MAX, two31 in *; lia).
  set (stacks := height / (2 * 2 ^ n_addr_lines)) in *.
  set (across := width * stacks) in *.
  assert (Hacross_pos : 0 < across) by (unfold across; nia).
  pose proof (Z.div_mod (Z.of_nat n) (2 * across) ltac:(lia)) as Hrow.
  pose proof (Z.mod_pos_bound (Z.of_nat n) (2 * across) ltac:(lia)) as Hrest.
  pose proof (Z.div_mod (Z.of_nat n mod (2 * across)) 2 ltac:(lia)) as Hpair.
  pose proof (Z.mod_pos_bound (Z.of_nat n mod (2 * across)) 2 ltac:(lia))
    as Hhalfpair.
  set (i := Z.of_nat n / (2 * across)) in *.
  set (rest := Z.of_nat n mod (2 * across)) in *.
  set (j := rest / 2) in *.
  assert (Hi : 0 <= i < 2 ^ n_addr_lines).
  { split; [apply Z.div_pos; lia |].
    apply Z.div_lt_upper_bound; [lia |]. nia. }
  assert (Hj : 0 <= j < across).
  { split; [apply Z.div_pos; lia |]. apply Z.div_lt_upper_bound; lia. }
  pose proof (spec_coords_on_canvas serpentine width n_addr_lines stacks i j
                Ha ltac:(lia) Hi Hj) as Hcanvas.
  cbv zeta in Hcanvas.
  rewrite <- (pixel_coords_exact serpentine width n_addr_lines stacks i j)
    in Hcanvas by (fold across; lia).
  destruct (pixel_coords serpentine width n_addr_lines i j)
    as [[x y0] y1] eqn:Hcoords.
  cbn [fst snd] in Hcanvas.
  destruct (Hentries i j x y0 y1 Hi Hj Hcoords) as [Hfirst Hsecond].
  destruct (Z.eq_dec (rest mod 2) 0) as [Heven | Hodd].
  - exists x, y0. split; [lia | split; [lia |]].
    replace (Z.to_nat (2 * (i * across + j))) with n in Hfirst by lia.
    congruence.
  - exists x, y1. split; [lia | split; [lia |]].
    replace (Z.to_nat (2 * (i * across + j) + 1)) with n in Hsecond by lia.
    congruence.
Qed.

(** X7: a map returned for a canvas whose width and height are [int]s
    has exactly [width * height] entries; every pixel of the canvas
    has its transformed offset in the map, and every entry is the
    transformed offset of a pixel of the canvas: the transform is
    never called outside the canvas. *)
Theorem make_matrixmap_visits_canvas (width height n_addr_lines : Z)
  (serpentine : bool) (cb : orientation_fn) (m : matrix_map) :
  0 <= n_addr_lines -> 0 <= width <= INT_MAX -> 0 <= height <= INT_MAX ->
  make_matrixmap width height n_addr_lines serpentine cb = Returns m ->
  Z.of_nat (List.length m) = width * height
  /\ (forall x y, 0 <= x < width -> 0 <= y < height ->
        In (cb width height x y) m)
  /\ (forall e, In e m ->
        exists x y,
          0 <= x < width /\ 0 <= y < height /\ e = cb width height x y).
Proof.
  intros Ha Hw Hh Hm. split; [| split].
  - exact (make_matrixmap_length _ _ _ _ _ _ Ha Hw Hh Hm).
  - exact (make_matrixmap_covers _ _ _ _ _ _ Ha Hw Hh Hm).
  - exact (make_matrixmap_entries_on_canvas _ _ _ _ _ _ Ha Hw Hh Hm).
Qed.

Lemma make_matrixmap_visits_canvas_witness :
  0 <= 1 /\ 0 <= 3 <= INT_MAX /\ 0 <= 8 <= INT_MAX
  /\ make_matrixmap 3 8 1 true orientation_r180
     = Returns [23; 17; 22; 16; 21; 15; 0; 6; 1; 7; 2; 8;
                20; 14; 19; 13; 18; 12; 3; 9; 4; 10; 5; 11]
  /\ Z.of_nat (List.length [23; 17; 22; 16; 21; 15; 0; 6; 1; 7; 2; 8;
                            20; 14; 19; 13; 18; 12; 3; 9; 4; 10; 5; 11])
     = 3 * 8.
Proof.
  assert (Ha : 0 <= 1) by lia.
  assert (Hw : 0 <= 3 <= INT_MAX) by (unfold INT_MAX; lia).
  assert (Hh : 0 <= 8 <= INT_MAX) by (unfold INT_MAX; lia).
  assert (Hm : make_matrixmap 3 8 1 true orientation_r180
               = Returns [23; 17; 22; 16; 21; 15; 0; 6; 1; 7; 2; 8;
                          20; 14; 19; 13; 18; 12; 3; 9; 4; 10; 5; 11])
    by (vm_compute; reflexivity).
  split; [exact Ha | split; [exact Hw | split; [exact Hh | split;
    [exact Hm |]]]].
  exact (proj1 (make_matrixmap_visits_canvas 3 8 1 true orientation_r180 _
                  Ha Hw Hh Hm)).
Defined.

(** ** Maps of the bijective orientations *)

Lemma upto_NoDup (n : Z) : NoDup (upto n).
Proof.
  unfold upto. apply Finite.Injective_map_NoDup; [| apply seq_NoDup].
  intros a b Hab. now apply Nat2Z.inj.
Qed.

(** A list of [n] entries in which every number below [n] occurs is a
    permutation of [0, .., n-1]. *)
Lemma covering_list_is_permutation (m : list Z) (n : Z) :
  Z.of_nat (List.length m) = n ->
  (forall k, 0 <= k < n -> In k m) ->
  Permutation m (upto n).
Proof.
  intros Hlen Hcover.
  assert (Hincl : incl (upto n) m).
  { intros k Hk. apply Hcover. now apply in_upto. }
  assert (Hle : (List.length m <= List.length (upto n))%nat)
    by (rewrite length_upto; lia).
  apply NoDup_Permutation.
  - exact (NoDup_incl_NoDup (upto_NoDup n) Hle Hincl).
  - apply upto_NoDup.
  - intros k. split; [| apply Hincl].
    exact (NoDup_length_incl (upto_NoDup n) Hle Hincl k).
Qed.

(** Each of the three orientations reaches every offset of the canvas
    from a pixel of the canvas. *)
Lemma bijective_orientation_onto (cb : orientation_fn) (width height k : Z) :
  cb = orientation_normal \/ cb = orientation_r180 \/ cb = orientation_ccw ->
  width * height <= INT_MAX -> 0 <= width -> 0 <= height ->
  0 <= k < width * height ->
  exists x y, 0 <= x < width /\ 0 <= y < height /\ cb width height x y = k.
Proof.
  intros Hcb Hfit Hw Hh Hk.
  assert (Hwpos : 0 < width) by nia. assert (Hhpos : 0 < height) by nia.
  destruct Hcb as [-> | [-> | ->]].
  - pose proof (Z.div_mod k width ltac:(lia)) as Hsplit.
    pose proof (Z.mod_pos_bound k width Hwpos) as Hcol.
    assert (Hrow : 0 <= k / width < height).
    { split; [apply Z.div_pos; lia | apply Z.div_lt_upper_bound; lia]. }
    exists (k mod width), (k / width).
    split; [exact Hcol | split; [exact Hrow |]].
    rewrite orientation_normal_exact by assumption. lia.
  - set (k' := width * height - 1 - k).
    pose proof (Z.div_mod k' width ltac:(lia)) as Hsplit.
    pose proof (Z.mod_pos_bound k' width Hwpos) as Hcol.
    assert (Hrow : 0 <= k' / width < height).
    { split; [apply Z.div_pos; unfold k'; lia |].
      apply Z.div_lt_upper_bound; unfold k'; lia. }
    exists (k' mod width), (k' / width).
    split; [exact Hcol | split; [exact Hrow |]].
    rewrite orientation_r180_exact by assumption. unfold k' in *. lia.
  - pose proof (Z.div_mod k height ltac:(lia)) as Hsplit.
    pose proof (Z.mod_pos_bound k height Hhpos) as Hrow.
    assert (Hcol : 0 <= k / height < width).
    { split; [apply Z.div_pos; lia | apply Z.div_lt_upper_bound; lia]. }
    exists (width - 1 - k / height), (k mod height).
    split; [lia | split; [exact Hrow |]].
    rewrite orientation_ccw_exact by lia. lia.
Qed.

(** X8: with the normal, the rotate-180 or the rotate-CCW orientation,
    serpentine or not, a map returned for a canvas whose offsets fit
    in [int] is a permutation of the offsets [0 .. width * height - 1]:
    every framebuffer word is scanned exactly once. *)
Theorem make_matrixmap_is_permutation (width height n_addr_lines : Z)
  (serpentine : bool) (cb : orientation_fn) (m : matrix_map) :
  cb = orientation_normal \/ cb = orientation_r180 \/ cb = orientation_ccw ->
  0 <= n_addr_lines -> 0 <= width <= INT_MAX -> 0 <= height <= INT_MAX ->
  width * height <= INT_MAX ->
  make_matrixmap width height n_addr_lines serpentine cb = Returns m ->
  Permutation m (upto (width * height)) /\ NoDup m.
Proof.
  intros Hcb Ha Hw Hh Hfit Hm.
  assert (Hperm : Permutation m (upto (width * height))).
  { apply covering_list_is_permutation.
    - exact (make_matrixmap_length _ _ _ _ _ _ Ha Hw Hh Hm).
    - intros k Hk.
      destruct (bijective_orientation_onto cb width height k Hcb Hfit
                  ltac:(lia) ltac:(lia) Hk) as (x & y & Hx & Hy & <-).
      exact (make_matrixmap_covers _ _ _ _ _ _ Ha Hw Hh Hm x y Hx Hy). }
  split; [exact Hperm |].
  apply (Permutation_NoDup (Permutation_sym Hperm)). apply upto_NoDup.
Qed.

Lemma make_matrixmap_is_permutation_witness :
  (orientation_ccw = orientation_normal \/ orientation_ccw = orientation_r180
   \/ orientation_ccw = orientation_ccw)
  /\ 0 <= 1 /\ 0 <= 3 <= INT_MAX /\ 0 <= 8 <= INT_MAX /\ 3 * 8 <= INT_MAX
  /\ make_matrixmap 3 8 1 true orientation_ccw
     = Returns [16; 18; 8; 10; 0; 2; 7; 5; 15; 13; 23; 21;
                17; 19; 9; 11; 1; 3; 6; 4; 14; 12; 22; 20]
  /\ Permutation [16; 18; 8; 10; 0; 2; 7; 5; 15; 13; 23; 21;
                  17; 19; 9; 11; 1; 3; 6; 4; 14; 12; 22; 20] (upto (3 * 8)).
Proof.
  assert (Hcb : orientation_ccw = orientation_normal
                \/ orientation_ccw = orientation_r180
                \/ orientation_ccw = orientation_ccw)
    by (right; right; reflexivity).
  assert (Ha : 0 <= 1) by lia.
  assert (Hw : 0 <= 3 <= INT_MAX) by (unfold INT_MAX; lia).
  assert (Hh : 0 <= 8 <= INT_MAX) by (unfold INT_MAX; lia).
  assert (Hfit : 3 * 8 <= INT_MAX) by (unfold INT_MAX; lia).
  assert (Hm : make_matrixmap 3 8 1 true orientation_ccw
               = Returns [16; 18; 8; 10; 0; 2; 7; 5; 15; 13; 23; 21;
                          17; 19; 9; 11; 1; 3; 6; 4; 14; 12; 22; 20])
    by (vm_compute; reflexivity).
  split; [exact Hcb | split; [exact Ha | split; [exact Hw | split;
    [exact Hh | split; [exact Hfit | split; [exact Hm |]]]]]].
  exact (proj1 (make_matrixmap_is_permutation 3 8 1 true orientation_ccw _
                  Hcb Ha Hw Hh Hfit Hm)).
Defined.

(** X9: with the rotate-CW orientation every returned map over a
    non-empty canvas starts with the entry [-(height + 1)] and holds
    the negative entry [y - height - 1] for every row [y]: the scan
    reads before the start of the framebuffer. *)
Theorem make_matrixmap_cw_leaves_framebuffer (width height n_addr_lines : Z)
  (serpentine : bool) (m : matrix_map) :
  0 <= n_addr_lines -> 0 < width <= INT_MAX -> 0 < height <= INT_MAX ->
  width * height <= INT_MAX ->
  make_matrixmap width height n_addr_lines serpentine orientation_cw
  = Returns m ->
  nth_error m 0 = Some (- (height + 1))
  /\ forall y, 0 <= y < height -> In (y - height - 1) m /\ y - height - 1 < 0.
Proof.
  intros Ha Hw Hh Hfit Hm. split.
  - destruct (returned_map_panels width height n_addr_lines serpentine
                orientation_cw m Ha ltac:(lia) Hh Hm)
      as (Ha29 & Hheight & Hstacks & Hhalf & Hacross).
    destruct (make_matrixmap_entries _ _ _ _ _ _ Hm) as [_ Hentries].
    cbv zeta in Hentries. rewrite Hhalf, Hacross in Hentries.
    pose proof (pow2_pos n_addr_lines Ha) as Hpos.
    set (stacks := height / (2 * 2 ^ n_addr_lines)) in *.
    assert (Hcoords : pixel_coords serpentine width n_addr_lines 0 0
                      = (0, 0, 2 ^ n_addr_lines)).
    { rewrite (pixel_coords_exact serpentine width n_addr_lines stacks)
        by (try lia; nia).
      unfold spec_serpentine_coords, spec_plain_coords. cbv zeta.
      rewrite Z.div_0_l, Z.mod_0_l by lia.
      destruct serpentine; reflexivity. }
    destruct (Hentries 0 0 _ _ _ ltac:(lia) ltac:(nia) Hcoords) as [Hfirst _].
    replace (Z.to_nat (2 * (0 * (width * stacks) + 0))) with 0%nat in Hfirst
      by lia.
    rewrite Hfirst. f_equal.
    rewrite !to_int_small by (unfold is_int, INT_MAX, two31 in *; lia).
    rewrite orientation_cw_exact by lia. ring.
  - intros y Hy. split; [| lia].
    assert (Hzero : 0 <= 0 < width) by lia.
    pose proof (make_matrixmap_covers width height n_addr_lines serpentine
                  orientation_cw m Ha ltac:(lia) ltac:(lia) Hm 0 y Hzero Hy)
      as Hin.
    rewrite orientation_cw_exact in Hin by lia.
    now replace (y + height * 0 - (height + 1)) with (y - height - 1) in Hin
      by ring.
Qed.

Lemma make_matrixmap_cw_leaves_framebuffer_witness :
  0 <= 1 /\ 0 < 3 <= INT_MAX /\ 0 < 8 <= INT_MAX /\ 3 * 8 <= INT_MAX
  /\ make_matrixmap 3 8 1 false orientation_cw
     = Returns [-9; -7; -1; 1; 7; 9; -5; -3; 3; 5; 11; 13;
                -8; -6; 0; 2; 8; 10; -4; -2; 4; 6; 12; 14]
  /\ nth_error [-9; -7; -1; 1; 7; 9; -5; -3; 3; 5; 11; 13;
                -8; -6; 0; 2; 8; 10; -4; -2; 4; 6; 12; 14] 0
     = Some (- (8 + 1)).
Proof.
  assert (Ha : 0 <= 1) by lia.
  assert (Hw : 0 < 3 <= INT_MAX) by (unfold INT_MAX; lia).
  assert (Hh : 0 < 8 <= INT_MAX) by (unfold INT_MAX; lia).
  assert (Hfit : 3 * 8 <= INT_MAX) by (unfold INT_MAX; lia).
  assert (Hm : make_matrixmap 3 8 1 false orientation_cw
               = Returns [-9; -7; -1; 1; 7; 9; -5; -3; 3; 5; 11; 13;
                          -8; -6; 0; 2; 8; 10; -4; -2; 4; 6; 12; 14])
    by (vm_compute; reflexivity).
  split; [exact Ha | split; [exact Hw | split; [exact Hh | split;
    [exact Hfit | split; [exact Hm |]]]]].
  exact (proj1 (make_matrixmap_cw_leaves_framebuffer 3 8 1 false _
                  Ha Hw Hh Hfit Hm)).
Defined.

(** ** The builder and the constructors together *)

(** The pixel count the constructor expects, for a canvas that
    [make_matrixmap] accepted: the [size_t] product of the lane count
    and half the canvas. *)
Lemma built_map_expected_pixels (width height n_addr_lines : Z)
  (serpentine : bool) (cb : orientation_fn) (m : matrix_map) (n_lanes : Z) :
  0 <= n_addr_lines -> 0 < width <= INT_MAX -> 0 < height <= INT_MAX ->
  width * height <= INT_MAX ->
  make_matrixmap width height n_addr_lines serpentine cb = Returns m ->
  0 < width * height / 2
  /\ width * height = 2 * (width * height / 2)
  /\ Z.of_nat (List.length m) = width * height
  /\ size_mul (shl_size n_lanes n_addr_lines)
       (pixels_across_of width height n_addr_lines)
     = (n_lanes * (width * height / 2)) mod two64.
Proof.
  intros Ha Hw Hh Hfit Hm.
  pose proof (make_matrixmap_length width height n_addr_lines serpentine cb m
                Ha ltac:(lia) ltac:(lia) Hm) as Hlen.
  destruct (returned_map_panels width height n_addr_lines serpentine cb m
              Ha ltac:(lia) Hh Hm) as (Ha29 & Hheight & Hstacks & _ & Hacross).
  pose proof (pow2_pos n_addr_lines Ha) as Hpos.
  set (stacks := height / (2 * 2 ^ n_addr_lines)) in *.
  assert (Hcells : width * height = 2 ^ n_addr_lines * (width * stacks) * 2)
    by (rewrite Hheight at 1; ring).
  assert (Hhalf : width * height / 2 = 2 ^ n_addr_lines * (width * stacks))
    by (rewrite Hcells; apply Z.div_mul; lia).
  rewrite Hhalf.
  split; [nia |]. split; [lia |]. split; [exact Hlen |].
  rewrite Hacross. unfold size_mul, shl_size, to_size.
  rewrite Z.shiftl_mul_pow2 by assumption.
  rewrite Z.mul_mod_idemp_l by discriminate.
  f_equal. ring.
Qed.

(** X10: a map built by [make_matrixmap] for a non-empty canvas whose
    offsets fit in [int] passes the length check of the constructor,
    called with the builder's own pixel count and a [size_t] lane
    count, exactly when [(n_lanes - 2) * (width * height / 2)] is a
    multiple of 2^64.  Two lanes always pass; as long as
    [n_lanes * (width * height / 2)] stays below 2^64 no other lane
    count does, and beyond that the [size_t] product wraps and a
    count other than two can pass. *)
Theorem built_map_fits_two_lanes (width height n_addr_lines : Z)
  (serpentine : bool) (cb : orientation_fn) (m : matrix_map)
  (n_lanes : Z) (schedules : schedule_sequence) :
  0 <= n_addr_lines -> 0 < width <= INT_MAX -> 0 < height <= INT_MAX ->
  width * height <= INT_MAX -> is_size n_lanes ->
  make_matrixmap width height n_addr_lines serpentine cb = Returns m ->
  let returns :=
    exists g,
      matrix_geometry_of_schedules
        (pixels_across_of width height n_addr_lines) n_addr_lines width height
        m n_lanes schedules = Returns g in
  (returns <-> (two64 | (n_lanes - 2) * (width * height / 2)))
  /\ (n_lanes = 2 -> returns)
  /\ (n_lanes * (width * height / 2) < two64 -> returns -> n_lanes = 2).
Proof.
  intros Ha Hw Hh Hfit Hlanes Hm returns.
  destruct (built_map_expected_pixels width height n_addr_lines serpentine cb
              m n_lanes Ha Hw Hh Hfit Hm)
    as (Hhalf & Hcells & Hlen & Hexpected).
  set (half := width * height / 2) in *.
  assert (Hsmall : 0 <= 2 * half < two64)
    by (unfold INT_MAX, two64 in *; lia).
  assert (Hiff : returns <-> (two64 | (n_lanes - 2) * half)).
  { unfold returns, matrix_geometry_of_schedules.
    rewrite Hexpected, Hlen, Hcells.
    destruct (Z.eqb_spec (2 * half) ((n_lanes * half) mod two64))
      as [Heq | Hne]; cbn [negb].
    - split; [intros _ | intros _; eexists; reflexivity].
      exists (n_lanes * half / two64).
      pose proof (Z.div_mod (n_lanes * half) two64 ltac:(discriminate)). lia.
    - split; [intros [g Hg]; discriminate Hg |].
      intros [q Hq]. exfalso. apply Hne.
      replace (n_lanes * half) with (2 * half + q * two64) by lia.
      rewrite Z.mod_add by discriminate. symmetry. now apply Z.mod_small. }
  split; [exact Hiff |]. split.
  - intros ->. apply Hiff. exists 0. ring.
  - intros Hnowrap Hreturns. apply Hiff in Hreturns as [q Hq].
    unfold is_size in Hlanes.
    assert (Hq0 : q = 0) by (unfold two64 in *; nia).
    subst q. nia.
Qed.

Lemma built_map_fits_two_lanes_witness :
  0 <= 0 /\ 0 < 4 <= INT_MAX /\ 0 < 2 <= INT_MAX /\ 4 * 2 <= INT_MAX
  /\ is_size (2 + 4611686018427387904)
  /\ make_matrixmap 4 2 0 false orientation_normal
     = Returns [0; 4; 1; 5; 2; 6; 3; 7]
  /\ (two64 | (2 + 4611686018427387904 - 2) * (4 * 2 / 2))
  /\ exists g,
       matrix_geometry_of_schedules (pixels_across_of 4 2 0) 0 4 2
         [0; 4; 1; 5; 2; 6; 3; 7] (2 + 4611686018427387904) []
       = Returns g.
Proof.
  assert (Ha : 0 <= 0) by lia.
  assert (Hw : 0 < 4 <= INT_MAX) by (unfold INT_MAX; lia).
  assert (Hh : 0 < 2 <= INT_MAX) by (unfold INT_MAX; lia).
  assert (Hfit : 4 * 2 <= INT_MAX) by (unfold INT_MAX; lia).
  assert (Hlanes : is_size (2 + 4611686018427387904))
    by (unfold is_size, two64; lia).
  assert (Hm : make_matrixmap 4 2 0 false orientation_normal
               = Returns [0; 4; 1; 5; 2; 6; 3; 7])
    by (vm_compute; reflexivity).
  assert (Hwrap : (two64 | (2 + 4611686018427387904 - 2) * (4 * 2 / 2)))
    by (exists 1; reflexivity).
  split; [exact Ha | split; [exact Hw | split; [exact Hh | split;
    [exact Hfit | split; [exact Hlanes | split; [exact Hm | split;
    [exact Hwrap |]]]]]]].
  exact (proj2 (proj1 (built_map_fits_two_lanes 4 2 0 false orientation_normal
                         _ (2 + 4611686018427387904) []
                         Ha Hw Hh Hfit Hlanes Hm)) Hwrap).
Defined.

(** X11: the constructor from an orientation transform returns a
    geometry only when the pixel count, read as an [int], is 0, 2 or 4
    (and below the plane count unless it is 0); the geometry then has
    two lanes, the map of [make_matrixmap], and the schedules
    [make_temporal_dither_schedule] computes for zero pixels across
    with the pixel count as the number of temporal planes. *)
Theorem geometry_of_transform_returns_only
  (pixels_across n_addr_lines n_planes width height : Z) (serpentine : bool)
  (cb : orientation_fn) (g : matrix_geometry.t) :
  matrix_geometry_of_transform pixels_across n_addr_lines n_planes width
    height serpentine cb = Returns g ->
  1 <= n_planes <= 10
  /\ (to_int pixels_across = 0 \/ to_int pixels_across = 2
      \/ to_int pixels_across = 4)
  /\ (to_int pixels_across = 0 \/ to_int pixels_across < n_planes)
  /\ matrix_geometry.n_lanes g = 2
  /\ matrix_geometry.pixels_across g = pixels_across
  /\ make_matrixmap width height n_addr_lines serpentine cb
     = Returns (matrix_geometry.map g)
  /\ make_temporal_dither_schedule n_planes 0 (to_int pixels_across)
     = Returns (matrix_geometry.schedules g).
Proof.
  unfold matrix_geometry_of_transform, matrix_geometry_of_map, bind.
  destruct (make_matrixmap width height n_addr_lines serpentine cb)
    as [m | | |]; try discriminate.
  destruct (make_temporal_dither_schedule n_planes 0 (to_int pixels_across))
    as [s | | |] eqn:Hsched; try discriminate.
  unfold matrix_geometry_of_schedules.
  destruct (negb _); [discriminate |].
  intros Hg. injection Hg as <-. cbn.
  pose proof (make_temporal_dither_schedule_throws n_planes 0
                (to_int pixels_across)) as [_ Hthrows].
  assert (Hnot : ~ ((n_planes < 1 \/ 10 < n_planes)
                    \/ (to_int pixels_across <> 0 /\ to_int pixels_across <> 2
                        /\ to_int pixels_across <> 4)
                    \/ (to_int pixels_across <> 0
                        /\ n_planes <= to_int pixels_across))).
  { intros Hcond. destruct (Hthrows Hcond) as [what Hwhat]. congruence. }
  repeat split; try reflexivity; lia.
Qed.

Lemma geometry_of_transform_returns_only_witness :
  matrix_geometry_of_transform 2 0 5 2 2 false orientation_normal
  = Returns {| matrix_geometry.pixels_across := 2;
               matrix_geometry.n_addr_lines := 0;
               matrix_geometry.n_lanes := 2;
               matrix_geometry.width := 2;
               matrix_geometry.height := 2;
               matrix_geometry.map := [0; 2; 1; 3];
               matrix_geometry.schedules :=
                 [ [ {| shift := 10; active_time := 16 |};
                     {| shift := 9; active_time := 8 |};
                     {| shift := 8; active_time := 4 |};
                     {| shift := 7; active_time := 1 |} ];
                   [ {| shift := 10; active_time := 16 |};
                     {| shift := 9; active_time := 8 |};
                     {| shift := 8; active_time := 4 |};
                     {| shift := 6; active_time := 2 |} ] ] |}
  /\ 1 <= 5 <= 10 /\ to_int 2 < 5.
Proof.
  assert (Hg : matrix_geometry_of_transform 2 0 5 2 2 false orientation_normal
               = Returns {| matrix_geometry.pixels_across := 2;
                            matrix_geometry.n_addr_lines := 0;
                            matrix_geometry.n_lanes := 2;
                            matrix_geometry.width := 2;
                            matrix_geometry.height := 2;
                            matrix_geometry.map := [0; 2; 1; 3];
                            matrix_geometry.schedules :=
                              [ [ {| shift := 10; active_time := 16 |};
                                  {| shift := 9; active_time := 8 |};
                                  {| shift := 8; active_time := 4 |};
                                  {| shift := 7; active_time := 1 |} ];
                                [ {| shift := 10; active_time := 16 |};
                                  {| shift := 9; active_time := 8 |};
                                  {| shift := 8; active_time := 4 |};
                                  {| shift := 6; active_time := 2 |} ] ] |})
    by (vm_compute; reflexivity).
  split; [exact Hg |].
  destruct (geometry_of_transform_returns_only 2 0 5 2 2 false
              orientation_normal _ Hg) as (Hplanes & _ & Hbelow & _).
  split; [exact Hplanes |].
  destruct Hbelow as [Hzero | Hlt]; [vm_compute in Hzero; discriminate | exact Hlt].
Defined.

(** ** Pixel counts for which the schedule generators hang *)

Lemma iter_double_value (w : nat) (s : Z) (j : nat) :
  0 <= s < 2 ^ Z.of_nat w ->
  Nat.iter j (fun m => Z.shiftl m 1 mod 2 ^ Z.of_nat w) s
  = (s * 2 ^ Z.of_nat j) mod 2 ^ Z.of_nat w.
Proof.
  intros Hs. rewrite <- iter_double_mod. symmetry. apply Z.mod_small.
  destruct j as [| j]; [exact Hs |].
  rewrite Nat.iter_succ. apply Z.mod_pos_bound. apply pow2_pos. lia.
Qed.

(** A power of two doubled modulo [2^w] never exceeds [2^(w-1)]. *)
Lemma doubled_power_bound (w : nat) (e : Z) (j : nat) :
  (0 < w)%nat -> 0 <= e < Z.of_nat w ->
  0 <= Nat.iter j (fun m => Z.shiftl m 1 mod 2 ^ Z.of_nat w) (2 ^ e)
    <= 2 ^ (Z.of_nat w - 1).
Proof.
  intros Hw He.
  pose proof (pow2_pos (Z.of_nat w - 1) ltac:(lia)) as Hhalf.
  rewrite iter_double_value.
  2: { split; [apply Z.lt_le_incl, pow2_pos; lia |].
       apply Z.pow_lt_mono_r; lia. }
  rewrite <- Z.pow_add_r by lia.
  destruct (Z.le_gt_cases (e + Z.of_nat j) (Z.of_nat w - 1)) as [Hfit | Hover].
  - pose proof (pow2_pos (e + Z.of_nat j) ltac:(lia)) as Hpos.
    pose proof (pow2_le_mono (e + Z.of_nat j) (Z.of_nat w - 1) ltac:(lia)).
    rewrite Z.mod_small; [lia |].
    split; [lia |]. apply Z.pow_lt_mono_r; lia.
  - replace (e + Z.of_nat j)
      with ((e + Z.of_nat j - Z.of_nat w) + Z.of_nat w) by lia.
    rewrite Z.pow_add_r, Z.mod_mul by (try lia; apply Z.pow_nonzero; lia).
    lia.
Qed.

(** The value [make_simple_schedule] returns when the doubling stops
    below 2^64. *)
Lemma make_simple_schedule_value (n_planes pixels_across k : Z) :
  1 <= n_planes <= 10 -> 0 <= k -> n_planes + k <= 63 ->
  least_doubling (2 ^ n_planes) pixels_across k ->
  make_simple_schedule n_planes pixels_across
  = Returns
      [for_range n_planes (fun i result =>
         emplace_back result (int_sub 10 i)
                      (Z.shiftr (2 ^ (n_planes + k)) i)) []].
Proof.
  intros Hn Hk Hfit Hleast.
  pose proof (pow2_pos n_planes ltac:(lia)) as Hstart.
  pose proof (pow2_le_mono n_planes 10 ltac:(lia)) as Hstart10.
  set (e := n_planes + k).
  pose proof (pow2_le_mono e 63 ltac:(unfold e; lia)) as Hmax.
  change (2 ^ 10) with 1024 in Hstart10.
  change (2 ^ 63) with 9223372036854775808 in Hmax.
  assert (Hpow : 2 ^ n_planes * 2 ^ k = 2 ^ e)
    by (unfold e; now rewrite Z.pow_add_r by lia).
  unfold make_simple_schedule.
  replace ((n_planes <? 1) || (10 <? n_planes)) with false
    by (symmetry; apply orb_false_iff; rewrite !Z.ltb_ge; lia).
  rewrite shl_int_exact by (unfold is_int, two31; lia).
  rewrite Z.mul_1_l, to_size_small by (unfold is_size, two64; lia).
  rewrite <- (Z2Nat.id k) in Hpow, Hleast by lia.
  rewrite (while_doubling_size pixels_across (Z.to_nat k))
    by (unfold size_fuel, two64; lia || assumption).
  now rewrite Hpow.
Qed.

(** X12: for a plane count in [1,10], [make_simple_schedule] fails to
    return exactly when more than 2^63 pixels across are asked for:
    the [size_t] counter then wraps to zero and the doubling loop has
    no exit, whatever the number of iterations allowed. *)
Theorem make_simple_schedule_diverges_iff (n_planes pixels_across : Z) :
  1 <= n_planes <= 10 ->
  (make_simple_schedule n_planes pixels_across = Diverges
   <-> two63 < pixels_across)
  /\ (two63 < pixels_across ->
      forall fuel,
        while fuel (fun max_count => max_count <? pixels_across)
              (fun max_count => shl_size max_count 1)
              (to_size (shl_int 1 n_planes)) = None).
Proof.
  intros Hn.
  pose proof (pow2_pos n_planes ltac:(lia)) as Hstart.
  pose proof (pow2_le_mono n_planes 10 ltac:(lia)) as Hstart10.
  change (2 ^ 10) with 1024 in Hstart10.
  assert (Hinit : to_size (shl_int 1 n_planes) = 2 ^ n_planes).
  { rewrite shl_int_exact by (unfold is_int, two31; lia).
    rewrite Z.mul_1_l. apply to_size_small. unfold is_size, two64. lia. }
  assert (Hloop : two63 < pixels_across ->
                  forall fuel,
                    while fuel (fun max_count => max_count <? pixels_across)
                          (fun max_count => shl_size max_count 1)
                          (2 ^ n_planes) = None).
  { intros Hbig fuel. apply while_none_iff. intros j _.
    change (fun max_count => shl_size max_count 1)
      with (fun m => Z.shiftl m 1 mod 2 ^ Z.of_nat 64).
    pose proof (doubled_power_bound 64 n_planes j ltac:(lia) ltac:(lia))
      as Hbound.
    change (2 ^ (Z.of_nat 64 - 1)) with two63 in Hbound.
    apply Z.ltb_lt. lia. }
  split; [| rewrite Hinit; exact Hloop].
  split.
  - intros Hdiv.
    destruct (Z.le_gt_cases pixels_across two63) as [Hsmall | Hbig];
      [exfalso | exact Hbig].
    destruct (least_doubling_exists n_planes 63 pixels_across ltac:(lia) Hsmall)
      as (k & Hleast & Hk).
    rewrite (make_simple_schedule_value n_planes pixels_across k) in Hdiv
      by (lia || assumption).
    discriminate Hdiv.
  - intros Hbig. unfold make_simple_schedule.
    replace ((n_planes <? 1) || (10 <? n_planes)) with false
      by (symmetry; apply orb_false_iff; rewrite !Z.ltb_ge; lia).
    now rewrite Hinit, (Hloop Hbig size_fuel).
Qed.

Lemma make_simple_schedule_diverges_iff_witness :
  1 <= 5 <= 10
  /\ (make_simple_schedule 5 (two63 + 1) = Diverges <-> two63 < two63 + 1)
  /\ make_simple_schedule 5 (two63 + 1) = Diverges.
Proof.
  assert (Hn : 1 <= 5 <= 10) by lia.
  split; [exact Hn |].
  destruct (make_simple_schedule_diverges_iff 5 (two63 + 1) Hn) as [Hiff _].
  split; [exact Hiff | apply Hiff; lia].
Defined.

(** The value [make_temporal_dither_schedule] returns when the
    doubling stops below 2^32. *)
Lemma make_temporal_dither_schedule_value
  (n_planes pixels_across n_temporal_planes k : Z) :
  1 <= n_planes <= 10 ->
  n_temporal_planes = 2 \/ n_temporal_planes = 4 ->
  n_temporal_planes < n_planes ->
  0 <= k -> n_planes - n_temporal_planes + 1 + k <= 31 ->
  least_doubling (2 * 2 ^ (n_planes - n_temporal_planes)) pixels_across k ->
  let real := n_planes - n_temporal_planes in
  let base :=
    for_range real (fun j result =>
      emplace_back result (int_sub 10 j)
                   (Z.shiftr (2 ^ (real + 1 + k)) j)) [] in
  make_temporal_dither_schedule n_planes pixels_across n_temporal_planes
  = Returns
      (List.map (fun i =>
           emplace_back base (int_sub 10 (int_add real i))
                        (to_int (shl_uint32 (2 ^ k) i)))
         (upto n_temporal_planes)).
Proof.
  intros Hn Ht Hlt Hk Hfit Hleast. cbv zeta.
  set (real := n_planes - n_temporal_planes) in *.
  assert (Hreal : 1 <= real <= 8) by (unfold real; lia).
  set (e := real + 1 + k).
  assert (Hmax : 2 * 2 ^ real * 2 ^ k = 2 ^ e).
  { unfold e. rewrite !Z.pow_add_r, Z.pow_1_r by lia. ring. }
  pose proof (pow2_pos real ltac:(lia)) as Hstart.
  pose proof (pow2_le_mono real 8 ltac:(lia)) as Hstart8.
  pose proof (pow2_le_mono e 31 ltac:(unfold e; lia)) as Hmax31.
  change (2 ^ 8) with 256 in Hstart8.
  change (2 ^ 31) with 2147483648 in Hmax31.
  unfold make_temporal_dither_schedule.
  replace ((n_planes <? 1) || (10 <? n_planes)) with false
    by (symmetry; apply orb_false_iff; rewrite !Z.ltb_ge; lia).
  destruct (Z.eqb_spec n_temporal_planes 0) as [H0 | _]; [lia |].
  destruct (Z.leb_spec n_planes n_temporal_planes) as [Hge | _]; [lia |].
  replace (negb (n_temporal_planes =? 2) && negb (n_temporal_planes =? 4))
    with false by (destruct Ht as [-> | ->]; reflexivity).
  assert (Hreal_int : int_sub n_planes n_temporal_planes = real)
    by (apply to_int_small; unfold is_int, two31; lia).
  cbv zeta. rewrite !Hreal_int.
  rewrite shl_int_exact by (unfold is_int, two31; lia).
  rewrite to_uint32_small by (unfold is_uint32, two32; lia).
  rewrite <- (Z2Nat.id k) in Hmax, Hleast by lia.
  rewrite (while_doubling_uint32 pixels_across (Z.to_nat k))
    by (unfold uint32_fuel, two32; lia || assumption).
  rewrite Hmax, Z.mul_1_l, Z2Nat.id by lia.
  f_equal. exact (for_range_push_back n_temporal_planes _).
Qed.

(** X13: for a plane count in [1,10] and a temporal plane count of 2
    or 4 below it, [make_temporal_dither_schedule] fails to return
    exactly when more than 2^31 pixels across are asked for: the
    [uint32_t] counter then wraps to zero and the doubling loop has no
    exit, whatever the number of iterations allowed. *)
Theorem make_temporal_dither_schedule_diverges_iff
  (n_planes pixels_across n_temporal_planes : Z) :
  1 <= n_planes <= 10 ->
  n_temporal_planes = 2 \/ n_temporal_planes = 4 ->
  n_temporal_planes < n_planes ->
  (make_temporal_dither_schedule n_planes pixels_across n_temporal_planes
   = Diverges <-> two31 < pixels_across)
  /\ (two31 < pixels_across ->
      forall fuel,
        while fuel (fun st : Z * Z => fst st <? pixels_across)
              (fun st : Z * Z =>
                 (shl_uint32 (fst st) 1, shl_uint32 (snd st) 1))
              (to_uint32 (shl_int 2 (int_sub n_planes n_temporal_planes)), 1)
        = None).
Proof.
  intros Hn Ht Hlt.
  set (real := n_planes - n_temporal_planes).
  assert (Hreal : 1 <= real <= 8) by (unfold real; lia).
  assert (Hreal_int : int_sub n_planes n_temporal_planes = real)
    by (apply to_int_small; unfold is_int, two31; lia).
  pose proof (pow2_pos real ltac:(lia)) as Hstart.
  pose proof (pow2_le_mono real 8 ltac:(lia)) as Hstart8.
  change (2 ^ 8) with 256 in Hstart8.
  assert (Hinit : to_uint32 (shl_int 2 real) = 2 ^ (real + 1)).
  { rewrite shl_int_exact by (unfold is_int, two31; lia).
    rewrite pow2_succ by lia.
    apply to_uint32_small. unfold is_uint32, two32. lia. }
  assert (Hloop : two31 < pixels_across ->
                  forall fuel,
                    while fuel (fun st : Z * Z => fst st <? pixels_across)
                          (fun st : Z * Z =>
                             (shl_uint32 (fst st) 1, shl_uint32 (snd st) 1))
                          (2 ^ (real + 1), 1) = None).
  { intros Hbig fuel. apply while_none_iff. intros j _.
    pose proof (iter_pair_fst (fun a => shl_uint32 a 1)
                  (fun a => shl_uint32 a 1) (2 ^ (real + 1), 1) j) as Hfst.
    cbv beta in Hfst. rewrite Hfst. cbn [fst].
    change (fun a => shl_uint32 a 1)
      with (fun m => Z.shiftl m 1 mod 2 ^ Z.of_nat 32).
    pose proof (doubled_power_bound 32 (real + 1) j ltac:(lia) ltac:(lia))
      as Hbound.
    change (2 ^ (Z.of_nat 32 - 1)) with two31 in Hbound.
    apply Z.ltb_lt. lia. }
  split; [| rewrite Hreal_int, Hinit; exact Hloop].
  split.
  - intros Hdiv.
    destruct (Z.le_gt_cases pixels_across two31) as [Hsmall | Hbig];
      [exfalso | exact Hbig].
    destruct (least_doubling_exists (real + 1) 31 pixels_across ltac:(lia)
                Hsmall) as (k & Hleast & Hk).
    rewrite pow2_succ in Hleast by lia.
    rewrite (make_temporal_dither_schedule_value n_planes pixels_across
               n_temporal_planes k) in Hdiv
      by (try assumption; fold real; lia).
    discriminate Hdiv.
  - intros Hbig. unfold make_temporal_dither_schedule.
    replace ((n_planes <? 1) || (10 <? n_planes)) with false
      by (symmetry; apply orb_false_iff; rewrite !Z.ltb_ge; lia).
    destruct (Z.eqb_spec n_temporal_planes 0) as [H0 | _]; [lia |].
    destruct (Z.leb_spec n_planes n_temporal_planes) as [Hge | _]; [lia |].
    replace (negb (n_temporal_planes =? 2) && negb (n_temporal_planes =? 4))
      with false by (destruct Ht as [-> | ->]; reflexivity).
    cbv zeta. rewrite !Hreal_int, Hinit.
    now rewrite (Hloop Hbig uint32_fuel).
Qed.

Lemma make_temporal_dither_schedule_diverges_iff_witness :
  1 <= 5 <= 10 /\ (2 = 2 \/ 2 = 4) /\ 2 < 5
  /\ make_temporal_dither_schedule 5 (two31 + 1) 2 = Diverges.
Proof.
  assert (Hn : 1 <= 5 <= 10) by lia.
  assert (Ht : 2 = 2 \/ 2 = 4) by (left; reflexivity).
  assert (Hlt : 2 < 5) by lia.
  split; [exact Hn | split; [exact Ht | split; [exact Hlt |]]].
  destruct (make_temporal_dither_schedule_diverges_iff 5 (two31 + 1) 2
              Hn Ht Hlt) as [Hiff _].
  apply Hiff. unfold two31. lia.
Defined.

(** ** The two generators side by side *)

Lemma firstn_map_upto {A : Type} (f : Z -> A) (n : Z) :
  0 <= n -> firstn (Z.to_nat n) (List.map f (upto (n + 1))) = List.map f (upto n).
Proof.
  intros Hn. unfold upto.
  replace (Z.to_nat (n + 1)) with (Z.to_nat n + 1)%nat by lia.
  rewrite seq_app, !map_app, firstn_app.
  rewrite !length_map, length_seq, Nat.sub_diag. cbn [firstn].
  rewrite app_nil_r. apply firstn_all2.
  rewrite !length_map, length_seq. lia.
Qed.

(** X14: a temporal-dither schedule with [t] temporal planes among
    [n] is timed like the simple schedule of [n - t + 1] planes: for
    up to 2^31 pixels across both are returned, every temporal
    schedule has [n - t + 1] entries, and its first [n - t] entries
    are the first [n - t] entries of that simple schedule. *)
Theorem temporal_schedule_shares_simple_base
  (n_planes pixels_across n_temporal_planes : Z) :
  1 <= n_planes <= 10 ->
  n_temporal_planes = 2 \/ n_temporal_planes = 4 ->
  n_temporal_planes < n_planes ->
  pixels_across <= two31 ->
  let real := n_planes - n_temporal_planes in
  exists (simple : schedule) (seqs : schedule_sequence),
    make_simple_schedule (real + 1) pixels_across = Returns [simple]
    /\ make_temporal_dither_schedule n_planes pixels_across n_temporal_planes
       = Returns seqs
    /\ Z.of_nat (List.length simple) = real + 1
    /\ forall sched, In sched seqs ->
         Z.of_nat (List.length sched) = real + 1
         /\ firstn (Z.to_nat real) sched = firstn (Z.to_nat real) simple.
Proof.
  intros Hn Ht Hlt Hp. cbv zeta.
  set (real := n_planes - n_temporal_planes).
  assert (Hreal : 1 <= real <= 8) by (unfold real; lia).
  destruct (least_doubling_exists (real + 1) 31 pixels_across ltac:(lia) Hp)
    as (k & Hleast & Hk).
  set (entry := fun i => {| shift := to_uint32 (int_sub 10 i);
                            active_time :=
                              to_uint32 (Z.shiftr (2 ^ (real + 1 + k)) i) |}).
  assert (Hentries : forall n,
             for_range n (fun i result =>
               emplace_back result (int_sub 10 i)
                            (Z.shiftr (2 ^ (real + 1 + k)) i)) []
             = List.map entry (upto n)).
  { intros n. exact (for_range_push_back n entry). }
  exists (List.map entry (upto (real + 1))).
  eexists. split; [| split; [| split]].
  - rewrite (make_simple_schedule_value (real + 1) pixels_across k)
      by (lia || assumption).
    now rewrite Hentries.
  - rewrite pow2_succ in Hleast by lia.
    rewrite (make_temporal_dither_schedule_value n_planes pixels_across
               n_temporal_planes k) by (try assumption; fold real; lia).
    fold real. rewrite Hentries. reflexivity.
  - rewrite length_map, length_upto. lia.
  - intros sched Hin. apply in_map_iff in Hin as (i & <- & _).
    unfold emplace_back, push_back. split.
    + rewrite length_app, length_map, length_upto. cbn. lia.
    + rewrite firstn_map_upto by lia.
      rewrite firstn_app, length_map, length_upto, Nat.sub_diag.
      cbn [firstn]. rewrite app_nil_r. apply firstn_all2.
      rewrite length_map, length_upto. lia.
Qed.

Lemma temporal_schedule_shares_simple_base_witness :
  1 <= 5 <= 10 /\ (2 = 2 \/ 2 = 4) /\ 2 < 5 /\ 192 <= two31
  /\ make_simple_schedule (5 - 2 + 1) 192
     = Returns [[ {| shift := 10; active_time := 256 |};
                  {| shift := 9; active_time := 128 |};
                  {| shift := 8; active_time := 64 |};
                  {| shift := 7; active_time := 32 |} ]]
  /\ exists (simple : schedule) (seqs : schedule_sequence),
       make_simple_schedule (5 - 2 + 1) 192 = Returns [simple]
       /\ make_temporal_dither_schedule 5 192 2 = Returns seqs
       /\ Z.of_nat (List.length simple) = 5 - 2 + 1
       /\ forall sched, In sched seqs ->
            Z.of_nat (List.length sched) = 5 - 2 + 1
            /\ firstn (Z.to_nat (5 - 2)) sched
               = firstn (Z.to_nat (5 - 2)) simple.
Proof.
  assert (Hn : 1 <= 5 <= 10) by lia.
  assert (Ht : 2 = 2 \/ 2 = 4) by (left; reflexivity).
  assert (Hlt : 2 < 5) by lia.
  assert (Hp : 192 <= two31) by (unfold two31; lia).
  split; [exact Hn | split; [exact Ht | split; [exact Hlt | split;
    [exact Hp | split]]]].
  - vm_compute. reflexivity.
  - exact (temporal_schedule_shares_simple_base 5 192 2 Hn Ht Hlt Hp).
Defined.

(** ** [submap] *)

Lemma upto_succ (n : Z) :
  0 <= n -> upto (n + 1) = 0 :: List.map (fun c => c + 1) (upto n).
Proof.
  intros Hn. unfold upto.
  replace (Z.to_nat (n + 1)) with (S (Z.to_nat n)) by lia.
  cbn [seq List.map]. f_equal.
  rewrite <- seq_shift, !map_map. apply map_ext. intros c. lia.
Qed.

Lemma flat_map_upto_succ {A : Type} (f : Z -> list A) (n : Z) :
  0 <= n ->
  flat_map f (upto (n + 1)) = f 0 ++ flat_map (fun c => f (c + 1)) (upto n).
Proof.
  intros Hn. rewrite upto_succ by assumption. cbn [flat_map].
  now rewrite flat_map_map_compose.
Qed.

(** The inner loop appends one pair per column, at the columns
    [start_x], [start_x + dx], ... *)
Lemma submap_row_appends (cb : orientation_fn)
  (width height dx y dy half_panel_height : Z) (n : nat) :
  forall (fuel : nat) (start_x : Z) (result : matrix_map),
    is_int start_x -> Z.of_nat n <= INT_MAX -> (n < fuel)%nat ->
    submap_row fuel cb width height start_x dx (Z.of_nat n) y dy
      half_panel_height result
    = Some (result
            ++ flat_map (fun c =>
                 [ cb width height (to_int (start_x + c * dx)) y;
                   cb width height (to_int (start_x + c * dx))
                      (int_add y (int_mul dy half_panel_height)) ])
                 (upto (Z.of_nat n))).
Proof.
  unfold submap_row.
  induction n as [| n IH]; intros fuel start_x result Hx Hn Hfuel;
    (destruct fuel as [| fuel]; [lia |]); cbn [while fst snd].
  - cbn. now rewrite app_nil_r.
  - destruct (Z.eqb_spec (Z.of_nat (S n)) 0) as [Hzero | _]; [lia |].
    cbn [negb].
    replace (int_sub (Z.of_nat (S n)) 1) with (Z.of_nat n)
      by (unfold int_sub; rewrite to_int_small;
          [lia | unfold is_int, INT_MAX, two31 in *; lia]).
    rewrite IH by (try lia; apply to_int_range).
    f_equal. unfold push_back. rewrite <- !app_assoc. f_equal.
    replace (Z.of_nat (S n)) with (Z.of_nat n + 1) by lia.
    rewrite flat_map_upto_succ by lia.
    rewrite Z.mul_0_l, Z.add_0_r, (to_int_small start_x) by assumption.
    cbn [app]. do 2 f_equal.
    apply flat_map_ext. intros c.
    assert (Hcol : to_int (int_add start_x dx + c * dx)
                   = to_int (start_x + (c + 1) * dx)).
    { unfold int_add. apply to_int_congr.
      replace (start_x + (c + 1) * dx) with (start_x + dx + c * dx) by ring.
      congr32. }
    now rewrite Hcol.
Qed.

(** An outer loop whose body appends [row y] and steps [y] by [dy]
    appends one such row per two counted rows. *)
Lemma while_opt_rows (body : Z * Z * matrix_map -> option (Z * Z * matrix_map))
  (row : Z -> matrix_map) (dy : Z) :
  (forall st,
     body st = Some (int_add (fst (fst st)) dy, int_sub (snd (fst st)) 2,
                     snd st ++ row (fst (fst st)))) ->
  forall (rows fuel : nat) (start_y : Z) (result : matrix_map),
    is_int start_y -> 2 * Z.of_nat rows <= INT_MAX -> (rows < fuel)%nat ->
    option_map (fun st : Z * Z * matrix_map => snd st)
      (while_opt fuel
         (fun st : Z * Z * matrix_map => negb (snd (fst st) =? 0)) body
         (start_y, 2 * Z.of_nat rows, result))
    = Some (result
            ++ flat_map (fun q => row (to_int (start_y + q * dy)))
                 (upto (Z.of_nat rows))).
Proof.
  intros Hbody.
  induction rows as [| rows IH]; intros fuel start_y result Hy Hrows Hfuel;
    (destruct fuel as [| fuel]; [lia |]).
  - cbn. now rewrite app_nil_r.
  - cbn [while_opt fst snd].
    destruct (Z.eqb_spec (2 * Z.of_nat (S rows)) 0) as [Hzero | _]; [lia |].
    cbn [negb]. rewrite Hbody. cbn [fst snd].
    replace (int_sub (2 * Z.of_nat (S rows)) 2) with (2 * Z.of_nat rows)
      by (unfold int_sub; rewrite to_int_small;
          [lia | unfold is_int, INT_MAX, two31 in *; lia]).
    rewrite IH by (try lia; apply to_int_range).
    f_equal. rewrite <- app_assoc. f_equal.
    replace (Z.of_nat (S rows)) with (Z.of_nat rows + 1) by lia.
    rewrite flat_map_upto_succ by lia.
    rewrite Z.mul_0_l, Z.add_0_r, (to_int_small start_y) by assumption.
    f_equal. apply flat_map_ext. intros q.
    assert (Hrow : to_int (int_add start_y dy + q * dy)
                   = to_int (start_y + (q + 1) * dy)).
    { unfold int_add. apply to_int_congr.
      replace (start_y + (q + 1) * dy) with (start_y + dy + q * dy) by ring.
      congr32. }
    now rewrite Hrow.
Qed.

(** The entries [submap] appends for a row at height [y]. *)
Lemma submap_rows_append (cb : orientation_fn)
  (width height start_x dx count_x dy half_panel_height : Z)
  (rows fuel : nat) (start_y : Z) (result : matrix_map) :
  is_int start_x -> is_int start_y ->
  0 <= count_x <= INT_MAX -> 2 * Z.of_nat rows <= INT_MAX ->
  (Z.to_nat count_x < fuel)%nat -> (rows < fuel)%nat ->
  submap fuel result width height start_x dx count_x start_y dy
    (2 * Z.of_nat rows) half_panel_height cb
  = Some (result
          ++ flat_map (fun q =>
               flat_map (fun c =>
                 [ cb width height (to_int (start_x + c * dx))
                      (to_int (start_y + q * dy));
                   cb width height (to_int (start_x + c * dx))
                      (int_add (to_int (start_y + q * dy))
                               (int_mul dy half_panel_height)) ])
                 (upto count_x))
               (upto (Z.of_nat rows))).
Proof.
  intros Hx Hy Hcx Hrows Hfx Hfuel. unfold submap.
  apply (while_opt_rows _
           (fun y => flat_map (fun c =>
              [ cb width height (to_int (start_x + c * dx)) y;
                cb width height (to_int (start_x + c * dx))
                   (int_add y (int_mul dy half_panel_height)) ])
              (upto count_x)) dy); try assumption.
  intros st.
  pose proof (submap_row_appends cb width height dx (fst (fst st)) dy
                half_panel_height (Z.to_nat count_x) fuel start_x (snd st)
                Hx ltac:(lia) Hfx) as Hrow.
  rewrite Z2Nat.id in Hrow by lia. now rewrite Hrow.
Qed.

Lemma flat_map_ext_upto {A : Type} (f g : Z -> list A) (n : Z) :
  (forall q, 0 <= q < n -> f q = g q) ->
  flat_map f (upto n) = flat_map g (upto n).
Proof.
  intros Hext. rewrite !flat_map_concat_map. f_equal.
  apply map_ext_in. intros q Hq. apply Hext. now apply in_upto.
Qed.





(** Conversion to [int] keeps the parity. *)
Lemma to_int_odd (z : Z) : Z.odd (to_int z) = Z.odd z.
Proof.
  destruct (to_int_divide z) as [c Hc].
  replace (to_int z) with (z + 2 * (c * 2147483648))
    by (unfold two32 in Hc; lia).
  apply Z.odd_add_mul_2.
Qed.

Lemma while_opt_odd_count
  (body : Z * Z * matrix_map -> option (Z * Z * matrix_map)) :
  (forall st st',
     body st = Some st' -> snd (fst st') = int_sub (snd (fst st)) 2) ->
  forall (fuel : nat) (st : Z * Z * matrix_map),
    Z.odd (snd (fst st)) = true ->
    while_opt fuel (fun st : Z * Z * matrix_map => negb (snd (fst st) =? 0))
      body st = None.
Proof.
  intros Hbody. induction fuel as [| fuel IH]; intros st Hodd; [reflexivity |].
  cbn [while_opt].
  destruct (Z.eqb_spec (snd (fst st)) 0) as [Hzero | _].
  { rewrite Hzero in Hodd. discriminate Hodd. }
  cbn [negb]. destruct (body st) as [st' |] eqn:Hstep; [| reflexivity].
  apply IH. rewrite (Hbody st st' Hstep). unfold int_sub.
  rewrite to_int_odd.
  replace (snd (fst st) - 2) with (snd (fst st) + 2 * (-1)) by ring.
  now rewrite Z.odd_add_mul_2.
Qed.

(** X16: called with an odd row count, [submap] never returns: the
    counter is lowered by two per row, stays odd and so never meets
    the zero the loop waits for, however many iterations are allowed. *)
Theorem submap_odd_count_never_returns (cb : orientation_fn)
  (width height start_x dx count_x start_y dy count_y half_panel_height : Z)
  (result : matrix_map) :
  Z.odd count_y = true ->
  forall fuel,
    submap fuel result width height start_x dx count_x start_y dy count_y
      half_panel_height cb = None.
Proof.
  intros Hodd fuel. unfold submap.
  rewrite while_opt_odd_count; [reflexivity | | exact Hodd].
  intros st st' Hstep.
  destruct (submap_row fuel cb width height start_x dx count_x (fst (fst st))
              dy half_panel_height (snd st)); [| discriminate Hstep].
  injection Hstep as <-. reflexivity.
Qed.

Lemma submap_odd_count_never_returns_witness :
  Z.odd 3 = true /\ submap 100 [] 2 4 0 1 2 0 1 3 2 orientation_normal = None.
Proof.
  assert (Hodd : Z.odd 3 = true) by reflexivity.
  split; [exact Hodd |].
  exact (submap_odd_count_never_returns orientation_normal 2 4 0 1 2 0 1 3 2 []
           Hodd 100%nat).
Defined.

(** The map of [make_matrixmap] as the concatenation its loops build. *)
Lemma make_matrixmap_flat (width height n_addr_lines : Z)
  (serpentine : bool) (cb : orientation_fn) (m : matrix_map) :
  make_matrixmap width height n_addr_lines serpentine cb = Returns m ->
  m = flat_map (fun i =>
        flat_map (fun j =>
          [ cb (to_int width) (to_int height)
               (fst (fst (pixel_coords serpentine width n_addr_lines i j)))
               (snd (fst (pixel_coords serpentine width n_addr_lines i j)));
            cb (to_int width) (to_int height)
               (fst (fst (pixel_coords serpentine width n_addr_lines i j)))
               (snd (pixel_coords serpentine width n_addr_lines i j)) ])
          (upto (pixels_across_of width height n_addr_lines)))
        (upto (half_panel_height n_addr_lines)).
Proof.
  unfold make_matrixmap.
  destruct (panel_height n_addr_lines =? 0); [discriminate |].
  destruct (negb (height mod panel_height n_addr_lines =? 0)); [discriminate |].
  cbv zeta.
  destruct (vector_max_size <? size_mul width height); [discriminate |].
  destruct (vector_max_size <? _); [discriminate |].
  intros Hret. injection Hret as <-.
  rewrite (for_range_append _ _
             (fun i => flat_map (fun j =>
                [ cb (to_int width) (to_int height)
                     (fst (fst (pixel_coords serpentine width n_addr_lines i j)))
                     (snd (fst (pixel_coords serpentine width n_addr_lines i j)));
                  cb (to_int width) (to_int height)
                     (fst (fst (pixel_coords serpentine width n_addr_lines i j)))
                     (snd (pixel_coords serpentine width n_addr_lines i j)) ])
                (upto (pixels_across_of width height n_addr_lines)))).
  - reflexivity.
  - intros i acc. apply for_range_append. intros j acc'.
    apply map_step_appends.
Qed.

(** X17: for a single stack ([height = 2 * 2^n_addr_lines], at most 29
    address lines, an [int] width) [submap], started on an empty
    vector at the origin with unit steps, [width] columns, [height]
    counted rows and half the height as row distance, returns exactly
    the map [make_matrixmap] returns without serpentine wiring. *)
Theorem submap_builds_single_stack (width n_addr_lines : Z)
  (cb : orientation_fn) (fuel : nat) (m : matrix_map) :
  0 <= n_addr_lines <= 29 -> 0 <= width <= INT_MAX ->
  (Z.to_nat width < fuel)%nat -> (Z.to_nat (2 ^ n_addr_lines) < fuel)%nat ->
  make_matrixmap width (2 * 2 ^ n_addr_lines) n_addr_lines false cb
  = Returns m ->
  submap fuel [] width (2 * 2 ^ n_addr_lines) 0 1 width 0 1
    (2 * 2 ^ n_addr_lines) (2 ^ n_addr_lines) cb = Some m.
Proof.
  intros Ha Hw Hfx Hfy Hm.
  pose proof (pow2_pos n_addr_lines ltac:(lia)) as Hpos.
  pose proof (pow2_le_mono n_addr_lines 29 ltac:(lia)) as Hle.
  change (2 ^ 29) with 536870912 in Hle.
  set (half := 2 ^ n_addr_lines) in *.
  assert (Hzero : is_int 0) by (unfold is_int, two31; lia).
  replace (2 * half) with (2 * Z.of_nat (Z.to_nat half)) at 2 by lia.
  rewrite submap_rows_append
    by (try assumption; unfold INT_MAX in *; lia).
  rewrite Z2Nat.id by lia.
  rewrite (make_matrixmap_flat _ _ _ _ _ _ Hm). cbn [app]. apply f_equal.
  rewrite half_panel_height_exact by lia. fold half.
  assert (Hacross : pixels_across_of width (2 * half) n_addr_lines = width).
  { unfold pixels_across_of, v_panels, size_mul.
    rewrite panel_height_exact by lia. fold half.
    rewrite Z.div_same, Z.mul_1_r by lia.
    apply to_size_small. unfold is_size, two64, INT_MAX in *. lia. }
  rewrite Hacross.
  apply flat_map_ext_upto. intros i Hi.
  apply flat_map_ext_upto. intros j Hj.
  rewrite (pixel_coords_exact false width n_addr_lines 1)
    by (fold half; unfold INT_MAX in *; lia).
  unfold spec_plain_coords. cbv zeta. fold half. cbn [fst snd].
  rewrite Z.div_small, Z.mod_small by lia.
  rewrite !to_int_small by (unfold is_int, INT_MAX, two31 in *; lia).
  unfold int_add, int_mul.
  rewrite (to_int_small (1 * half)) by (unfold is_int, two31; lia).
  rewrite (to_int_small (0 + i * 1 + 1 * half)) by (unfold is_int, two31; lia).
  replace (0 + j * 1) with j by ring.
  replace (0 + i * 1) with i by ring.
  replace (0 * (2 * half) + i) with i by ring.
  replace (1 * half) with half by ring.
  reflexivity.
Qed.

Lemma submap_builds_single_stack_witness :
  0 <= 1 <= 29 /\ 0 <= 3 <= INT_MAX
  /\ (Z.to_nat 3 < 4)%nat /\ (Z.to_nat (2 ^ 1) < 4)%nat
  /\ make_matrixmap 3 (2 * 2 ^ 1) 1 false orientation_r180
     = Returns [11; 5; 10; 4; 9; 3; 8; 2; 7; 1; 6; 0]
  /\ submap 4 [] 3 (2 * 2 ^ 1) 0 1 3 0 1 (2 * 2 ^ 1) (2 ^ 1) orientation_r180
     = Some [11; 5; 10; 4; 9; 3; 8; 2; 7; 1; 6; 0].
Proof.
  assert (Ha : 0 <= 1 <= 29) by lia.
  assert (Hw : 0 <= 3 <= INT_MAX) by (unfold INT_MAX; lia).
  assert (Hfx : (Z.to_nat 3 < 4)%nat) by (cbn; lia).
  assert (Hfy : (Z.to_nat (2 ^ 1) < 4)%nat) by (cbn; lia).
  assert (Hm : make_matrixmap 3 (2 * 2 ^ 1) 1 false orientation_r180
               = Returns [11; 5; 10; 4; 9; 3; 8; 2; 7; 1; 6; 0])
    by (vm_compute; reflexivity).
  split; [exact Ha | split; [exact Hw | split; [exact Hfx | split;
    [exact Hfy | split; [exact Hm |]]]]].
  exact (submap_builds_single_stack 3 1 orientation_r180 4 _ Ha Hw Hfx Hfy Hm).
Defined.

(** ** The packed pixel of the frame servers *)

Lemma land_shifted_low (a b k : Z) :
  0 <= k -> 0 <= b < 2 ^ k -> Z.land (a * 2 ^ k) b = 0.
Proof.
  intros Hk Hb. apply Z.bits_inj'. intros n Hn.
  rewrite Z.land_spec, Z.bits_0.
  destruct (Z.lt_ge_cases n k) as [Hlow | Hhigh].
  - rewrite Z.mul_pow2_bits_low by lia. reflexivity.
  - rewrite <- (Z.mod_small b (2 ^ k)) by lia.
    rewrite Z.mod_pow2_bits_high by lia. apply andb_false_r.
Qed.

Lemma lor_shifted_low (a b k : Z) :
  0 <= k -> 0 <= b < 2 ^ k -> Z.lor (a * 2 ^ k) b = a * 2 ^ k + b.
Proof.
  intros Hk Hb. pose proof (land_shifted_low a b k Hk Hb) as Hland.
  rewrite <- (Z.lxor_lor _ _ Hland). symmetry.
  now apply Z.add_nocarry_lxor.
Qed.

Lemma packed_value (r g b : Z) :
  is_byte r -> is_byte g -> is_byte b ->
  server.packed r g b = 65536 * r + 256 * g + b.
Proof.
  unfold is_byte, server.packed, shl_uint32. intros Hr Hg Hb.
  rewrite !Z.shiftl_mul_pow2 by lia.
  rewrite !to_uint32_small by (unfold is_uint32, two32; lia).
  rewrite (lor_shifted_low r (g * 2 ^ 8) 16) by lia.
  replace (r * 2 ^ 16 + g * 2 ^ 8) with ((r * 256 + g) * 2 ^ 8) by ring.
  rewrite (lor_shifted_low (r * 256 + g) b 8) by lia.
  ring.
Qed.

(** X18: the word the servers store for a pixel is
    [65536 r + 256 g + b]: it stays below 2^24, and each of the three
    bytes can be read back from it, so two pixels that differ in a
    channel never share a word. *)
Theorem packed_round_trip (r g b : Z) :
  is_byte r -> is_byte g -> is_byte b ->
  let p := server.packed r g b in
  p = 65536 * r + 256 * g + b
  /\ 0 <= p < 16777216
  /\ Z.shiftr p 16 = r
  /\ Z.land (Z.shiftr p 8) 255 = g
  /\ Z.land p 255 = b
  /\ forall r' g' b',
       is_byte r' -> is_byte g' -> is_byte b' ->
       server.packed r' g' b' = p -> r' = r /\ g' = g /\ b' = b.
Proof.
  intros Hr Hg Hb p. subst p.
  rewrite (packed_value r g b Hr Hg Hb).
  unfold is_byte in *.
  change 255 with (Z.ones 8).
  rewrite !Z.land_ones, !Z.shiftr_div_pow2 by lia.
  change (2 ^ 16) with 65536. change (2 ^ 8) with 256.
  split; [reflexivity |]. split; [lia |].
  split; [symmetry; apply (Z.div_unique _ _ _ (256 * g + b)); lia |].
  assert (Hdiv : (65536 * r + 256 * g + b) / 256 = 256 * r + g)
    by (symmetry; apply (Z.div_unique _ _ _ b); lia).
  split; [rewrite Hdiv; symmetry; apply (Z.mod_unique _ _ r); lia |].
  split; [symmetry; apply (Z.mod_unique _ _ (256 * r + g)); lia |].
  intros r' g' b' Hr' Hg' Hb' Heq.
  rewrite (packed_value r' g' b' Hr' Hg' Hb') in Heq. lia.
Qed.

Lemma packed_round_trip_witness :
  is_byte 18 /\ is_byte 52 /\ is_byte 86
  /\ server.packed 18 52 86 = 1193046
  /\ Z.shiftr (server.packed 18 52 86) 16 = 18.
Proof.
  assert (Hr : is_byte 18) by (unfold is_byte; lia).
  assert (Hg : is_byte 52) by (unfold is_byte; lia).
  assert (Hb : is_byte 86) by (unfold is_byte; lia).
  split; [exact Hr | split; [exact Hg | split; [exact Hb |]]].
  destruct (packed_round_trip 18 52 86 Hr Hg Hb) as (Hp & _ & Hred & _).
  split; [exact Hp | exact Hred].
Defined.

(** ** The conversion of a frame *)

Lemma upto_snoc (n : Z) : 0 <= n -> upto (n + 1) = upto n ++ [n].
Proof.
  intros Hn. unfold upto.
  replace (Z.to_nat (n + 1)) with (S (Z.to_nat n)) by lia.
  rewrite seq_S, map_app. cbn [List.map Nat.add]. now rewrite Z2Nat.id.
Qed.

(** A counting loop whose body succeeds under an invariant. *)
Lemma for_range_outcome_invariant {St : Type} (P : Z -> St -> Prop)
  (n : Z) (body : Z -> St -> outcome St) (s : St) :
  0 <= n -> P 0 s ->
  (forall i s, 0 <= i < n -> P i s ->
     exists s', body i s = Returns s' /\ P (i + 1) s') ->
  exists s', for_range_outcome n body s = Returns s' /\ P n s'.
Proof.
  intros Hn Hinit Hstep.
  assert (Hloop : forall k : nat, Z.of_nat k <= n ->
            exists s', for_range_outcome (Z.of_nat k) body s = Returns s'
                       /\ P (Z.of_nat k) s').
  { induction k as [| k IH]; intros Hk.
    - exists s. split; [reflexivity | exact Hinit].
    - destruct IH as (s1 & Hrun & Hinv); [lia |].
      destruct (Hstep (Z.of_nat k) s1 ltac:(lia) Hinv) as (s2 & Hbody & Hinv').
      exists s2. split.
      + unfold for_range_outcome in *.
        replace (Z.of_nat (S k)) with (Z.of_nat k + 1) by lia.
        rewrite upto_snoc, fold_left_app by lia. cbn [fold_left].
        rewrite Hrun. exact Hbody.
      + replace (Z.of_nat (S k)) with (Z.of_nat k + 1) by lia. exact Hinv'. }
  destruct (Hloop (Z.to_nat n) ltac:(lia)) as (s' & Hrun & Hinv).
  rewrite Z2Nat.id in Hrun, Hinv by lia. now exists s'.
Qed.

Lemma vector_at_in_range {A : Type} (v : list A) (i : Z) (d : A) :
  0 <= i < Z.of_nat (List.length v) -> i < two31 ->
  vector_at v i = Returns (nth (Z.to_nat i) v d).
Proof.
  intros Hi Hlen. unfold vector_at.
  rewrite to_size_small by (unfold is_size, two64, two31 in *; lia).
  destruct (Z.ltb_spec i (Z.of_nat (List.length v))) as [_ | Hge]; [| lia].
  rewrite (nth_error_nth' v d) by lia. reflexivity.
Qed.

Lemma replace_nth_middle {A : Type} (front : list A) (old new : A)
  (back : list A) :
  replace_nth (List.length front) (front ++ old :: back) new
  = front ++ new :: back.
Proof.
  induction front as [| a front IH]; [reflexivity |].
  cbn [List.length app replace_nth]. now rewrite IH.
Qed.

Lemma skipn_cons_nth {A : Type} (v : list A) (n : nat) (d : A) :
  (n < List.length v)%nat -> skipn n v = nth n v d :: skipn (S n) v.
Proof.
  revert n. induction v as [| a v IH]; intros n Hn; [cbn in Hn; lia |].
  destruct n as [| n]; [reflexivity |].
  cbn [skipn nth]. apply IH. cbn in Hn. lia.
Qed.

(** The indices of pixel [(x, y)] are computed without overflow. *)
Lemma pixel_indices (x y : Z) :
  0 <= x < server.width -> 0 <= y < server.height ->
  let p := y * server.width + x in
  0 <= p < server.width * server.height
  /\ int_add (int_mul y server.width) x = p
  /\ int_mul p 3 = 3 * p
  /\ int_add (3 * p) 1 = 3 * p + 1
  /\ int_add (3 * p) 2 = 3 * p + 2.
Proof.
  intros Hx Hy p.
  assert (Hp : 0 <= p < 12288)
    by (unfold server.width, server.height in *; lia).
  split; [unfold server.width, server.height; lia |].
  unfold int_add, int_mul.
  rewrite (to_int_small (y * server.width))
    by (unfold is_int, two31, server.width, server.height in *; lia).
  fold p.
  rewrite !to_int_small by (unfold is_int, two31; lia).
  repeat split; ring.
Qed.

Lemma convert_pixel_step (frame_data : server.frame) (fb0 : server.framebuffer)
  (x y : Z) :
  0 <= x < server.width -> 0 <= y < server.height ->
  let p := y * server.width + x in
  3 * p + 3 <= Z.of_nat (List.length frame_data) ->
  p < Z.of_nat (List.length fb0) ->
  server.convert_pixel frame_data x y
    (List.map (server.converted_word frame_data) (upto p)
     ++ skipn (Z.to_nat p) fb0)
  = Returns (List.map (server.converted_word frame_data) (upto (p + 1))
             ++ skipn (Z.to_nat (p + 1)) fb0).
Proof.
  intros Hx Hy p Hframe Hfb.
  destruct (pixel_indices x y Hx Hy) as (Hp & Hpx & Hidx & Hidx1 & Hidx2).
  fold p in Hp, Hpx, Hidx, Hidx1, Hidx2.
  assert (Hp' : 0 <= p < 12288)
    by (unfold server.width, server.height in Hp; lia).
  unfold server.convert_pixel. cbv zeta.
  rewrite Hpx, Hidx, Hidx1, Hidx2.
  rewrite !(vector_at_in_range frame_data _ 0) by (unfold two31; lia).
  cbn [bind].
  fold (server.converted_word frame_data p).
  unfold vector_assign.
  rewrite to_size_small by (unfold is_size, two64; lia).
  assert (Hfront : List.length
                     (List.map (server.converted_word frame_data) (upto p))
                   = Z.to_nat p)
    by now rewrite length_map, length_upto.
  rewrite length_app, length_skipn, Hfront.
  destruct (Z.ltb_spec p
              (Z.of_nat (Z.to_nat p + (List.length fb0 - Z.to_nat p))))
    as [_ | Hge]; [| lia].
  f_equal.
  rewrite (skipn_cons_nth fb0 (Z.to_nat p) 0) by lia.
  rewrite <- Hfront at 1. rewrite replace_nth_middle.
  rewrite upto_snoc, map_app by lia. cbn [List.map].
  rewrite <- app_assoc. cbn [app].
  replace (Z.to_nat (p + 1)) with (S (Z.to_nat p)) by lia.
  reflexivity.
Qed.

(** A pixel whose bytes or whose word lie outside the vectors. *)
Lemma convert_pixel_outside (frame_data : server.frame)
  (fb : server.framebuffer) (x y : Z) :
  0 <= x < server.width -> 0 <= y < server.height ->
  let p := y * server.width + x in
  Z.of_nat (List.length frame_data) < 3 * p + 3
  \/ Z.of_nat (List.length fb) <= p ->
  server.convert_pixel frame_data x y fb = Undefined.
Proof.
  intros Hx Hy p Hout.
  destruct (pixel_indices x y Hx Hy) as (Hp & Hpx & Hidx & Hidx1 & Hidx2).
  fold p in Hp, Hpx, Hidx, Hidx1, Hidx2.
  assert (Hp' : 0 <= p < 12288)
    by (unfold server.width, server.height in Hp; lia).
  unfold server.convert_pixel. cbv zeta.
  rewrite Hpx, Hidx, Hidx1, Hidx2.
  unfold vector_at, vector_assign.
  rewrite !to_size_small by (unfold is_size, two64; lia).
  destruct (Z.ltb_spec (3 * p) (Z.of_nat (List.length frame_data)));
    [| reflexivity].
  destruct (nth_error frame_data (Z.to_nat (3 * p))); [| reflexivity].
  cbn [bind].
  destruct (Z.ltb_spec (3 * p + 1) (Z.of_nat (List.length frame_data)));
    [| reflexivity].
  destruct (nth_error frame_data (Z.to_nat (3 * p + 1))); [| reflexivity].
  cbn [bind].
  destruct (Z.ltb_spec (3 * p + 2) (Z.of_nat (List.length frame_data)));
    [| reflexivity].
  destruct (nth_error frame_data (Z.to_nat (3 * p + 2))); [| reflexivity].
  cbn [bind].
  destruct (Z.ltb_spec p (Z.of_nat (List.length fb))); [lia | reflexivity].
Qed.

(** A counting loop whose body fails at some index. *)
Lemma upto_split (n i : Z) :
  0 <= i < n -> exists rest, upto n = upto i ++ i :: rest.
Proof.
  intros Hi.
  assert (Hloop : forall j : nat,
            exists rest, upto (i + 1 + Z.of_nat j) = upto i ++ i :: rest).
  { induction j as [| j [rest IH]].
    - exists []. rewrite Z.add_0_r. now apply upto_snoc.
    - exists (rest ++ [i + 1 + Z.of_nat j]).
      replace (i + 1 + Z.of_nat (S j)) with (i + 1 + Z.of_nat j + 1) by lia.
      rewrite upto_snoc, IH by lia. now rewrite <- app_assoc. }
  destruct (Hloop (Z.to_nat (n - (i + 1)))) as [rest Hrest].
  exists rest. rewrite <- Hrest. f_equal. lia.
Qed.

Lemma fold_left_undefined {St : Type} (body : Z -> St -> outcome St)
  (l : list Z) :
  fold_left (fun acc i => s <- acc ;; body i s) l Undefined = Undefined.
Proof. induction l as [| i l IH]; [reflexivity | exact IH]. Qed.

Lemma for_range_outcome_fails {St : Type} (n i : Z)
  (body : Z -> St -> outcome St) (s s1 : St) :
  0 <= i < n ->
  for_range_outcome i body s = Returns s1 ->
  body i s1 = Undefined ->
  for_range_outcome n body s = Undefined.
Proof.
  intros Hi Hprefix Hfail. unfold for_range_outcome in *.
  destruct (upto_split n i Hi) as [rest ->].
  rewrite fold_left_app, Hprefix. cbn [fold_left bind]. rewrite Hfail.
  apply fold_left_undefined.
Qed.

(** The first [x0] pixels of row [y]. *)
Lemma convert_row_prefix (frame_data : server.frame)
  (fb0 : server.framebuffer) (y x0 : Z) :
  0 <= y < server.height -> 0 <= x0 <= server.width ->
  3 * (y * server.width + x0) <= Z.of_nat (List.length frame_data) ->
  y * server.width + x0 <= Z.of_nat (List.length fb0) ->
  for_range_outcome x0
    (fun x fb => server.convert_pixel frame_data x y fb)
    (List.map (server.converted_word frame_data) (upto (y * server.width))
     ++ skipn (Z.to_nat (y * server.width)) fb0)
  = Returns
      (List.map (server.converted_word frame_data)
         (upto (y * server.width + x0))
       ++ skipn (Z.to_nat (y * server.width + x0)) fb0).
Proof.
  intros Hy Hx0 Hframe Hfb.
  destruct (for_range_outcome_invariant
              (fun x fb =>
                 fb = List.map (server.converted_word frame_data)
                        (upto (y * server.width + x))
                      ++ skipn (Z.to_nat (y * server.width + x)) fb0)
              x0
              (fun x fb => server.convert_pixel frame_data x y fb)
              (List.map (server.converted_word frame_data)
                 (upto (y * server.width))
               ++ skipn (Z.to_nat (y * server.width)) fb0))
    as (fb & Hrun & Hinv).
  - lia.
  - now rewrite Z.add_0_r.
  - intros x fb Hx ->. eexists. split.
    + apply convert_pixel_step; lia.
    + now rewrite Z.add_assoc.
  - subst fb. exact Hrun.
Qed.

(** The first [y0] rows. *)
Lemma convert_rows_prefix (frame_data : server.frame)
  (fb0 : server.framebuffer) (y0 : Z) :
  0 <= y0 <= server.height ->
  3 * (y0 * server.width) <= Z.of_nat (List.length frame_data) ->
  y0 * server.width <= Z.of_nat (List.length fb0) ->
  for_range_outcome y0
    (fun y fb =>
       for_range_outcome server.width
         (fun x fb => server.convert_pixel frame_data x y fb) fb)
    fb0
  = Returns
      (List.map (server.converted_word frame_data) (upto (y0 * server.width))
       ++ skipn (Z.to_nat (y0 * server.width)) fb0).
Proof.
  intros Hy0 Hframe Hfb.
  assert (Hwidth : server.width = 192) by reflexivity.
  destruct (for_range_outcome_invariant
              (fun y fb =>
                 fb = List.map (server.converted_word frame_data)
                        (upto (y * server.width))
                      ++ skipn (Z.to_nat (y * server.width)) fb0)
              y0
              (fun y fb =>
                 for_range_outcome server.width
                   (fun x fb => server.convert_pixel frame_data x y fb) fb)
              fb0) as (fb & Hrun & Hinv).
  - lia.
  - reflexivity.
  - intros y fb Hy ->. eexists. split.
    + apply convert_row_prefix; lia.
    + now replace ((y + 1) * server.width)
        with (y * server.width + server.width) by ring.
  - subst fb. exact Hrun.
Qed.

Lemma convert_frame_returns (frame_data : server.frame)
  (fb0 : server.framebuffer) :
  server.width * server.height * 3 <= Z.of_nat (List.length frame_data) ->
  server.width * server.height <= Z.of_nat (List.length fb0) ->
  server.convert_frame frame_data fb0
  = Returns (List.map (server.converted_word frame_data)
               (upto (server.width * server.height))
             ++ skipn (Z.to_nat (server.width * server.height)) fb0).
Proof.
  intros Hframe Hfb. unfold server.convert_frame.
  rewrite convert_rows_prefix
    by (unfold server.width, server.height in *; lia).
  now rewrite (Z.mul_comm server.height server.width).
Qed.

Lemma convert_frame_prefix (frame_data : server.frame)
  (fb0 : server.framebuffer) :
  Z.of_nat (List.length frame_data) = server.width * server.height * 3 ->
  Z.of_nat (List.length fb0) = server.width * server.height ->
  server.convert_frame frame_data fb0
  = Returns (List.map (server.converted_word frame_data)
               (upto (server.width * server.height))).
Proof.
  intros Hframe Hfb. rewrite convert_frame_returns by lia.
  rewrite skipn_all2 by lia. now rewrite app_nil_r.
Qed.

Lemma convert_frame_outside (frame_data : server.frame)
  (fb0 : server.framebuffer) :
  Z.of_nat (List.length frame_data) < server.width * server.height * 3
  \/ Z.of_nat (List.length fb0) < server.width * server.height ->
  server.convert_frame frame_data fb0 = Undefined.
Proof.
  intros Hshort.
  set (L := Z.of_nat (List.length frame_data)) in *.
  set (M := Z.of_nat (List.length fb0)) in *.
  assert (HL : 0 <= L) by (unfold L; lia).
  assert (HM : 0 <= M) by (unfold M; lia).
  set (k0 := Z.min (L / 3) M).
  assert (Hwidth : server.width = 192) by reflexivity.
  assert (Hheight : server.height = 64) by reflexivity.
  assert (Hthird : 3 * (L / 3) <= L < 3 * (L / 3) + 3)
    by (pose proof (Z.div_mod L 3 ltac:(lia));
        pose proof (Z.mod_pos_bound L 3 ltac:(lia)); lia).
  assert (Hk0 : 0 <= k0 < 12288) by (rewrite Hwidth, Hheight in Hshort; lia).
  assert (Hk0L : 3 * k0 <= L) by lia.
  assert (Hk0M : k0 <= M) by lia.
  assert (Hout : L < 3 * k0 + 3 \/ M <= k0) by lia.
  pose proof (Z.div_mod k0 192 ltac:(lia)) as Hsplit.
  pose proof (Z.mod_pos_bound k0 192 ltac:(lia)) as Hx0.
  set (y0 := k0 / 192) in *. set (x0 := k0 mod 192) in *.
  assert (Hy0 : 0 <= y0 < 64) by lia.
  assert (Hpos : y0 * server.width + x0 = k0) by (rewrite Hwidth; lia).
  unfold server.convert_frame.
  apply (for_range_outcome_fails server.height y0 _ fb0
           (List.map (server.converted_word frame_data)
              (upto (y0 * server.width))
            ++ skipn (Z.to_nat (y0 * server.width)) fb0)).
  - rewrite Hheight. lia.
  - apply convert_rows_prefix; fold L M; rewrite ?Hwidth, ?Hheight; lia.
  - apply (for_range_outcome_fails server.width x0 _ _
             (List.map (server.converted_word frame_data)
                (upto (y0 * server.width + x0))
              ++ skipn (Z.to_nat (y0 * server.width + x0)) fb0)).
    + rewrite Hwidth. lia.
    + apply convert_row_prefix; fold L M; rewrite ?Hwidth, ?Hheight; lia.
    + apply convert_pixel_outside; rewrite ?Hwidth, ?Hheight; try lia.
      cbv zeta. rewrite <- Hwidth, Hpos.
      rewrite length_app, length_map, length_upto, length_skipn.
      fold L. lia.
Qed.

(** X19: given a frame of [width * height * 3] bytes and a framebuffer
    of [width * height] words, the conversion loops stay inside both
    vectors and return a framebuffer of the same length whose word
    [y * width + x] packs the bytes [3k], [3k + 1], [3k + 2] of the
    frame, [k = y * width + x]; nothing of the old framebuffer
    survives. *)
Theorem convert_frame_replaces_framebuffer (frame_data : server.frame)
  (fb0 : server.framebuffer) :
  Z.of_nat (List.length frame_data) = server.width * server.height * 3 ->
  Z.of_nat (List.length fb0) = server.width * server.height ->
  Forall is_byte frame_data ->
  exists fb,
    server.convert_frame frame_data fb0 = Returns fb
    /\ List.length fb = List.length fb0
    /\ forall x y,
         0 <= x < server.width -> 0 <= y < server.height ->
         let k := y * server.width + x in
         nth_error fb (Z.to_nat k)
         = Some (65536 * nth (Z.to_nat (3 * k)) frame_data 0
                 + 256 * nth (Z.to_nat (3 * k + 1)) frame_data 0
                 + nth (Z.to_nat (3 * k + 2)) frame_data 0).
Proof.
  intros Hframe Hfb Hbytes.
  exists (List.map (server.converted_word frame_data)
            (upto (server.width * server.height))).
  split; [now apply convert_frame_prefix |].
  split; [rewrite length_map, length_upto; lia |].
  intros x y Hx Hy k.
  assert (Hk : 0 <= k < server.width * server.height)
    by (unfold k, server.width, server.height in *; lia).
  rewrite nth_error_map_upto by exact Hk. f_equal.
  assert (Hbyte : forall i, 0 <= i < 3 * (server.width * server.height) ->
                    is_byte (nth (Z.to_nat i) frame_data 0)).
  { intros i Hi. rewrite Forall_forall in Hbytes. apply Hbytes, nth_In. lia. }
  unfold server.converted_word.
  rewrite !to_uint32_small
    by (match goal with
        | |- is_uint32 (nth (Z.to_nat ?i) _ _) =>
            pose proof (Hbyte i ltac:(lia)) as Hb;
            unfold is_byte in Hb; unfold is_uint32, two32; lia
        end).
  apply packed_value; apply Hbyte; lia.
Qed.

Lemma convert_frame_replaces_framebuffer_witness :
  exists fb,
    server.convert_frame (repeat 0 (Z.to_nat 36864)) (repeat 7 (Z.to_nat 12288))
    = Returns fb
    /\ List.length fb = List.length (repeat 7 (Z.to_nat 12288))
    /\ nth_error fb (Z.to_nat (5 * server.width + 3)) = Some 0.
Proof.
  assert (Hframe : Z.of_nat (List.length (repeat 0 (Z.to_nat 36864)))
                   = server.width * server.height * 3)
    by (rewrite repeat_length; reflexivity).
  assert (Hfb : Z.of_nat (List.length (repeat 7 (Z.to_nat 12288)))
                = server.width * server.height)
    by (rewrite repeat_length; reflexivity).
  assert (Hbytes : Forall is_byte (repeat 0 (Z.to_nat 36864))).
  { apply Forall_forall. intros b Hb. apply repeat_spec in Hb. subst b.
    unfold is_byte. lia. }
  destruct (convert_frame_replaces_framebuffer _ _ Hframe Hfb Hbytes)
    as (fb & Hrun & Hlen & Hword).
  exists fb. split; [exact Hrun | split; [exact Hlen |]].
  assert (Hx : 0 <= 3 < server.width) by (unfold server.width; lia).
  assert (Hy : 0 <= 5 < server.height) by (unfold server.height; lia).
  rewrite (Hword 3 5 Hx Hy).
  rewrite !nth_repeat. reflexivity.
Defined.

(** X20: the conversion is defined exactly when the frame holds at
    least [width * height * 3] bytes and the framebuffer at least
    [width * height] words; words of the framebuffer beyond these keep
    their value.  With a shorter frame or a shorter framebuffer the
    loops leave one of the vectors and the behaviour is undefined. *)
Theorem convert_frame_defined_iff (frame_data : server.frame)
  (fb0 : server.framebuffer) :
  ((exists fb, server.convert_frame frame_data fb0 = Returns fb)
   <-> server.width * server.height * 3 <= Z.of_nat (List.length frame_data)
       /\ server.width * server.height <= Z.of_nat (List.length fb0))
  /\ (server.width * server.height * 3 <= Z.of_nat (List.length frame_data)
      /\ server.width * server.height <= Z.of_nat (List.length fb0) ->
      server.convert_frame frame_data fb0
      = Returns (List.map (server.converted_word frame_data)
                   (upto (server.width * server.height))
                 ++ skipn (Z.to_nat (server.width * server.height)) fb0))
  /\ (Z.of_nat (List.length frame_data) < server.width * server.height * 3
      \/ Z.of_nat (List.length fb0) < server.width * server.height ->
      server.convert_frame frame_data fb0 = Undefined).
Proof.
  split; [split |].
  - intros [fb Hrun].
    destruct (Z.le_gt_cases (server.width * server.height * 3)
                (Z.of_nat (List.length frame_data))) as [Hframe | Hframe].
    + destruct (Z.le_gt_cases (server.width * server.height)
                  (Z.of_nat (List.length fb0))) as [Hfb | Hfb];
        [now split |].
      rewrite convert_frame_outside in Hrun by (right; exact Hfb).
      discriminate Hrun.
    + rewrite convert_frame_outside in Hrun by (left; exact Hframe).
      discriminate Hrun.
  - intros [Hframe Hfb]. eexists. now apply convert_frame_returns.
  - split.
    + intros [Hframe Hfb]. now apply convert_frame_returns.
    + apply convert_frame_outside.
Qed.

(** ** The frame queue *)

Lemma drop_stale_skipn (frame_queue : list server.frame) :
  server.drop_stale frame_queue
  = skipn (List.length frame_queue - 2) frame_queue.
Proof.
  induction frame_queue as [| frame_data rest IH]; [reflexivity |].
  cbn [server.drop_stale].
  destruct (Z.ltb_spec 2 (Z.of_nat (List.length (frame_data :: rest))))
    as [Hlong | Hshort]; cbn [List.length] in *.
  - rewrite IH.
    replace (S (List.length rest) - 2)%nat
      with (S (List.length rest - 2)) by lia.
    reflexivity.
  - replace (S (List.length rest) - 2)%nat with 0%nat by lia. reflexivity.
Qed.

Lemma enqueue_frame_length (frame_queue : list server.frame)
  (frame_data : server.frame) :
  (List.length (server.enqueue_frame frame_queue frame_data) <= 3)%nat.
Proof.
  unfold server.enqueue_frame, push_back.
  rewrite drop_stale_skipn, length_app, length_skipn. cbn [List.length]. lia.
Qed.

Lemma Forall_skipn {A : Type} (P : A -> Prop) (n : nat) (l : list A) :
  Forall P l -> Forall P (skipn n l).
Proof.
  intros Hall. rewrite <- (firstn_skipn n l) in Hall.
  now apply Forall_app in Hall.
Qed.

(** X21: queueing a frame first drops stale frames from the front
    until at most two are left, then appends the new one: the queue
    afterwards holds the two newest of the frames it held, in their
    order, followed by the new frame, and so never more than three. *)
Theorem enqueue_frame_keeps_two_newest (frame_queue : list server.frame)
  (frame_data : server.frame) :
  let queued := server.enqueue_frame frame_queue frame_data in
  queued = skipn (List.length frame_queue - 2) frame_queue ++ [frame_data]
  /\ List.length queued = S (Nat.min 2 (List.length frame_queue))
  /\ (List.length queued <= 3)%nat
  /\ ((List.length frame_queue <= 2)%nat -> queued = frame_queue ++ [frame_data])
  /\ forall older newer1 newer2,
       frame_queue = older ++ [newer1; newer2] ->
       queued = [newer1; newer2; frame_data].
Proof.
  cbv zeta.
  assert (Hqueued : server.enqueue_frame frame_queue frame_data
                    = skipn (List.length frame_queue - 2) frame_queue
                      ++ [frame_data])
    by (unfold server.enqueue_frame, push_back; now rewrite drop_stale_skipn).
  split; [exact Hqueued |].
  split; [rewrite Hqueued, length_app, length_skipn; cbn [List.length]; lia |].
  split; [apply enqueue_frame_length |].
  split.
  - intros Hshort. rewrite Hqueued.
    replace (List.length frame_queue - 2)%nat with 0%nat by lia. reflexivity.
  - intros older newer1 newer2 ->. rewrite Hqueued.
    rewrite length_app. cbn [List.length].
    replace (List.length older + 2 - 2)%nat with (List.length older) by lia.
    rewrite skipn_app, skipn_all, Nat.sub_diag. reflexivity.
Qed.

(** ** The states of the WebSocket server *)

Lemma length_list_ascii_of_string (s : string) :
  List.length (list_ascii_of_string s) = String.length s.
Proof. induction s as [| c s IH]; [reflexivity | cbn; now rewrite IH]. Qed.

Lemma bytes_of_length (payload : string) :
  List.length (server.bytes_of payload) = String.length payload.
Proof.
  unfold server.bytes_of. now rewrite length_map, length_list_ascii_of_string.
Qed.

Lemma bytes_of_bytes (payload : string) :
  Forall is_byte (server.bytes_of payload).
Proof.
  unfold server.bytes_of. apply Forall_forall. intros b Hb.
  apply in_map_iff in Hb as (c & <- & _).
  pose proof (Ascii.nat_ascii_bounded c). unfold is_byte. lia.
Qed.

Lemma frame_size_value :
  to_size (int_mul (int_mul server.width server.height) 3)
  = server.width * server.height * 3.
Proof. reflexivity. Qed.

Lemma handle_command_framebuffer (fps cmd : string) (st : server.state) :
  server.frame_queue_ (fst (server.handle_command fps cmd st))
  = server.frame_queue_ st
  /\ List.length (server.framebuffer_ (fst (server.handle_command fps cmd st)))
     = List.length (server.framebuffer_ st).
Proof.
  unfold server.handle_command.
  destruct (String.eqb cmd "CLEAR").
  - cbn [fst server.frame_queue_ server.framebuffer_]. unfold server.clear.
    now rewrite length_map.
  - destruct (String.eqb (substring 0 10 cmd) "BRIGHTNESS"); [now split |].
    destruct (String.eqb cmd "INFO"); now split.
Qed.

(** What every reachable state has: a short queue of whole frames and
    a whole framebuffer. *)
Lemma reachable_well_formed (fps : string) (st : server.state) :
  server.reachable fps st ->
  (List.length (server.frame_queue_ st) <= 3)%nat
  /\ Forall (fun frame_data : server.frame =>
               Z.of_nat (List.length frame_data)
               = server.width * server.height * 3)
       (server.frame_queue_ st)
  /\ Z.of_nat (List.length (server.framebuffer_ st))
     = server.width * server.height.
Proof.
  induction 1 as [| payload st Hreach (Hlen & Hframes & Hfb)
                  | st st' events Hreach (Hlen & Hframes & Hfb) Hrender].
  - split; [cbn; lia |]. split; [constructor |].
    unfold server.initial. cbn [server.framebuffer_].
    rewrite repeat_length. reflexivity.
  - unfold server.on_message.
    destruct (String.eqb (substring 0 4 payload) "CMD:").
    + destruct (handle_command_framebuffer fps
                  (substring 4 (String.length payload - 4) payload) st)
        as [Hqueue Hsame].
      rewrite Hqueue, Hsame. now repeat split.
    + destruct (Z.eqb_spec (Z.of_nat (String.length payload))
                  (to_size (int_mul (int_mul server.width server.height) 3)))
        as [Hsize | _]; [| now repeat split].
      cbn [fst server.frame_queue_ server.framebuffer_].
      split; [apply enqueue_frame_length |]. split; [| exact Hfb].
      unfold server.enqueue_frame, push_back. rewrite drop_stale_skipn.
      apply Forall_app. split; [now apply Forall_skipn |].
      constructor; [| constructor].
      rewrite bytes_of_length, Hsize. apply frame_size_value.
  - unfold server.render_frame in Hrender.
    destruct (server.frame_queue_ st) as [| frame_data rest] eqn:Hqueue;
      [discriminate Hrender |].
    apply Forall_cons_iff in Hframes as [Hframe Hrest].
    rewrite (convert_frame_prefix _ _ Hframe Hfb) in Hrender.
    assert (Hwords : Z.of_nat
                       (List.length
                          (List.map (server.converted_word frame_data)
                             (upto (server.width * server.height))))
                     = server.width * server.height)
      by (rewrite length_map, length_upto;
          unfold server.width, server.height; lia).
    revert Hrender Hwords.
    generalize (List.map (server.converted_word frame_data)
                  (upto (server.width * server.height))).
    intros fb Hrender Hwords. cbn [bind] in Hrender.
    injection Hrender as <- _.
    cbn [server.frame_queue_ server.framebuffer_].
    split; [cbn [List.length] in Hlen; lia |]. split; [exact Hrest |].
    exact Hwords.
Qed.

(** A payload of the size of a frame that does not start with the
    command prefix is queued. *)
Lemma on_message_queues_frame (fps payload : string) (st : server.state) :
  substring 0 4 payload <> "CMD:"%string ->
  Z.of_nat (String.length payload) = server.width * server.height * 3 ->
  server.on_message fps payload st
  = ({| server.frame_queue_ :=
          server.enqueue_frame (server.frame_queue_ st)
            (server.bytes_of payload);
        server.framebuffer_ := server.framebuffer_ st |}, []).
Proof.
  intros Hprefix Hsize. unfold server.on_message.
  destruct (String.eqb_spec (substring 0 4 payload) "CMD:") as [Hcmd | _];
    [contradiction |].
  rewrite frame_size_value.
  destruct (Z.eqb_spec (Z.of_nat (String.length payload))
              (server.width * server.height * 3)) as [_ | Hne];
    [reflexivity | contradiction].
Qed.

(** X22: in every state the WebSocket server reaches from the one its
    constructor leaves, by messages and by rendered frames, the queue
    holds at most three frames, each of exactly
    [width * height * 3] bytes, the framebuffer has
    [width * height] words, and rendering the frame at the front of
    the queue stays inside both vectors: it returns, shows the
    framebuffer once and takes that frame off the queue. *)
Theorem reachable_states_render_safely (fps : string) (st : server.state) :
  server.reachable fps st ->
  (List.length (server.frame_queue_ st) <= 3)%nat
  /\ Forall (fun frame_data : server.frame =>
               Z.of_nat (List.length frame_data)
               = server.width * server.height * 3)
       (server.frame_queue_ st)
  /\ Z.of_nat (List.length (server.framebuffer_ st))
     = server.width * server.height
  /\ forall frame_data rest,
       server.frame_queue_ st = frame_data :: rest ->
       exists fb,
         server.render_frame st
         = Some (Returns ({| server.frame_queue_ := rest;
                             server.framebuffer_ := fb |}, [server.show]))
         /\ List.length fb = List.length (server.framebuffer_ st).
Proof.
  intros Hreach.
  destruct (reachable_well_formed fps st Hreach) as (Hlen & Hframes & Hfb).
  split; [exact Hlen |]. split; [exact Hframes |]. split; [exact Hfb |].
  intros frame_data rest Hqueue. rewrite Hqueue in Hframes.
  apply Forall_cons_iff in Hframes as [Hframe _].
  unfold server.render_frame. rewrite Hqueue.
  rewrite (convert_frame_prefix _ _ Hframe Hfb). cbn [bind].
  eexists. split; [reflexivity |].
  rewrite length_map, length_upto. lia.
Qed.

Lemma reachable_states_render_safely_witness :
  server.reachable "60.000000"
    (fst (server.on_message "60.000000"
            (string_of_list_ascii (repeat (Ascii.ascii_of_nat 97) (Z.to_nat 36864)))
            server.initial))
  /\ server.frame_queue_
       (fst (server.on_message "60.000000"
               (string_of_list_ascii (repeat (Ascii.ascii_of_nat 97) (Z.to_nat 36864)))
               server.initial))
     = [server.bytes_of
          (string_of_list_ascii (repeat (Ascii.ascii_of_nat 97) (Z.to_nat 36864)))]
  /\ exists fb,
       server.render_frame
         (fst (server.on_message "60.000000"
                 (string_of_list_ascii (repeat (Ascii.ascii_of_nat 97) (Z.to_nat 36864)))
                 server.initial))
       = Some (Returns ({| server.frame_queue_ := [];
                           server.framebuffer_ := fb |}, [server.show]))
       /\ Z.of_nat (List.length fb) = server.width * server.height.
Proof.
  assert (Hprefix : substring 0 4
                      (string_of_list_ascii (repeat (Ascii.ascii_of_nat 97) (Z.to_nat 36864)))
                    <> "CMD:"%string)
    by (vm_compute; discriminate).
  assert (Hsize : Z.of_nat
                    (String.length
                       (string_of_list_ascii
                          (repeat (Ascii.ascii_of_nat 97) (Z.to_nat 36864))))
                  = server.width * server.height * 3)
    by (vm_compute; reflexivity).
  pose proof (on_message_queues_frame "60.000000" _ server.initial
                Hprefix Hsize) as Hstep.
  assert (Hreach : server.reachable "60.000000"
                     (fst (server.on_message "60.000000"
                             (string_of_list_ascii
                                (repeat (Ascii.ascii_of_nat 97) (Z.to_nat 36864)))
                             server.initial)))
    by (apply server.reachable_message, server.reachable_initial).
  assert (Hqueue : server.frame_queue_
                     (fst (server.on_message "60.000000"
                             (string_of_list_ascii
                                (repeat (Ascii.ascii_of_nat 97) (Z.to_nat 36864)))
                             server.initial))
                   = [server.bytes_of
                        (string_of_list_ascii
                           (repeat (Ascii.ascii_of_nat 97) (Z.to_nat 36864)))])
    by (rewrite Hstep; reflexivity).
  split; [exact Hreach | split; [exact Hqueue |]].
  destruct (reachable_states_render_safely "60.000000" _ Hreach)
    as (_ & _ & Hfb & Hrender).
  destruct (Hrender _ _ Hqueue) as (fb & Hrun & Hlen).
  exists fb. split; [exact Hrun |]. rewrite Hlen. exact Hfb.
Defined.

(** ** Messages of the WebSocket server *)

Lemma substring_whole (s : string) : substring 0 (String.length s) s = s.
Proof. induction s as [| c s IH]; [reflexivity | cbn; now rewrite IH]. Qed.

(** A payload that starts with the four characters of the command
    prefix is that prefix followed by the command. *)
Lemma command_payload (payload : string) :
  substring 0 4 payload = "CMD:"%string ->
  payload
  = String.append "CMD:" (substring 4 (String.length payload - 4) payload).
Proof.
  intros Hprefix.
  destruct payload as [| c1 [| c2 [| c3 [| c4 rest]]]];
    try discriminate Hprefix.
  cbn in Hprefix. injection Hprefix as -> -> -> ->.
  cbn [String.length Nat.sub substring String.append].
  now rewrite Nat.sub_0_r, substring_whole.
Qed.

(** X23: what a message can do to the WebSocket server.  The
    framebuffer changes only for the text [CMD:CLEAR], exactly, and
    then every word is zero; the queue changes only for a payload of
    [width * height * 3] bytes that does not start with [CMD:], so a
    frame whose first four bytes spell [CMD:] is never queued; a text
    is sent back only for [CMD:INFO]. *)
Theorem on_message_effects (fps payload : string) (st : server.state) :
  let st' := fst (server.on_message fps payload st) in
  let events := snd (server.on_message fps payload st) in
  (server.framebuffer_ st' <> server.framebuffer_ st ->
     payload = "CMD:CLEAR"%string)
  /\ (payload = "CMD:CLEAR"%string ->
        server.framebuffer_ st'
        = repeat 0 (List.length (server.framebuffer_ st))
        /\ events = [server.show])
  /\ (server.frame_queue_ st' <> server.frame_queue_ st ->
        substring 0 4 payload <> "CMD:"%string
        /\ Z.of_nat (String.length payload)
           = server.width * server.height * 3
        /\ server.frame_queue_ st'
           = server.enqueue_frame (server.frame_queue_ st)
               (server.bytes_of payload))
  /\ (substring 0 4 payload = "CMD:"%string ->
        server.frame_queue_ st' = server.frame_queue_ st)
  /\ (forall text, In (server.send text) events ->
        payload = "CMD:INFO"%string /\ text = String.append "FPS:" fps).
Proof.
  cbv zeta. unfold server.on_message.
  destruct (String.eqb_spec (substring 0 4 payload) "CMD:") as [Hcmd | Hframe].
  - pose proof (command_payload payload Hcmd) as Hpayload.
    set (cmd := substring 4 (String.length payload - 4) payload) in *.
    unfold server.handle_command.
    destruct (String.eqb_spec cmd "CLEAR") as [Hclear | Hother].
    + cbn [fst snd server.framebuffer_ server.frame_queue_].
      rewrite Hclear in Hpayload. cbn in Hpayload.
      split; [intros _; exact Hpayload |].
      split.
      { intros _. split; [| reflexivity]. unfold server.clear.
        induction (server.framebuffer_ st) as [| w fb IH]; [reflexivity |].
        cbn. now rewrite IH. }
      split; [intros Hchanged; now contradiction Hchanged |].
      split; [reflexivity |].
      intros text [Hin | []]. discriminate Hin.
    + assert (Hnot_clear : payload <> "CMD:CLEAR"%string).
      { intros Heq. rewrite Heq in Hpayload. apply Hother.
        unfold cmd. rewrite Heq. reflexivity. }
      destruct (String.eqb (substring 0 10 cmd) "BRIGHTNESS").
      * cbn [fst snd].
        split; [intros Hchanged; now contradiction Hchanged |].
        split; [intros Heq; now contradiction Hnot_clear |].
        split; [intros Hchanged; now contradiction Hchanged |].
        split; [reflexivity |]. intros text [].
      * destruct (String.eqb_spec cmd "INFO") as [Hinfo | _].
        -- cbn [fst snd].
           split; [intros Hchanged; now contradiction Hchanged |].
           split; [intros Heq; now contradiction Hnot_clear |].
           split; [intros Hchanged; now contradiction Hchanged |].
           split; [reflexivity |].
           intros text [Hin | []]. injection Hin as <-.
           rewrite Hinfo in Hpayload. now split.
        -- cbn [fst snd].
           split; [intros Hchanged; now contradiction Hchanged |].
           split; [intros Heq; now contradiction Hnot_clear |].
           split; [intros Hchanged; now contradiction Hchanged |].
           split; [reflexivity |]. intros text [].
  - assert (Hnot_clear : payload <> "CMD:CLEAR"%string)
      by (intros Heq; apply Hframe; now rewrite Heq).
    destruct (Z.eqb_spec (Z.of_nat (String.length payload))
                (to_size (int_mul (int_mul server.width server.height) 3)))
      as [Hsize | _].
    + cbn [fst snd server.framebuffer_ server.frame_queue_].
      split; [intros Hchanged; now contradiction Hchanged |].
      split; [intros Heq; now contradiction Hnot_clear |].
      split; [intros _; split; [exact Hframe | split; [| reflexivity]] |].
      { rewrite Hsize. apply frame_size_value. }
      split; [intros Hcmd; now contradiction Hframe |]. intros text [].
    + cbn [fst snd].
      split; [intros Hchanged; now contradiction Hchanged |].
      split; [intros Heq; now contradiction Hnot_clear |].
      split; [intros Hchanged; now contradiction Hchanged |].
      split; [intros Hcmd; now contradiction Hframe |]. intros text [].
Qed.

(** ** Packets of the TCP server *)

Lemma clear_zeroes (fb : server.framebuffer) :
  server.clear fb = repeat 0 (List.length fb).
Proof.
  unfold server.clear. induction fb as [| w fb IH]; [reflexivity |].
  cbn. now rewrite IH.
Qed.

Lemma handle_packet_short (received : string) (st : server.state) :
  Z.of_nat (String.length received) < server.width * server.height * 3 ->
  server.frame_queue_ (fst (server.handle_packet received st))
  = server.frame_queue_ st.
Proof.
  intros Hshort. unfold server.handle_packet. cbv zeta.
  change (int_mul (int_mul server.width server.height) 3)
    with (server.width * server.height * 3).
  destruct (Z.ltb_spec (Z.of_nat (String.length received))
              (server.width * server.height * 3)) as [_ | Hge]; [| lia].
  destruct (index 0 "CMD:CLEAR" received); reflexivity.
Qed.

(** X24: what the bytes of one [recv] call can do to the TCP server.
    Packets shorter than a frame never change the queue, so a frame
    that arrives in pieces is never queued; such a packet clears the
    framebuffer exactly when the text [CMD:CLEAR] occurs somewhere in
    it.  A packet of exactly [width * height * 3] bytes is queued
    whatever it contains, a longer one is ignored, and the framebuffer
    changes for no packet but a short one holding [CMD:CLEAR]. *)
Theorem handle_packet_effects (received : string) (st : server.state) :
  let size := Z.of_nat (String.length received) in
  let frame_size := server.width * server.height * 3 in
  let st' := fst (server.handle_packet received st) in
  let events := snd (server.handle_packet received st) in
  (forall pieces : list string,
     Forall (fun piece => Z.of_nat (String.length piece) < frame_size)
       pieces ->
     server.frame_queue_
       (fold_left (fun st piece => fst (server.handle_packet piece st))
          pieces st)
     = server.frame_queue_ st)
  /\ (size < frame_size ->
        (exists m, substring m 9 received = "CMD:CLEAR"%string) ->
        server.framebuffer_ st'
        = repeat 0 (List.length (server.framebuffer_ st))
        /\ events = [server.show])
  /\ (server.framebuffer_ st' <> server.framebuffer_ st ->
        size < frame_size
        /\ exists m, substring m 9 received = "CMD:CLEAR"%string)
  /\ (size = frame_size ->
        server.handle_packet received st
        = ({| server.frame_queue_ :=
                server.enqueue_frame (server.frame_queue_ st)
                  (server.bytes_of received);
              server.framebuffer_ := server.framebuffer_ st |}, []))
  /\ (frame_size < size -> server.handle_packet received st = (st, [])).
Proof.
  cbv zeta. split.
  { intros pieces. revert st.
    induction pieces as [| piece pieces IH]; intros st Hshort;
      [reflexivity |].
    apply Forall_cons_iff in Hshort as [Hpiece Hrest].
    cbn [fold_left]. rewrite (IH _ Hrest).
    now apply handle_packet_short. }
  unfold server.handle_packet. cbv zeta.
  change (int_mul (int_mul server.width server.height) 3)
    with (server.width * server.height * 3).
  destruct (Z.ltb_spec (Z.of_nat (String.length received))
              (server.width * server.height * 3)) as [Hshort | Hlong].
  - destruct (index 0 "CMD:CLEAR" received) as [m |] eqn:Hfind.
    + cbn [fst snd server.framebuffer_].
      split; [intros _ _; split; [apply clear_zeroes | reflexivity] |].
      split.
      { intros _. split; [exact Hshort |]. exists m.
        exact (index_correct1 0 m "CMD:CLEAR" received Hfind). }
      split; [lia | lia].
    + cbn [fst snd].
      split.
      { intros _ [m Hm]. exfalso.
        apply (index_correct3 0 m "CMD:CLEAR" received Hfind);
          [discriminate | lia | exact Hm]. }
      split; [intros Hchanged; now contradiction Hchanged |].
      split; [lia | lia].
  - destruct (Z.eqb_spec (Z.of_nat (String.length received))
                (server.width * server.height * 3)) as [Hsize | Hsize].
    + cbn [fst snd server.framebuffer_].
      split; [lia |].
      split; [intros Hchanged; now contradiction Hchanged |].
      split; [reflexivity | lia].
    + cbn [fst snd].
      split; [lia |].
      split; [intros Hchanged; now contradiction Hchanged |].
      split; [lia | reflexivity].
Qed.
